(** * Jira-to-Taiga migrator: markup conversion, status reconciliation,
      identity resolution and the migration loop

    A shallow embedding of [services/jira_service.py],
    [services/taiga_service.py], [migrate.py] and [env.py].

    Conventions of the model.

    - A Python [str] is a [string] of the Standard Library: the sequence of
      the bytes of its UTF-8 encoding.  Every negated character class and
      the dot of the source's patterns accept the bytes above 127, so a
      character outside ASCII is matched by them byte after byte exactly
      where the source matches it as one character.  [str.lower] and the
      class [\s] of the patterns are modelled on the ASCII range (for the
      white space: the characters 9..13 and 28..32): the case mappings of
      Unicode beyond ASCII, and its white space inside a pattern, are
      outside the model, and a statement that depends on them says so in
      its hypotheses.  [str.strip()] takes the white space of Unicode.
    - Paths are those of a POSIX system.
    - A Python [dict] is an association list in insertion order: the cache
      of users is scanned in that order by the source.
    - Calls to the Taiga project, to the Jira session and to the local file
      system are threaded through an explicit state; an exception is a
      result [Raised]. *)

From Stdlib Require Import List String Ascii ZArith Lia Bool Arith.
From Stdlib Require Import DecimalNat DecimalString.
Import ListNotations.

Local Open Scope string_scope.
Local Open Scope char_scope.
Local Open Scope bool_scope.

(** ** Python string primitives *)

Module PyStr.

Definition is_upper (c : ascii) : bool := ("A" <=? c) && (c <=? "Z").
Definition is_lower (c : ascii) : bool := ("a" <=? c) && (c <=? "z").
Definition is_digit (c : ascii) : bool := ("0" <=? c) && (c <=? "9").

(** [\s] on the ASCII range, as [str.isspace] has it there.  (The [\s]
    of a pattern also takes the white space outside ASCII, which the
    patterns of this file do not.) *)
Definition is_space (c : ascii) : bool :=
  let n := N_of_ascii c in
  ((9 <=? n) && (n <=? 13) || (28 <=? n) && (n <=? 32))%N.

(** The white space of [str.isspace] outside ASCII, in UTF-8: U+0085 and
    U+00A0 (two bytes); U+1680, U+2000 to U+200A, U+2028, U+2029, U+202F,
    U+205F and U+3000 (three bytes). *)
Definition is_space2 (c1 c2 : ascii) : bool :=
  (c1 =? "194") && ((c2 =? "133") || (c2 =? "160")).

Definition is_space3 (c1 c2 c3 : ascii) : bool :=
  let n := N_of_ascii c3 in
  (c1 =? "225") && (c2 =? "154") && (c3 =? "128")
  || (c1 =? "226") && (c2 =? "128")
     && ((128 <=? n) && (n <=? 138) || (n =? 168) || (n =? 169) || (n =? 175))%N
  || (c1 =? "226") && (c2 =? "129") && (c3 =? "159")
  || (c1 =? "227") && (c2 =? "128") && (c3 =? "128").

Definition lower_char (c : ascii) : ascii :=
  if is_upper c then ascii_of_N (N_of_ascii c + 32) else c.

(** The two characters outside ASCII whose lowercase has an ASCII letter:
    U+212A (the Kelvin sign, lowered to "k") and U+0130 (the capital I
    with a dot, lowered to "i" and U+0307), in UTF-8. *)
Definition kelvin_sign : string :=
  String "226" (String "132" (String "170" EmptyString)).
Definition capital_i_dot : string :=
  String "196" (String "176" EmptyString).

(** [s.lower()], on the ASCII range: a character outside ASCII is left as
    it is.  [str.lower] maps such a character to characters outside ASCII,
    except for [kelvin_sign] and [capital_i_dot]. *)
Fixpoint lower (s : string) : string :=
  match s with
  | EmptyString => EmptyString
  | String c s' => String (lower_char c) (lower s')
  end.

(** [c in chars], for a character *)
Fixpoint mem (c : ascii) (chars : string) : bool :=
  match chars with
  | EmptyString => false
  | String d chars' => (c =? d) || mem c chars'
  end.

(** [s.lstrip(...)] and [s.rstrip(...)], for the characters to strip
    given as a predicate *)
Fixpoint lstrip_by (p : ascii -> bool) (s : string) : string :=
  match s with
  | EmptyString => EmptyString
  | String c s' => if p c then lstrip_by p s' else s
  end.

Fixpoint rstrip_by (p : ascii -> bool) (s : string) : string :=
  match s with
  | EmptyString => EmptyString
  | String c s' =>
      match rstrip_by p s' with
      | EmptyString => if p c then EmptyString else String c EmptyString
      | t => String c t
      end
  end.

(** [s.strip(chars)] and [s.strip()] *)
Definition strip (chars s : string) : string :=
  rstrip_by (fun c => mem c chars) (lstrip_by (fun c => mem c chars) s).

(** [s.lstrip()], [s.rstrip()] and [s.strip()]: the white space of
    [str.isspace], of one, two or three bytes. *)
Fixpoint lstrip_ws (s : string) : string :=
  match s with
  | EmptyString => EmptyString
  | String c1 s1 =>
      if is_space c1 then lstrip_ws s1
      else
        match s1 with
        | String c2 s2 =>
            if is_space2 c1 c2 then lstrip_ws s2
            else
              match s2 with
              | String c3 s3 => if is_space3 c1 c2 c3 then lstrip_ws s3 else s
              | EmptyString => s
              end
        | EmptyString => s
        end
  end.

(** [s.isspace()], or [s] is empty *)
Definition all_ws (s : string) : bool :=
  match lstrip_ws s with
  | EmptyString => true
  | _ => false
  end.

Fixpoint rstrip_ws (s : string) : string :=
  match s with
  | EmptyString => EmptyString
  | String c s' => if all_ws s then EmptyString else String c (rstrip_ws s')
  end.

Definition strip_ws (s : string) : string := rstrip_ws (lstrip_ws s).

(** [s[0]] and [s[-1]]; [None] on the empty string *)
Definition first (s : string) : option ascii :=
  match s with
  | EmptyString => None
  | String c _ => Some c
  end.

Fixpoint last (s : string) : option ascii :=
  match s with
  | EmptyString => None
  | String c EmptyString => Some c
  | String _ s' => last s'
  end.

(** [all(p(c) for c in s)] *)
Fixpoint all (p : ascii -> bool) (s : string) : bool :=
  match s with
  | EmptyString => true
  | String c s' => p c && all p s'
  end.

(** [s.startswith(p)] *)
Definition startswith (s p : string) : bool := prefix p s.

(** [sub in s] *)
Fixpoint contains (sub s : string) : bool :=
  prefix sub s ||
  match s with
  | EmptyString => false
  | String _ s' => contains sub s'
  end.

(** [s.split(sep)] for a separator of one character: never empty. *)
Fixpoint split (sep : ascii) (s : string) : list string :=
  match s with
  | EmptyString => [EmptyString]
  | String c s' =>
      if c =? sep then EmptyString :: split sep s'
      else match split sep s' with
           | h :: t => String c h :: t
           | [] => [String c EmptyString]
           end
  end.

(** [s.split(sep, maxsplit)] *)
Fixpoint split_max (sep : ascii) (s : string) (maxsplit : nat) : list string :=
  match maxsplit with
  | O => [s]
  | S m =>
      match s with
      | EmptyString => [EmptyString]
      | String c s' =>
          if c =? sep then EmptyString :: split_max sep s' m
          else match split_max sep s' maxsplit with
               | h :: t => String c h :: t
               | [] => [String c EmptyString]
               end
      end
  end.

(** [s.replace(old, new)] for a non-empty [old]: the occurrences of [old]
    from left to right, without overlap.  [skip] counts the characters of
    an occurrence that are still to be passed over. *)
Fixpoint replace_from (old new : string) (skip : nat) (s : string) : string :=
  match s with
  | EmptyString => EmptyString
  | String c s' =>
      match skip with
      | S n => replace_from old new n s'
      | O =>
          if prefix old s
          then new ++ replace_from old new (String.length old - 1) s'
          else String c (replace_from old new 0 s')
      end
  end.

Definition replace (old new s : string) : string := replace_from old new 0 s.

(** [unit * n] *)
Fixpoint repeat (unit : string) (n : nat) : string :=
  match n with
  | O => EmptyString
  | S m => unit ++ repeat unit m
  end.

(** [int(s)] on a string of decimal digits; [None] is [ValueError]. *)
Fixpoint int_digits (acc : nat) (s : string) : option nat :=
  match s with
  | EmptyString => Some acc
  | String c s' =>
      if is_digit c
      then int_digits (10 * acc + (nat_of_ascii c - 48)) s'
      else None
  end.

Definition int (s : string) : option nat :=
  match s with
  | EmptyString => None
  | _ => int_digits 0 s
  end.

(** Truth value of a string: [if s:] *)
Definition truthy (s : string) : bool :=
  match s with EmptyString => false | _ => true end.

(** [s.count(c)], for a character *)
Fixpoint count (c : ascii) (s : string) : nat :=
  match s with
  | EmptyString => 0
  | String d s' => (if d =? c then 1 else 0) + count c s'
  end.

End PyStr.

(** ** The fragment of Python's [re] that the source uses

    A backtracking matcher in continuation-passing style: alternatives are
    tried in the order in which [re] tries them (a greedy repetition the
    longest first, a lazy one the shortest first), and the first complete
    match wins.  Every repetition of the source's patterns is over one
    character class, which is what [Star] and [StarLazy] take. *)

Module Re.

Inductive regex : Type :=
| Lit (c : ascii)                 (* a literal character *)
| Class (p : ascii -> bool)       (* [...] , \s , . *)
| Cat (r1 r2 : regex)             (* r1 r2 *)
| Opt (r : regex)                 (* (?:r)? *)
| Star (p : ascii -> bool)        (* [...]* *)
| StarLazy (p : ascii -> bool)    (* [...]*? *)
| Group (r : regex)               (* (r), group 1 *)
| Bol                             (* ^ under re.MULTILINE *)
| NotBehind (c : ascii)           (* (?<!c) *)
| NotAhead (c : ascii).           (* (?!c) *)

Infix "@@" := Cat (at level 60, right associativity).

(** [[...]+] and [[...]+?] *)
Definition Plus (p : ascii -> bool) : regex := Class p @@ Star p.
Definition PlusLazy (p : ascii -> bool) : regex := Class p @@ StarLazy p.

(** A literal word *)
Fixpoint Word (w : string) : regex :=
  match w with
  | EmptyString => Star (fun _ => false)
  | String c EmptyString => Lit c
  | String c w' => Lit c @@ Word w'
  end.

(** Character classes *)
Definition none_of (chars : string) : ascii -> bool :=
  fun c => negb (PyStr.mem c chars).
Definition one_of (chars : string) : ascii -> bool :=
  fun c => PyStr.mem c chars.
Definition dot : ascii -> bool := fun c => negb (c =? "010").
Definition alnum : ascii -> bool :=
  fun c => PyStr.is_lower c || PyStr.is_upper c || PyStr.is_digit c.

(** The state of a match attempt: the character before the current
    position, the number of characters consumed since the start of the
    attempt, the rest of the subject and the text of group 1. *)
Record mstate : Type := MState {
  m_prev : option ascii;
  m_pos : nat;
  m_rest : string;
  m_g1 : option string
}.

Definition advance (st : mstate) (c : ascii) (rest : string) : mstate :=
  MState (Some c) (S (m_pos st)) rest (m_g1 st).

Definition set_g1 (st : mstate) (g : option string) : mstate :=
  MState (m_prev st) (m_pos st) (m_rest st) g.

Definition cont : Type := mstate -> option mstate.

Fixpoint star (p : ascii -> bool) (k : cont) (g : option string)
    (prev : option ascii) (pos : nat) (s : string) : option mstate :=
  match s with
  | String c s' =>
      if p c then
        match star p k g (Some c) (S pos) s' with
        | Some res => Some res
        | None => k (MState prev pos s g)
        end
      else k (MState prev pos s g)
  | EmptyString => k (MState prev pos s g)
  end.

Fixpoint star_lazy (p : ascii -> bool) (k : cont) (g : option string)
    (prev : option ascii) (pos : nat) (s : string) : option mstate :=
  match k (MState prev pos s g) with
  | Some res => Some res
  | None =>
      match s with
      | String c s' => if p c then star_lazy p k g (Some c) (S pos) s' else None
      | EmptyString => None
      end
  end.

Fixpoint rmatch (r : regex) (st : mstate) (k : cont) : option mstate :=
  match r with
  | Lit c =>
      match m_rest st with
      | String d s' => if d =? c then k (advance st d s') else None
      | EmptyString => None
      end
  | Class p =>
      match m_rest st with
      | String d s' => if p d then k (advance st d s') else None
      | EmptyString => None
      end
  | Cat r1 r2 => rmatch r1 st (fun st' => rmatch r2 st' k)
  | Opt r1 =>
      match rmatch r1 st k with
      | Some res => Some res
      | None => k st
      end
  | Star p => star p k (m_g1 st) (m_prev st) (m_pos st) (m_rest st)
  | StarLazy p => star_lazy p k (m_g1 st) (m_prev st) (m_pos st) (m_rest st)
  | Group r1 =>
      rmatch r1 st (fun st' =>
        k (set_g1 st' (Some (substring 0 (m_pos st' - m_pos st) (m_rest st)))))
  | Bol =>
      match m_prev st with
      | None => k st
      | Some d => if d =? "010" then k st else None
      end
  | NotBehind c =>
      match m_prev st with
      | None => k st
      | Some d => if d =? c then None else k st
      end
  | NotAhead c =>
      match m_rest st with
      | EmptyString => k st
      | String d _ => if d =? c then None else k st
      end
  end.

(** [pattern.match] at one position of the subject: the length of the
    match and the text of group 1 ([None] when the group took no part). *)
Definition match_at (r : regex) (prev : option ascii) (s : string)
  : option (nat * option string) :=
  match rmatch r (MState prev 0 s None) Some with
  | Some res => Some (m_pos res, m_g1 res)
  | None => None
  end.

(** The scan of [re.sub] and [re.finditer] over the subject: the matches
    from left to right, without overlap, and the characters between them.
    [skip] counts the characters of the current match that are still to
    be passed over.  (After a match of length 0 the scan moves on by one
    character; no pattern of the source has one.) *)
Inductive piece : Type :=
| Keep (c : ascii)            (* a character outside every match *)
| Hit (g : option string).    (* a match, with its group 1 *)

Fixpoint scan (r : regex) (prev : option ascii) (skip : nat) (s : string)
  : list piece :=
  match skip with
  | S n =>
      match s with
      | String c s' => scan r (Some c) n s'
      | EmptyString => []
      end
  | O =>
      match match_at r prev s with
      | Some (len, g) =>
          Hit g ::
          match s with
          | EmptyString => []
          | String c s' =>
              match len with
              | O => Keep c :: scan r (Some c) 0 s'
              | S n => scan r (Some c) n s'
              end
          end
      | None =>
          match s with
          | EmptyString => []
          | String c s' => Keep c :: scan r (Some c) 0 s'
          end
      end
  end.

(** [re.sub(pattern, template, s)]: a template cannot raise. *)
Fixpoint render (repl : option string -> string) (ps : list piece) : string :=
  match ps with
  | [] => EmptyString
  | Keep c :: ps' => String c (render repl ps')
  | Hit g :: ps' => repl g ++ render repl ps'
  end.

Definition sub (r : regex) (repl : option string -> string) (s : string)
  : string :=
  render repl (scan r None 0 s).

(** [re.sub(pattern, function, s)]: the function may raise ([None]), and
    then so does [sub]. *)
Fixpoint render_fn (repl : option string -> option string)
    (ps : list piece) : option string :=
  match ps with
  | [] => Some EmptyString
  | Keep c :: ps' => option_map (String c) (render_fn repl ps')
  | Hit g :: ps' =>
      match repl g with
      | None => None
      | Some new => option_map (append new) (render_fn repl ps')
      end
  end.

Definition sub_fn (r : regex) (repl : option string -> option string)
    (s : string) : option string :=
  render_fn repl (scan r None 0 s).

(** A replacement template with one reference to group 1, [pre \1 post]:
    a group that took no part is replaced by the empty string. *)
Definition template (pre post : string) : option string -> string :=
  fun g => pre ++ match g with Some t => t | None => EmptyString end ++ post.

(** A template without group reference *)
Definition const (new : string) : option string -> string := fun _ => new.

(** What a successful attempt has matched, as a relation between the
    state before and the state after: the reading of the patterns that
    the matcher is checked against. *)
Inductive matches : regex -> mstate -> mstate -> Prop :=
| M_Lit : forall c st s',
    m_rest st = String c s' ->
    matches (Lit c) st (advance st c s')
| M_Class : forall p st d s',
    m_rest st = String d s' -> p d = true ->
    matches (Class p) st (advance st d s')
| M_Cat : forall r1 r2 st1 st2 st3,
    matches r1 st1 st2 -> matches r2 st2 st3 ->
    matches (Cat r1 r2) st1 st3
| M_OptSome : forall r st st',
    matches r st st' -> matches (Opt r) st st'
| M_OptNone : forall r st, matches (Opt r) st st
| M_StarNil : forall p st, matches (Star p) st st
| M_StarCons : forall p st d s' st',
    m_rest st = String d s' -> p d = true ->
    matches (Star p) (advance st d s') st' ->
    matches (Star p) st st'
| M_LazyNil : forall p st, matches (StarLazy p) st st
| M_LazyCons : forall p st d s' st',
    m_rest st = String d s' -> p d = true ->
    matches (StarLazy p) (advance st d s') st' ->
    matches (StarLazy p) st st'
| M_Group : forall r st st',
    matches r st st' ->
    matches (Group r) st
            (set_g1 st' (Some (substring 0 (m_pos st' - m_pos st) (m_rest st))))
| M_Bol : forall st,
    m_prev st = None \/ m_prev st = Some "010" ->
    matches Bol st st
| M_NotBehind : forall c st,
    m_prev st <> Some c -> matches (NotBehind c) st st
| M_NotAhead : forall c st,
    PyStr.first (m_rest st) <> Some c -> matches (NotAhead c) st st.

(** The pattern has no capturing group. *)
Fixpoint no_group (r : regex) : bool :=
  match r with
  | Group _ => false
  | Cat r1 r2 => no_group r1 && no_group r2
  | Opt r1 => no_group r1
  | _ => true
  end.

(** The substitution of a pattern [[...]+] by a constant, read directly:
    every maximal run of characters of the class becomes [new].
    [in_run] tells that the previous character was of the class. *)
Fixpoint run_length (p : ascii -> bool) (s : string) : nat :=
  match s with
  | String c s' => if p c then S (run_length p s') else 0
  | EmptyString => 0
  end.

Fixpoint collapse_runs (p : ascii -> bool) (new : string) (in_run : bool)
    (s : string) : string :=
  match s with
  | EmptyString => EmptyString
  | String c s' =>
      if p c then
        if in_run then collapse_runs p new true s'
        else new ++ collapse_runs p new true s'
      else String c (collapse_runs p new false s')
  end.

End Re.

(** ** Python dictionaries, in insertion order *)

Module Dict.

Definition dict (V : Type) : Type := list (string * V).

(** [d.get(k)] *)
Fixpoint get {V : Type} (k : string) (d : dict V) : option V :=
  match d with
  | [] => None
  | (k', v) :: d' => if (k' =? k)%string then Some v else get k d'
  end.

(** [d[k] = v]: a key that is present keeps its place. *)
Fixpoint set {V : Type} (k : string) (v : V) (d : dict V) : dict V :=
  match d with
  | [] => [(k, v)]
  | (k', v') :: d' =>
      if (k' =? k)%string then (k, v) :: d' else (k', v') :: set k v d'
  end.

Definition keys {V : Type} (d : dict V) : list string := map fst d.

End Dict.

(** ** The collaborators

    The Taiga project object, the Jira session and the local file system
    are outside the repository.  The model sees them through the calls the
    source makes: each call is recorded, and the collaborator answers it
    with a value or by raising, and moves to its next state. *)

Module Collab.

(** A user story status of the project, as the source reads it:
    [s.id], [s.name], [s.slug]. *)
Record status : Type := Status {
  st_id : Z;
  st_name : string;
  st_slug : string
}.

Inductive call : Type :=
| StatusDelete (s : status)
    (* status.delete() *)
| AddUserStoryStatus (name slug : string) (is_closed : bool) (color : string)
    (* project.add_user_story_status(name=, slug=, is_closed=, color=) *)
| AddUserStory (subject description : string) (status assigned_to : option Z)
    (* project.add_user_story(subject=, description=, status=, assigned_to=) *)
| StoryUpdatePoints (story role point : Z)
    (* story.update(points={str(role.id): p_obj.id}) *)
| StoryAddComment (story : Z) (txt : string)
    (* story.add_comment(txt) *)
| StoryAttach (story : Z) (path : string)
    (* story.attach(str(file_path)) *)
| SessionGet (url path : string).
    (* session.get(url, ...), for the body that goes to path *)

(** How the writing of the body of a response ends (lines 83 to 89 of
    [download_attachment]): [open] raises and there is no file; the body
    breaks off and the file stays with what was written of it; or the body
    is written whole. *)
Inductive body_end : Type :=
| NotOpened
| BrokenOff
| Written.

(** What the source consumes of its collaborators, over their state [W].
    [perform] answers a call: [Some v] is a normal return ([v] is the
    identifier of the object returned, where there is one), [None] is an
    exception; for [SessionGet], [Some _] stands for a response of status
    200, [None] for a request that raises or another status.  The local
    file system answers too: [makes_dir] tells whether
    [Path(dir).mkdir(exist_ok=True)] returns, [body_written] how the
    writing of the body of a response to a path ends. *)
Class Collaborator (W : Type) : Type := {
  us_statuses : W -> list status;        (* project.us_statuses *)
  roles : W -> list Z;                   (* r.id for r in project.roles *)
  points : W -> list (string * Z);       (* (str(p.value), p.id) for p in project.points *)
  perform : call -> W -> option Z * W;
  makes_dir : string -> W -> bool;
  body_written : string -> string -> W -> body_end
}.

Definition is_add_user_story (c : call) : bool :=
  match c with AddUserStory _ _ _ _ => true | _ => false end.

Definition is_add_status (c : call) : bool :=
  match c with AddUserStoryStatus _ _ _ _ => true | _ => false end.

Definition is_session_get (c : call) : bool :=
  match c with SessionGet _ _ => true | _ => false end.

Definition is_story_attach (c : call) : bool :=
  match c with StoryAttach _ _ => true | _ => false end.

Definition is_update_points (c : call) : bool :=
  match c with StoryUpdatePoints _ _ _ => true | _ => false end.

(** Two ways in which [project.us_statuses] may follow the calls, stated
    for the properties that depend on them.  [listing_sound]: a call adds
    to the list at most a status of the slug it was asked to create.
    [listing_live]: the list shows every status created, and creations
    remove nothing from it. *)
Definition listing_sound (W : Type) {collab : Collaborator W} : Prop :=
  forall c w s,
    In s (us_statuses (snd (perform c w))) ->
    In s (us_statuses w)
    \/ exists name is_closed color,
         c = AddUserStoryStatus name (st_slug s) is_closed color.

Definition listing_live (W : Type) {collab : Collaborator W} : Prop :=
  (forall name slug is_closed color w id,
      fst (perform (AddUserStoryStatus name slug is_closed color) w) = Some id ->
      exists s,
        In s (us_statuses (snd (perform (AddUserStoryStatus name slug is_closed color) w)))
        /\ st_slug s = slug)
  /\ (forall c w s,
        is_add_status c = true ->
        In s (us_statuses w) -> In s (us_statuses (snd (perform c w)))).

End Collab.

(** ** State and exceptions *)

Module Eff.

Import Collab.

Inductive result (A : Type) : Type :=
| Ok (a : A)
| Raised.
Arguments Ok {A} a.
Arguments Raised {A}.

Section WithCollaborator.

Context {W : Type} {collab : Collaborator W}.

(** The state of a run: the collaborators, the calls made so far with
    their answers (oldest first), the local files that downloads have
    left, and [TaigaService.statuses_cache]. *)
Record state : Type := State {
  world : W;
  log : list (call * option Z);
  files : list string;
  statuses_cache : Dict.dict Z
}.

Definition M (A : Type) : Type := state -> result A * state.

Definition ret {A : Type} (a : A) : M A := fun st => (Ok a, st).

Definition raise {A : Type} : M A := fun st => (Raised, st).

Definition bind {A B : Type} (m : M A) (f : A -> M B) : M B :=
  fun st =>
    match m st with
    | (Ok a, st') => f a st'
    | (Raised, st') => (Raised, st')
    end.

(** [try: m  except Exception: h] *)
Definition try_except {A : Type} (m : M A) (h : M A) : M A :=
  fun st =>
    match m st with
    | (Ok a, st') => (Ok a, st')
    | (Raised, st') => h st'
    end.

Definition get_world : M W := fun st => (Ok (world st), st).

(** A call to a collaborator: recorded with its answer. *)
Definition ask (c : call) : M (option Z) :=
  fun st =>
    let (r, w') := perform c (world st) in
    (Ok r, State w' (log st ++ [(c, r)]) (files st) (statuses_cache st)).

(** The state after a call *)
Definition after (c : call) (st : state) : state :=
  State (snd (perform c (world st)))
        (log st ++ [(c, fst (perform c (world st)))])
        (files st) (statuses_cache st).

(** A call whose exception propagates *)
Definition invoke (c : call) : M Z :=
  bind (ask c) (fun r =>
    match r with
    | Some v => ret v
    | None => raise
    end).

(** [Path(path).mkdir(exist_ok=True)]: an exception when the directory
    cannot be made. *)
Definition mkdir (path : string) : M unit :=
  fun st => if makes_dir path (world st) then (Ok tt, st) else (Raised, st).

(** How the writing of the body of the response to [url] ends *)
Definition body_of (url path : string) : M body_end :=
  fun st => (Ok (body_written url path (world st)), st).

(** The local file system *)
Definition write_file (path : string) : M unit :=
  fun st =>
    (Ok tt,
     State (world st) (log st)
           (if existsb (String.eqb path) (files st)
            then files st else files st ++ [path])
           (statuses_cache st)).

(** [path.unlink()]: [FileNotFoundError] when the file is not there. *)
Definition unlink (path : string) : M unit :=
  fun st =>
    if existsb (String.eqb path) (files st)
    then (Ok tt,
          State (world st) (log st)
                (filter (fun p => negb (p =? path)%string) (files st))
                (statuses_cache st))
    else (Raised, st).

Definition set_statuses_cache (d : Dict.dict Z) : M unit :=
  fun st => (Ok tt, State (world st) (log st) (files st) d).

(** [for x in xs: body(x)] *)
Fixpoint for_each {A : Type} (xs : list A) (body : A -> M unit) : M unit :=
  match xs with
  | [] => ret tt
  | x :: xs' => bind (body x) (fun _ => for_each xs' body)
  end.

(** An entry of the log that is an exception: a call that raised.  (A
    failed download is no exception: [download_attachment] returns
    [None].) *)
Definition raised_entry (en : call * option Z) : bool :=
  negb (is_session_get (fst en))
  && match snd en with None => true | Some _ => false end.

Definition count_raised (l : list (call * option Z)) : nat :=
  List.length (filter raised_entry l).

(** [m] only makes calls that satisfy [P], and it raises exactly when one
    of its calls raises, which is then its last. *)
Definition traced {A : Type} (P : call -> bool) (m : M A) : Prop :=
  forall st, exists new,
    log (snd (m st)) = (log st ++ new)%list
    /\ forallb (fun en => P (fst en)) new = true
    /\ count_raised new = match fst (m st) with Ok _ => 0 | Raised => 1 end.

(** [m] only makes calls that satisfy [P]; when it returns none of them
    has raised, and when it raises at most one has, its last: exactly one
    where every directory can be made. *)
Definition logged {A : Type} (P : call -> bool) (m : M A) : Prop :=
  forall st, exists new,
    log (snd (m st)) = (log st ++ new)%list
    /\ forallb (fun en => P (fst en)) new = true
    /\ count_raised new <= match fst (m st) with Ok _ => 0 | Raised => 1 end
    /\ ((forall path w, makes_dir path w = true) ->
        count_raised new = match fst (m st) with Ok _ => 0 | Raised => 1 end).

(** [m] leaves no local file behind when it returns: the files after it
    were there before it. *)
Definition tidy {A : Type} (m : M A) : Prop :=
  forall st,
    match fst (m st) with
    | Ok _ => incl (files (snd (m st))) (files st)
    | Raised => True
    end.

End WithCollaborator.

Arguments state W : clear implicits.
Arguments M W A : clear implicits.

End Eff.

(** ** services/jira_service.py *)

Module JiraService.

Import Re.

(** [_fix_link(match)], on [inner = match.group(1)].  [None] is an
    exception: a group that took no part, or an index out of range. *)
Definition fix_link (g : option string) : option string :=
  match g with
  | None => None
  | Some inner =>
      if (inner =? " ")%string || (PyStr.lower inner =? "x")%string
      then Some ("[" ++ inner ++ "]")
      else
        let content := PyStr.split "|" inner in
        if Nat.eqb (List.length content) 1
        then match nth_error content 0 with
             | Some c0 => Some ("[" ++ c0 ++ "](" ++ c0 ++ ")")
             | None => None
             end
        else match nth_error content 0, nth_error content 1 with
             | Some c0, Some c1 => Some ("[" ++ c0 ++ "](" ++ c1 ++ ")")
             | _, _ => None
             end
  end.

(** [lambda m: '  ' * (len(m.group(1)) - 1) + '* '] *)
Definition bullet_repl (g : option string) : option string :=
  match g with
  | None => None
  | Some stars => Some (PyStr.repeat "  " (String.length stars - 1) ++ "* ")
  end.

(** [lambda m: '#' * int(m.group(1)) + ' '] *)
Definition heading_repl (g : option string) : option string :=
  match g with
  | None => None
  | Some d =>
      match PyStr.int d with
      | Some n => Some (PyStr.repeat "#" n ++ " ")
      | None => None
      end
  end.

(** The patterns, in the order of the passes. *)

(* line 107: "!", group 1 = one or more characters other than "!" and "|",
   optionally "|" and any characters other than "!", then "!" *)
Definition re_image : regex :=
  Lit "!" @@ Group (Plus (none_of "!|")) @@
  Opt (Lit "|" @@ Star (none_of "!")) @@ Lit "!".

(* line 121: "[", group 1 = one or more characters other than "]", "]" *)
Definition re_link : regex :=
  Lit "[" @@ Group (Plus (none_of "]")) @@ Lit "]".

(* line 125: at a line start, group 1 = two or more "*", then one or more
   white space characters *)
Definition re_bullets : regex :=
  Bol @@ Group (Lit "*" @@ Plus (one_of "*")) @@ Plus PyStr.is_space.

(* line 126: at a line start, "#", then one or more white space characters *)
Definition re_numbered : regex :=
  Bol @@ Lit "#" @@ Plus PyStr.is_space.

(* line 129: at a line start, "h", group 1 = a digit 1 to 6, ".", then one
   or more white space characters *)
Definition re_heading : regex :=
  Bol @@ Lit "h" @@ Group (Class (one_of "123456")) @@ Lit "." @@
  Plus PyStr.is_space.

(* line 135: not after "*": "*", group 1 = a character other than "*",
   space and newline, optionally followed by as few characters other than
   "*" as possible and one more character other than "*", space and
   newline; then "*", not before "*" *)
Definition not_star_space_nl : ascii -> bool :=
  fun c => negb ((c =? "*") || (c =? " ") || (c =? "010")).

Definition re_bold : regex :=
  NotBehind "*" @@ Lit "*" @@
  Group (Class not_star_space_nl @@
         Opt (StarLazy (none_of "*") @@ Class not_star_space_nl)) @@
  Lit "*" @@ NotAhead "*".

(* line 137: two "{", group 1 = one or more characters other than newline,
   as few as possible, two "}" *)
Definition re_mono : regex :=
  Word "{{" @@ Group (PlusLazy dot) @@ Word "}}".

(* line 144: "{code", optionally ":" and group 1 = one or more letters or
   digits, then "}" *)
Definition re_code : regex :=
  Word "{code" @@ Opt (Lit ":" @@ Group (Plus alnum)) @@ Lit "}".

(* line 146: the word "{noformat}" *)
Definition re_noformat : regex := Word "{noformat}".

(** The patterns as the source writes them, each with its reading. *)
Definition source_patterns : list (string * regex) :=
  [("!([^!|]+)(?:\|[^!]*)?!", re_image);
   ("\[([^\]]+)\]", re_link);
   ("^(\*\*+)\s+", re_bullets);
   ("^#\s+", re_numbered);
   ("^h([1-6])\.\s+", re_heading);
   ("(?<!\*)\*([^* \n](?:[^*]*?[^* \n])?)\*(?!\*)", re_bold);
   ("\{\{(.+?)\}\}", re_mono);
   ("\{code(?::([a-zA-Z0-9]+))?\}", re_code);
   ("\{noformat\}", re_noformat)]%string.

Definition bind {A B : Type} (o : option A) (f : A -> option B) : option B :=
  match o with
  | Some a => f a
  | None => None
  end.

Local Notation "x <- e ;; k" := (bind e (fun x => k))
  (at level 61, e at next level, right associativity).

(** [body.replace('(/)', ...)...], lines 140 and 141 *)
Definition icons (body : string) : string :=
  let body := PyStr.replace "(/)" "✅" body in
  let body := PyStr.replace "(x)" "❌" body in
  let body := PyStr.replace "(!)" "⚠️" body in
  let body := PyStr.replace "(i)" "ℹ️" body in
  let body := PyStr.replace "(y)" "👍" body in
  PyStr.replace "(n)" "👎" body.

(** Lines 144 to 146 *)
Definition code_blocks (body : string) : string :=
  let body := sub re_code (template "```" "") body in
  let body := PyStr.replace "{code}" "```" body in
  sub re_noformat (const "```") body.

(** [convert_markup(body)]; [None] is an exception escaping the function. *)
Definition convert_markup (body : string) : option string :=
  if negb (PyStr.truthy body) then Some ""%string
  else
    (* 1. images and attachments *)
    let body := sub re_image (template "(Attachment: " ")") body in
    (* 2. links *)
    body <- sub_fn re_link fix_link body ;;
    (* 3. lists *)
    body <- sub_fn re_bullets bullet_repl body ;;
    let body := sub re_numbered (const "* ") body in
    (* 4. headings *)
    body <- sub_fn re_heading heading_repl body ;;
    (* 4. text formatting *)
    let body := sub re_bold (template "**" "**") body in
    let body := sub re_mono (template "`" "`") body in
    (* 5. icons, 6. code blocks *)
    Some (code_blocks (icons body)).

(** [parse_comment(raw_comment)] *)
Definition parse_comment (raw_comment : string) : option string :=
  if negb (PyStr.truthy raw_comment) then Some ""%string
  else
    let parts := PyStr.split_max ";" raw_comment 2 in
    if Nat.ltb (List.length parts) 3
    then convert_markup raw_comment
    else
      match parts with
      | [_date; _author_id; body] => convert_markup body
      | _ => None
      end.

(** [self.username], [self.api_token] *)
Record service : Type := Service {
  username : option string;
  api_token : option string
}.

Definition opt_truthy (o : option string) : bool :=
  match o with
  | Some s => PyStr.truthy s
  | None => false
  end.

(** U+202F, in UTF-8 *)
Definition narrow_nbsp : string :=
  String "226" (String "128" (String "175" EmptyString)).

(** The parts of a path, as [pathlib] reads them: what stands between
    the slashes, without the empty parts and the parts ".". *)
Definition path_parts (s : string) : list string :=
  filter (fun x => negb ((x =? "")%string || (x =? ".")%string))
         (PyStr.split "/" s).

(** ["/".join(parts)] *)
Fixpoint join_parts (parts : list string) : string :=
  match parts with
  | [] => EmptyString
  | [x] => x
  | x :: parts' => (x ++ "/" ++ join_parts parts')%string
  end.

(** The root of a path: "/" for a path that begins with one slash or with
    three or more, "//" for one that begins with exactly two, and none for
    a relative path. *)
Definition path_root (s : string) : string :=
  match s with
  | String "/" (String "/" (String "/" _)) => "/"%string
  | String "/" (String "/" _) => "//"%string
  | String "/" _ => "/"%string
  | _ => EmptyString
  end.

(** [str(Path("attachments") / sanitized_filename)]: an absolute file name
    replaces the directory. *)
Definition attachments_path (sanitized_filename : string) : string :=
  match path_root sanitized_filename with
  | EmptyString =>
      join_parts ("attachments"%string :: path_parts sanitized_filename)
  | root => (root ++ join_parts (path_parts sanitized_filename))%string
  end.

(** [download_attachment(url, filename)]: the path of the local file, or
    [None].  The directory is made outside the [try]: its exception
    leaves the function.  Every other failure ends in [return None]: a
    request that raises or a status other than 200 before the file is
    opened, a body that breaks off after it. *)
Definition download_attachment {W : Type} {collab : Collab.Collaborator W}
    (self : service) (url filename : string) : Eff.M W (option string) :=
  if negb (opt_truthy (username self)) || negb (opt_truthy (api_token self))
  then Eff.ret None
  else
    Eff.bind (Eff.mkdir "attachments"%string) (fun _ =>
    let sanitized_filename :=
      PyStr.strip_ws (PyStr.replace narrow_nbsp " " filename) in
    let local_path := attachments_path sanitized_filename in
    Eff.bind (Eff.ask (Collab.SessionGet url local_path)) (fun r =>
      match r with
      | Some _ =>
          Eff.bind (Eff.body_of url local_path) (fun b =>
            match b with
            | Collab.NotOpened => Eff.ret None
            | Collab.BrokenOff =>
                Eff.bind (Eff.write_file local_path) (fun _ => Eff.ret None)
            | Collab.Written =>
                Eff.bind (Eff.write_file local_path) (fun _ =>
                  Eff.ret (Some local_path))
            end)
      | None => Eff.ret None
      end)).

(** [str(n)] of a count: its decimal digits *)
Definition str_of_nat (n : nat) : string :=
  NilEmpty.string_of_uint (Nat.to_uint n).

(** Lines 39 to 48 of [parse_csv]: the loop that makes the headers unique.
    [counts] is the dict of the loop; the result is what the loop appends
    to [unique_headers], in order. *)
Fixpoint unique_headers_from (counts : Dict.dict nat) (headers : list string)
  : list string :=
  match headers with
  | [] => []
  | header :: headers' =>
      match Dict.get header counts with
      | Some n =>
          (header ++ "." ++ str_of_nat (S n))%string
          :: unique_headers_from (Dict.set header (S n) counts) headers'
      | None =>
          header :: unique_headers_from (Dict.set header 0 counts) headers'
      end
  end.

Definition unique_headers (headers : list string) : list string :=
  unique_headers_from [] headers.

(** [dict(pairs)]: the pairs are set from left to right. *)
Definition dict_of_pairs {V : Type} (pairs : list (string * V)) : Dict.dict V :=
  fold_left (fun d kv => Dict.set (fst kv) (snd kv) d) pairs [].

(** [parse_csv(file_path)], on what [csv.reader] yields for the file: the
    list of its records, or [None] when opening or reading raises.  [zip]
    stops at the shorter of the headers and the record. *)
Definition parse_csv (content : option (list (list string)))
  : list (Dict.dict string) :=
  match content with
  | None => []
  | Some [] => []
  | Some ([] :: _) => []
  | Some (headers :: records) =>
      map (fun record => dict_of_pairs (combine (unique_headers headers) record))
          records
  end.

End JiraService.


(** ** services/taiga_service.py *)

Module TaigaService.

Import Collab Eff.

Local Notation "x <- m ;; k" := (bind m (fun x => k))
  (at level 61, m at next level, right associativity).

(** The fields of [self] that the row processing reads. *)
Record service : Type := Service {
  project_connected : bool;              (* self.project is not None *)
  users_cache : Dict.dict Z;
  manual_user_map : Dict.dict string
}.

Definition slug_char (c : ascii) : bool :=
  PyStr.is_lower c || PyStr.is_digit c.

Definition non_slug (c : ascii) : bool := negb (slug_char c).

(* line 51: one or more characters outside a-z and 0-9 *)
Definition re_non_slug : Re.regex := Re.Plus non_slug.

(** [slugify(text)] *)
Definition slugify (text : string) : string :=
  let text := PyStr.lower text in
  PyStr.strip "-" (Re.sub re_non_slug (Re.const "-") text).

(** The shape of a key: characters of a-z and 0-9, and hyphens that stand
    alone; [no_hyphen] forbids a hyphen in front. *)
Fixpoint slug_form (no_hyphen : bool) (s : string) : bool :=
  match s with
  | EmptyString => true
  | String c s' =>
      if slug_char c then slug_form false s'
      else (c =? "-") && negb no_hyphen && slug_form true s'
  end.

(** The characters of a key: a-z, 0-9 and the hyphen *)
Definition key_char (c : ascii) : bool := slug_char c || (c =? "-").

Definition colors : list string :=
  ["#70728F"; "#E47C40"; "#A58C43"; "#DA6095"; "#8E44AD"; "#2ECC71";
   "#3498DB"]%string.

(** [name.lower() in ["done", "dev done", "closed", "ready for prod"]] *)
Definition is_closed_name (name : string) : bool :=
  existsb (String.eqb (PyStr.lower name))
          ["done"; "dev done"; "closed"; "ready for prod"]%string.

(** Truth value of an identifier or [None]: [if not assignee_id] *)
Definition truthy_id (o : option Z) : bool :=
  match o with
  | Some z => negb (z =? 0)%Z
  | None => false
  end.

(** Lines 120 to 123: the first key of the cache, in its order, that
    contains the name or is contained in it, lowercased. *)
Fixpoint fuzzy_scan (assignee_full_name : string) (cache : Dict.dict Z)
  : option Z :=
  match cache with
  | [] => None
  | (cached_name, uid) :: cache' =>
      if PyStr.contains (PyStr.lower assignee_full_name) (PyStr.lower cached_name)
         || PyStr.contains (PyStr.lower cached_name) (PyStr.lower assignee_full_name)
      then Some uid
      else fuzzy_scan assignee_full_name cache'
  end.

(** Lines 110 to 123 of [create_story]: the assignee lookup.  The name is
    [None] when the row has no such column. *)
Definition assignee_lookup (self : service)
    (assignee_full_name : option string) : option Z :=
  match assignee_full_name with
  | None => None
  | Some name =>
      let assignee_id := Dict.get name (users_cache self) in
      if negb (truthy_id assignee_id) && PyStr.truthy name then
        let assignee_id :=
          match Dict.get name (manual_user_map self) with
          | Some mapped_name =>
              if PyStr.truthy mapped_name
              then Dict.get mapped_name (users_cache self)
              else assignee_id
          | None => assignee_id
          end in
        if negb (truthy_id assignee_id) then
          match fuzzy_scan name (users_cache self) with
          | Some uid => Some uid
          | None => assignee_id
          end
        else assignee_id
      else assignee_id
  end.

(** The three tiers as the specification words them: an exact hit of the
    cache, else the cache entry of the mapped name, else the first key of
    the cache that contains the lowercased name or is contained in it. *)
Definition fuzzy_spec (displayName : string) (cache : Dict.dict Z) : option Z :=
  option_map snd
    (find (fun kv =>
             PyStr.contains (PyStr.lower (fst kv)) (PyStr.lower displayName)
             || PyStr.contains (PyStr.lower displayName) (PyStr.lower (fst kv)))
          cache).

Definition resolve_spec (cache : Dict.dict Z) (manual : Dict.dict string)
    (displayName : string) : option Z :=
  match Dict.get displayName cache with
  | Some id => Some id
  | None =>
      match Dict.get displayName manual with
      | Some mapped =>
          match Dict.get mapped cache with
          | Some id => Some id
          | None => fuzzy_spec displayName cache
          end
      | None => fuzzy_spec displayName cache
      end
  end.

(** The cache as [connect_project] fills it: no empty key (lines 31 and
    36 of the source), and identifiers of users, which are not 0. *)
Definition cache_wf (cache : Dict.dict Z) : Prop :=
  forall k id, In (k, id) cache -> k <> EmptyString /\ id <> 0%Z.

(** A membership of the project as lines 29 to 40 of [connect_project]
    read it: [m.full_name], [m.user], and the username of
    [api.users.get(m.user)], [None] when that call raises. *)
Record membership : Type := Membership {
  full_name : option string;
  user : Z;
  username : option string
}.

(** Lines 29 to 40: the cache of users, keyed by full name, [@username]
    and username. *)
Fixpoint fill_users_cache (memberships : list membership)
    (cache : Dict.dict Z) : Dict.dict Z :=
  match memberships with
  | [] => cache
  | m :: memberships' =>
      let cache :=
        match full_name m with
        | Some n => if PyStr.truthy n then Dict.set n (user m) cache else cache
        | None => cache
        end in
      let cache :=
        match username m with
        | Some u =>
            if PyStr.truthy u
            then Dict.set u (user m) (Dict.set ("@" ++ u) (user m) cache)
            else cache
        | None => cache
        end in
      fill_users_cache memberships' cache
  end.

(** The creation call that [sync_statuses] makes for the name at index [i]
    of its input. *)
Definition status_call (i : nat) (name : string) : call :=
  AddUserStoryStatus name (slugify name) (is_closed_name name)
                     (nth (i mod List.length colors) colors EmptyString).

(** The creation calls of a log, oldest first. *)
Definition created (l : list (call * option Z)) : list call :=
  filter is_add_status (map fst l).

(** The creation calls for the names of an input, from index [i] on *)
Fixpoint status_calls (i : nat) (names : list string) : list call :=
  match names with
  | [] => []
  | name :: names' => status_call i name :: status_calls (S i) names'
  end.

(** The slugs of the statuses that a log shows as created: the creation
    calls that returned. *)
Definition slugs_created (l : list (call * option Z)) : list string :=
  flat_map (fun en =>
              match en with
              | (AddUserStoryStatus _ slug _ _, Some _) => [slug]
              | _ => []
              end) l.

(** The palette indexed by the order of creation: the k-th status created
    has the colour [k mod 7]. *)
Definition colors_by_creation_order (l : list (call * option Z)) : Prop :=
  forall k name slug is_closed color,
    nth_error (created l) k = Some (AddUserStoryStatus name slug is_closed color) ->
    color = nth (k mod List.length colors) colors EmptyString.

Section WithCollaborator.

Context {W : Type} {collab : Collaborator W}.
Variable self : service.

(** Lines 66 to 71 *)
Definition delete_statuses : M W unit :=
  w <- get_world ;;
  for_each (us_statuses w) (fun status =>
    try_except (_ <- invoke (StatusDelete status) ;; ret tt) (ret tt)).

(** Lines 79 to 99: [for i, name in enumerate(csv_statuses)] *)
Fixpoint sync_loop (i : nat) (names : list string)
    (status_map : Dict.dict Z) : M W (Dict.dict Z) :=
  match names with
  | [] => ret status_map
  | name :: names' =>
      let slug := slugify name in
      let is_closed := is_closed_name name in
      let color := nth (i mod List.length colors) colors EmptyString in
      w <- get_world ;;
      let found :=
        find (fun s => (st_slug s =? slug)%string) (us_statuses w) in
      status_map <-
        match found with
        | Some s => ret (Dict.set slug (st_id s) status_map)
        | None =>
            try_except
              (new_status <- invoke (AddUserStoryStatus name slug is_closed color) ;;
               ret (Dict.set slug new_status status_map))
              (ret status_map)
        end ;;
      sync_loop (S i) names' status_map
  end.

(** [sync_statuses(csv_statuses, reset, dry_run)], on the sequence in
    which [csv_statuses] is iterated. *)
Definition sync_statuses (csv_statuses : list string)
    (reset dry_run : bool) : M W (Dict.dict Z) :=
  if negb (project_connected self) then raise
  else if dry_run then
    ret (fold_left (fun d s => Dict.set (slugify s) 1%Z d) csv_statuses [])
  else
    _ <- (if reset then delete_statuses else ret tt) ;;
    status_map <- sync_loop 0 csv_statuses [] ;;
    _ <- set_statuses_cache status_map ;;
    ret status_map.

(** Lines 134 to 138 *)
Definition update_points (story : Z) (points_value : option string)
  : M W unit :=
  w <- get_world ;;
  match points_value, roles w with
  | Some v, role :: _ =>
      if PyStr.truthy v then
        match find (fun p => (fst p =? v)%string) (points w) with
        | Some p_obj => _ <- invoke (StoryUpdatePoints story role (snd p_obj)) ;; ret tt
        | None => ret tt
        end
      else ret tt
  | _, _ => ret tt
  end.

(** [create_story(...)]: the identifier of the story created, [None]
    under [dry_run]. *)
Definition create_story (title description : string)
    (status_id : option Z) (assignee_full_name : option string)
    (points_value : option string) (comment_map : list string)
    (dry_run : bool) : M W (option Z) :=
  if dry_run then ret None
  else
    let assignee_id := assignee_lookup self assignee_full_name in
    try_except
      (story <- invoke (AddUserStory title description status_id assignee_id) ;;
       _ <- update_points story points_value ;;
       _ <- for_each comment_map (fun txt =>
              _ <- invoke (StoryAddComment story txt) ;; ret tt) ;;
       ret (Some story))
      raise.

(** [attach_file(story, file_path)] *)
Definition attach_file (story : option Z) (file_path : option string)
  : M W unit :=
  match story, file_path with
  | Some id, Some path => _ <- invoke (StoryAttach id path) ;; ret tt
  | _, _ => ret tt
  end.

End WithCollaborator.

End TaigaService.

(** ** migrate.py *)

Module Migrate.

Import Collab Eff.

Local Notation "x <- m ;; k" := (bind m (fun x => k))
  (at level 61, m at next level, right associativity).

(** The flags of [env] *)
Record env : Type := Env {
  DRY_RUN : bool;
  RESET_STATUSES : bool;
  DOWNLOAD_ATTACHMENTS : bool
}.

(** A row of the CSV file: header to value, in the order of the columns. *)
Definition row : Type := Dict.dict string.

Record stats : Type := Stats {
  success : Z;
  failed : Z
}.

(** Lines 78 to 83; [None] when [parse_comment] raises. *)
Fixpoint comments_loop (items : list (string * string))
    (comments : list string) : option (list string) :=
  match items with
  | [] => Some comments
  | (key, value) :: items' =>
      if PyStr.truthy value
         && (PyStr.contains "Comment" key || PyStr.startswith key "Comment")
      then
        match JiraService.parse_comment value with
        | None => None
        | Some parsed =>
            if PyStr.truthy parsed
            then comments_loop items' (comments ++ [parsed])
            else comments_loop items' comments
        end
      else comments_loop items' comments
  end.

(** The comments of a row, field by field: what a field contributes. *)
Definition comment_of (kv : string * string) : list string :=
  let (key, value) := kv in
  if PyStr.truthy value
     && (PyStr.contains "Comment" key || PyStr.startswith key "Comment")
  then match JiraService.parse_comment value with
       | Some parsed => if PyStr.truthy parsed then [parsed] else []
       | None => []
       end
  else [].

Definition comments_of (r : list (string * string)) : list string :=
  flat_map comment_of r.

(** [row.get('Summary', 'No Title')] *)
Definition summary_of (r : list (string * string)) : string :=
  match Dict.get "Summary" r with Some v => v | None => "No Title"%string end.

(** The subjects of the stories whose creation a log shows as attempted,
    oldest first. *)
Definition story_subjects (l : list (call * option Z)) : list string :=
  flat_map (fun en =>
              match fst en with
              | AddUserStory subject _ _ _ => [subject]
              | _ => []
              end) l.

(** The calls of [create_story] after the creation: the points and the
    comments of [comment_map]. *)
Definition story_detail (comment_map : list string) (c : call) : bool :=
  match c with
  | StoryUpdatePoints _ _ _ => true
  | StoryAddComment _ txt => existsb (String.eqb txt) comment_map
  | _ => false
  end.

(** The calls of the handling of attachments *)
Definition attachment_call (c : call) : bool :=
  is_session_get c || is_story_attach c.

(** The calls that [create_story] makes *)
Definition creation_call (c : call) : bool :=
  match c with
  | AddUserStory _ _ _ _ | StoryUpdatePoints _ _ _ | StoryAddComment _ _ => true
  | _ => false
  end.


(** Lines 65 to 68: the identifier of the status of a row *)
Definition status_id_of (taiga_statuses : Dict.dict Z)
    (r : list (string * string)) : option Z :=
  match Dict.get "Status" r with
  | Some v =>
      if PyStr.truthy v
      then Dict.get (TaigaService.slugify v) taiga_statuses
      else None
  | None => None
  end.

(** [[v for k, v in row.items() if k.startswith('Attachment') and v]] *)
Definition attachment_cols (r : row) : list string :=
  map snd
      (filter (fun kv => PyStr.startswith (fst kv) "Attachment"
                         && PyStr.truthy (snd kv)) r).

(** [parts[-1]] *)
Definition last_part (parts : list string) : option string :=
  nth_error parts (List.length parts - 1).

Section WithCollaborator.

Context {W : Type} {collab : Collaborator W}.
Variable e : env.
Variable jira_service : JiraService.service.
Variable taiga_service : TaigaService.service.
(** [markdown.markdown], the external renderer *)
Variable markdown : string -> string.

Definition lift {A : Type} (o : option A) : M W A :=
  match o with
  | Some a => ret a
  | None => raise
  end.

(** Lines 110 to 119, for one attachment field *)
Definition handle_attachment (story : option Z) (attachment_field : string)
  : M W unit :=
  let parts := PyStr.split ";" attachment_field in
  if Nat.leb 4 (List.length parts) then
    att_url <- lift (last_part parts) ;;
    att_filename <- lift (nth_error parts 2) ;;
    local_file <- JiraService.download_attachment jira_service att_url att_filename ;;
    match local_file with
    | Some path =>
        _ <- TaigaService.attach_file story (Some path) ;;
        unlink path
    | None => ret tt
    end
  else ret tt.

(** Lines 64 to 126: the body of the loop, for one row. *)
Definition main_row (taiga_statuses : Dict.dict Z) (r : row) (s : stats)
  : M W stats :=
  let summary := summary_of r in
  let raw_status := Dict.get "Status" r in
  let status_slug :=
    match raw_status with
    | Some v => if PyStr.truthy v then Some (TaigaService.slugify v) else None
    | None => None
    end in
  let status_id :=
    match status_slug with
    | Some k => Dict.get k taiga_statuses
    | None => None
    end in
  let assignee := Dict.get "Assignee" r in
  let raw_description :=
    match Dict.get "Description" r with Some v => v | None => EmptyString end in
  description_md <- lift (JiraService.convert_markup raw_description) ;;
  let description := markdown description_md in
  let points_val := Dict.get "Custom field (Story point estimate)" r in
  comments <- lift (comments_loop r []) ;;
  if DRY_RUN e then ret s
  else
    try_except
      (story <- TaigaService.create_story taiga_service summary description
                  status_id assignee points_val comments false ;;
       _ <- (if DOWNLOAD_ATTACHMENTS e
             then for_each (attachment_cols r) (handle_attachment story)
             else ret tt) ;;
       ret (Stats (success s + 1) (failed s)))
      (ret (Stats (success s) (failed s + 1))).

(** Lines 63 to 126: [for i, row in enumerate(rows, 1)] *)
Fixpoint main_rows (taiga_statuses : Dict.dict Z) (rows : list row)
    (s : stats) : M W stats :=
  match rows with
  | [] => ret s
  | r :: rows' =>
      s <- main_row taiga_statuses r s ;;
      main_rows taiga_statuses rows' s
  end.

(** Line 48: the statuses of the rows, each once.  The set of the source
    is iterated in an order of its own: [main] takes that order as the
    function [order] on the list of the members. *)
Definition statuses_of (rows : list row) : list string :=
  nodup string_dec
    (flat_map (fun r : row =>
                 match Dict.get "Status" r with
                 | Some v => if PyStr.truthy v then [v] else []
                 | None => []
                 end) rows).

(** Lines 40 to 130: [main] from the parsed rows on, with the services
    built and the project fetched.  The result is [None] when [main]
    returns for want of rows, and the counters otherwise. *)
Definition main (order : list string -> list string) (rows : list row)
  : M W (option stats) :=
  match rows with
  | [] => ret None
  | _ =>
      let unique_statuses := order (statuses_of rows) in
      taiga_statuses <- TaigaService.sync_statuses taiga_service unique_statuses
                          (RESET_STATUSES e) (DRY_RUN e) ;;
      s <- main_rows taiga_statuses rows (Stats 0 0) ;;
      ret (Some s)
  end.

End WithCollaborator.

End Migrate.

(** ** env.py *)

Module EnvVars.

(** [os.getenv(name, default)], on the value of the variable: [None] when
    it is not set. *)
Definition getenv (value : option string) (default : string) : string :=
  match value with
  | Some v => v
  | None => default
  end.

(** Line 7 *)
Definition TAIGA_HOST (value : option string) : string :=
  PyStr.rstrip_by (fun c => (c =? "/")%char) (getenv value "").

(** Lines 21 to 23: a flag is the comparison of the lowered text with
    "true". *)
Definition flag (value : option string) (default : string) : bool :=
  (PyStr.lower (getenv value default) =? "true")%string.

Definition DRY_RUN (value : option string) : bool := flag value "True".
Definition RESET_STATUSES (value : option string) : bool := flag value "False".
Definition DOWNLOAD_ATTACHMENTS (value : option string) : bool :=
  flag value "False".

(** Lines 30 to 32, for one item; [None] is the [ValueError] of an
    unpacking that does not find two parts. *)
Definition add_item (mapping : option (Dict.dict string)) (item : string)
  : option (Dict.dict string) :=
  match mapping with
  | None => None
  | Some m =>
      if PyStr.mem ":" item then
        match PyStr.split_max ":" item 1 with
        | [jira_name; taiga_name] =>
            Some (Dict.set (PyStr.strip_ws jira_name) (PyStr.strip_ws taiga_name) m)
        | _ => None
        end
      else Some m
  end.

(** Lines 26 to 32, on the text of the variable *)
Definition USER_MAPPING (value : option string) : option (Dict.dict string) :=
  let USER_MAPPING_RAW := getenv value "" in
  if PyStr.truthy USER_MAPPING_RAW
  then fold_left add_item (PyStr.split "," USER_MAPPING_RAW) (Some [])
  else Some [].

(** The format that the comment of line 25 gives: "Jira Name 1:Taiga Name
    1, Jira Name 2:Taiga Name 2". *)
Fixpoint mapping_text (pairs : list (string * string)) : string :=
  match pairs with
  | [] => EmptyString
  | [(j, t)] => j ++ ":" ++ t
  | (j, t) :: pairs' => j ++ ":" ++ t ++ ", " ++ mapping_text pairs'
  end.

End EnvVars.

(** ** A scripted collaborator

    For the examples: a project with the statuses it lists, its roles and
    points, the calls that raise, and the identifier that it hands out
    next.  The list of statuses either stays what it was when the project
    was fetched, or, with [refreshed], follows the creations and
    deletions. *)

Module Mock.

Import Collab.

Record world : Type := World {
  listed : list status;
  the_roles : list Z;
  the_points : list (string * Z);
  raising : call -> bool;
  next_id : Z
}.

Definition relist (refreshed : bool) (c : call) (w : world) : list status :=
  if refreshed then
    match c with
    | AddUserStoryStatus name slug _ _ =>
        (listed w ++ [Status (next_id w) name slug])%list
    | StatusDelete s =>
        filter (fun s' => negb (st_id s' =? st_id s)%Z) (listed w)
    | _ => listed w
    end
  else listed w.

Definition mock_perform (refreshed : bool) (c : call) (w : world)
  : option Z * world :=
  if raising w c then (None, w)
  else
    (Some (next_id w),
     World (relist refreshed c w) (the_roles w) (the_points w)
           (raising w) (next_id w + 1)).

(** [dirs] tells whether a directory can be made, [written] how the
    writing of a body ends. *)
Definition collaborator_on (refreshed dirs : bool) (written : body_end)
  : Collaborator world := {|
  us_statuses := listed;
  roles := the_roles;
  points := the_points;
  perform := mock_perform refreshed;
  makes_dir := fun _ _ => dirs;
  body_written := fun _ _ _ => written
|}.

(** The collaborator of a system on which directories can be made and
    bodies are written whole *)
Definition collaborator (refreshed : bool) : Collaborator world :=
  collaborator_on refreshed true Written.

(** The state at the start of a run *)
Definition start (w : world) : Eff.state world := Eff.State w [] [] [].

End Mock.

(** ** Inputs of the examples *)

Module Examples.

Import Collab.

(** A project without statuses, roles and points, on which no call raises *)
Definition empty_project : Mock.world :=
  Mock.World [] [] [] (fun _ => false) 1.

(** A project that lists the status "To Do" *)
Definition project_with_todo : Mock.world :=
  Mock.World [Status 7 "To Do" "to-do"] [] [] (fun _ => false) 100.

(** A project on which every upload of an attachment raises *)
Definition upload_fails : Mock.world :=
  Mock.World [] [] [] is_story_attach 1.

(** The members of a project: two with an account, one invited only *)
Definition members : list TaigaService.membership :=
  [TaigaService.Membership (Some "Alice Smith") 11 (Some "alice");
   TaigaService.Membership (Some "Bob Stone") 12 None;
   TaigaService.Membership None 13 (Some "")]%string%Z.

Definition taiga : TaigaService.service :=
  TaigaService.Service true
    [("Alice Smith", 11); ("@alice", 11); ("alice", 11); ("Bob Stone", 12)]%string%Z
    [("A. Smith", "Alice Smith")]%string.

(** A service whose cache holds one user *)
Definition taiga_alice : TaigaService.service :=
  TaigaService.Service true [("Alice"%string, 1%Z)] [].

Definition jira : JiraService.service :=
  JiraService.Service (Some "user"%string) (Some "token"%string).

Definition env_run : Migrate.env := Migrate.Env false false true.
Definition env_dry : Migrate.env := Migrate.Env true false true.

(** A row with one attachment and comment fields, one of them empty *)
Definition row_with_attachment : Migrate.row :=
  [("Summary", "Login fails"); ("Status", "To Do"); ("Assignee", "Alice Smith");
   ("Description", "*bold*"); ("Comment", "2024-01-01;alice;first");
   ("Comment.1", "2024-01-02;bob;"); ("Comment.2", "");
   ("Attachment", "2024-01-01;alice;shot.png;https://jira/att/1")]%string.

Definition row_plain : Migrate.row :=
  [("Summary", "Second"); ("Status", "Done"); ("Assignee", "")]%string.

(** The renderer of the examples leaves its input as it is. *)
Definition markdown_id (s : string) : string := s.

Definition stats0 : Migrate.stats := Migrate.Stats 0 0.

End Examples.

(** * Properties *)

(** ** The matcher *)

Module ReFacts.

Import Re.

Lemma star_sound : forall p k s g prev pos res,
  star p k g prev pos s = Some res ->
  exists st', matches (Star p) (MState prev pos s g) st' /\ k st' = Some res.
Proof.
  intros p k s; induction s as [|c s IH]; intros g prev pos res H; simpl in H.
  - eexists; split; [apply M_StarNil | exact H].
  - destruct (p c) eqn:Hp.
    + destruct (star p k g (Some c) (S pos) s) eqn:E.
      * inversion H; subst.
        apply IH in E as (st' & Hm & Hk).
        exists st'; split; [|exact Hk].
        eapply M_StarCons; [reflexivity | exact Hp | exact Hm].
      * eexists; split; [apply M_StarNil | exact H].
    + eexists; split; [apply M_StarNil | exact H].
Qed.

Lemma star_lazy_sound : forall p k s g prev pos res,
  star_lazy p k g prev pos s = Some res ->
  exists st', matches (StarLazy p) (MState prev pos s g) st' /\ k st' = Some res.
Proof.
  intros p k s; induction s as [|c s IH]; intros g prev pos res H; simpl in H.
  - destruct (k (MState prev pos "" g)) eqn:E; [|discriminate].
    eexists; split; [apply M_LazyNil | congruence].
  - destruct (k (MState prev pos (String c s) g)) eqn:E.
    + eexists; split; [apply M_LazyNil | congruence].
    + destruct (p c) eqn:Hp; [|discriminate].
      apply IH in H as (st' & Hm & Hk).
      exists st'; split; [|exact Hk].
      eapply M_LazyCons; [reflexivity | exact Hp | exact Hm].
Qed.

(** Whatever the matcher accepts is a match of the pattern. *)
Lemma rmatch_sound : forall r st k res,
  rmatch r st k = Some res ->
  exists st', matches r st st' /\ k st' = Some res.
Proof.
  induction r; intros st k res H; simpl in H.
  - destruct (m_rest st) as [|d s'] eqn:E; [discriminate|].
    destruct (d =? c) eqn:Ec; [|discriminate].
    apply Ascii.eqb_eq in Ec; subst d.
    eexists; split; [apply M_Lit; exact E | exact H].
  - destruct (m_rest st) as [|d s'] eqn:E; [discriminate|].
    destruct (p d) eqn:Ep; [|discriminate].
    eexists; split; [eapply M_Class; eassumption | exact H].
  - apply IHr1 in H as (st1 & H1 & H).
    apply IHr2 in H as (st2 & H2 & H).
    exists st2; split; [eapply M_Cat; eassumption | exact H].
  - destruct (rmatch r st k) eqn:E.
    + inversion H; subst.
      apply IHr in E as (st' & Hm & Hk).
      exists st'; split; [apply M_OptSome; exact Hm | exact Hk].
    + exists st; split; [apply M_OptNone | exact H].
  - destruct st as [prev pos s g]; simpl in H. apply star_sound; exact H.
  - destruct st as [prev pos s g]; simpl in H. apply star_lazy_sound; exact H.
  - apply IHr in H as (st' & Hm & Hk).
    eexists; split; [apply M_Group; exact Hm | exact Hk].
  - exists st; split.
    + apply M_Bol. destruct (m_prev st) as [d|]; [|left; reflexivity].
      destruct (d =? "010") eqn:Ed; [|discriminate].
      apply Ascii.eqb_eq in Ed; subst; right; reflexivity.
    + destruct (m_prev st) as [d|]; [|exact H].
      destruct (d =? "010"); [exact H | discriminate].
  - exists st; split.
    + apply M_NotBehind. destruct (m_prev st) as [d|]; [|discriminate].
      destruct (d =? c) eqn:Ed; [discriminate|].
      apply Ascii.eqb_neq in Ed. congruence.
    + destruct (m_prev st) as [d|]; [|exact H].
      destruct (d =? c); [discriminate | exact H].
  - exists st; split.
    + apply M_NotAhead. destruct (m_rest st) as [|d s']; [discriminate|].
      destruct (d =? c) eqn:Ed; [discriminate|].
      apply Ascii.eqb_neq in Ed. simpl. congruence.
    + destruct (m_rest st) as [|d s']; [exact H|].
      destruct (d =? c); [discriminate | exact H].
Qed.

Lemma match_at_sound : forall r prev s len g,
  match_at r prev s = Some (len, g) ->
  exists st', matches r (MState prev 0 s None) st' /\ m_g1 st' = g.
Proof.
  unfold match_at; intros r prev s len g H.
  destruct (rmatch r (MState prev 0 s None) Some) as [res|] eqn:E;
    [|discriminate].
  apply rmatch_sound in E as (st' & Hm & Hk).
  inversion Hk; subst. inversion H; subst.
  exists res; split; [exact Hm | reflexivity].
Qed.

(** Every match that the scan reports is a match of the pattern at some
    position. *)
Lemma scan_hits : forall r s prev skip g,
  In (Hit g) (scan r prev skip s) ->
  exists prev' s' st', matches r (MState prev' 0 s' None) st' /\ m_g1 st' = g.
Proof.
  intros r s; induction s as [|c s IH]; intros prev skip g H.
  - destruct skip; simpl in H; [|contradiction].
    destruct (match_at r prev "") as [[len g']|] eqn:E; [|contradiction].
    destruct H as [H|[]]. inversion H; subst.
    apply match_at_sound in E as (st' & Hm & Hg). eauto.
  - destruct skip; simpl in H; [|apply IH in H; exact H].
    destruct (match_at r prev (String c s)) as [[len g']|] eqn:E.
    + destruct H as [H|H].
      * inversion H; subst.
        apply match_at_sound in E as (st' & Hm & Hg). eauto.
      * destruct len.
        -- destruct H as [H|H]; [discriminate | apply IH in H; exact H].
        -- apply IH in H; exact H.
    + destruct H as [H|H]; [discriminate | apply IH in H; exact H].
Qed.

(** A replacement function that accepts every group the pattern can
    capture never makes [re.sub] raise. *)
Lemma render_fn_total : forall repl ps,
  (forall g, In (Hit g) ps -> exists t, repl g = Some t) ->
  exists t, render_fn repl ps = Some t.
Proof.
  intros repl ps; induction ps as [|[c|g] ps IH]; intros H; simpl.
  - eauto.
  - destruct IH as [t Ht]; [intros; apply H; right; assumption|].
    rewrite Ht; simpl; eauto.
  - destruct (H g) as [new Hnew]; [left; reflexivity|].
    rewrite Hnew.
    destruct IH as [t Ht]; [intros; apply H; right; assumption|].
    rewrite Ht; simpl; eauto.
Qed.

Lemma sub_fn_total : forall r repl s,
  (forall st st', matches r st st' -> m_g1 st = None ->
                  exists t, repl (m_g1 st') = Some t) ->
  exists t, sub_fn r repl s = Some t.
Proof.
  intros r repl s H. unfold sub_fn. apply render_fn_total.
  intros g Hg. apply scan_hits in Hg as (prev' & s' & st' & Hm & Hg).
  subst g. eapply H; [exact Hm | reflexivity].
Qed.

(** A pattern without group leaves group 1 as it was. *)
Lemma matches_no_group : forall r st st',
  matches r st st' -> no_group r = true -> m_g1 st' = m_g1 st.
Proof.
  induction 1; simpl; intros Hn; try reflexivity; try discriminate.
  - apply andb_true_iff in Hn as [Hn1 Hn2].
    rewrite IHmatches2, IHmatches1; auto.
  - auto.
  - rewrite IHmatches; auto.
  - rewrite IHmatches; auto.
Qed.

End ReFacts.

(** ** The markup converter *)

Module MarkupFacts.

Import Re ReFacts JiraService.

Ltac invert_matches :=
  repeat match goal with
  | H : matches (Cat _ _) _ _ |- _ => inversion H; subst; clear H
  | H : matches (Lit _) _ _ |- _ => inversion H; subst; clear H
  | H : matches (Class _) _ _ |- _ => inversion H; subst; clear H
  | H : matches (Group _) _ _ |- _ => inversion H; subst; clear H
  | H : matches Bol _ _ |- _ => inversion H; subst; clear H
  end.

Lemma split_not_nil : forall sep s, PyStr.split sep s <> [].
Proof.
  intros sep s; destruct s as [|c s]; simpl; [discriminate|].
  destruct (c =? sep); [discriminate|].
  destruct (PyStr.split sep s); discriminate.
Qed.

(** [_fix_link] indexes [content] within its bounds. *)
Lemma fix_link_total : forall inner, exists t, fix_link (Some inner) = Some t.
Proof.
  intros inner; unfold fix_link.
  destruct ((inner =? " ")%string || (PyStr.lower inner =? "x")%string);
    [eauto|].
  pose proof (split_not_nil "|" inner) as Hne.
  destruct (PyStr.split "|" inner) as [|c0 [|c1 rest]]; simpl; eauto.
  contradiction.
Qed.

Lemma link_group : forall st st',
  matches re_link st st' -> exists inner, m_g1 st' = Some inner.
Proof.
  unfold re_link, Plus; intros st st' H. invert_matches.
  simpl. eauto.
Qed.

Lemma bullets_group : forall st st',
  matches re_bullets st st' -> exists stars, m_g1 st' = Some stars.
Proof.
  unfold re_bullets, Plus; intros st st' H. invert_matches.
  match goal with
  | H : matches (Star PyStr.is_space) _ _ |- _ =>
      apply matches_no_group in H; [rewrite H | reflexivity]
  end.
  simpl. eauto.
Qed.

Lemma substring_one : forall n d s, substring 0 (S n - n) (String d s) = String d "".
Proof.
  intros n d s. replace (S n - n) with 1 by lia.
  simpl. destruct s; reflexivity.
Qed.

Lemma heading_group : forall st st',
  matches re_heading st st' ->
  exists d, m_g1 st' = Some (String d "") /\ one_of "123456" d = true.
Proof.
  unfold re_heading, Plus; intros st st' H. invert_matches.
  match goal with
  | H : matches (Star PyStr.is_space) _ _ |- _ =>
      apply matches_no_group in H; [rewrite H | reflexivity]
  end.
  unfold advance, set_g1 in *; cbn [m_g1 m_pos m_rest m_prev] in *.
  subst.
  match goal with
  | Hd : one_of _ ?d = true |- _ =>
      exists d; split; [rewrite substring_one; reflexivity | exact Hd]
  end.
Qed.

Lemma heading_repl_digit : forall d,
  one_of "123456" d = true -> exists t, heading_repl (Some (String d "")) = Some t.
Proof.
  unfold one_of; simpl; intros d H.
  repeat (apply orb_true_iff in H as [H|H]); try discriminate;
    apply Ascii.eqb_eq in H; subst d; vm_compute; eauto.
Qed.

(** No pass of the converter raises. *)
Lemma convert_markup_total : forall body, exists t, convert_markup body = Some t.
Proof.
  intros body; unfold convert_markup.
  destruct (negb (PyStr.truthy body)); [eauto|].
  set (b1 := sub re_image _ body).
  destruct (sub_fn_total re_link fix_link b1) as [b2 H2].
  { intros st st' Hm _. apply link_group in Hm as [inner Hi].
    rewrite Hi. apply fix_link_total. }
  rewrite H2; simpl.
  destruct (sub_fn_total re_bullets bullet_repl b2) as [b3 H3].
  { intros st st' Hm _. apply bullets_group in Hm as [stars Hs].
    rewrite Hs. simpl. eauto. }
  rewrite H3; simpl.
  set (b4 := sub re_numbered _ b3).
  destruct (sub_fn_total re_heading heading_repl b4) as [b5 H5].
  { intros st st' Hm _. apply heading_group in Hm as (d & Hd & Hin).
    rewrite Hd. apply heading_repl_digit; exact Hin. }
  rewrite H5; simpl. eauto.
Qed.

Lemma split_max_length : forall sep s n,
  List.length (PyStr.split_max sep s n) <= S n.
Proof.
  intros sep s; induction s as [|c s IH]; intros [|m]; simpl; try lia.
  destruct (c =? sep); simpl.
  - specialize (IH m). lia.
  - specialize (IH (S m)).
    destruct (PyStr.split_max sep s (S m)); simpl in *; lia.
Qed.

(** [parse_comment] never raises: the unpacking at line 163 always finds
    three parts. *)
Lemma parse_comment_total : forall raw, exists t, parse_comment raw = Some t.
Proof.
  intros raw; unfold parse_comment.
  destruct (negb (PyStr.truthy raw)); [eauto|].
  pose proof (split_max_length ";" raw 2) as Hlen.
  destruct (PyStr.split_max ";" raw 2) as [|a [|b [|c [|d l]]]]; simpl in *;
    try apply convert_markup_total.
  lia.
Qed.

(** C1: the converter maps the empty string to the empty string and raises
    on no string, and it reproduces the examples: "*bold*" becomes
    "**bold**"; "* not bold" keeps its bullet and gets no bold; "h2. Title"
    becomes "## Title"; "[Confluence|https://x]" becomes
    "[Confluence](https://x)"; "[ ]" and "[x]" stay as they are; "{{code}}"
    becomes "`code`"; "(/)" becomes the check mark. *)
Theorem convert_markup_examples :
  convert_markup "" = Some ""%string
  /\ (forall body, exists t, convert_markup body = Some t)
  /\ convert_markup "*bold*" = Some "**bold**"%string
  /\ convert_markup "* not bold" = Some "* not bold"%string
  /\ convert_markup "h2. Title" = Some "## Title"%string
  /\ convert_markup "[Confluence|https://x]" = Some "[Confluence](https://x)"%string
  /\ convert_markup "[ ]" = Some "[ ]"%string
  /\ convert_markup "[x]" = Some "[x]"%string
  /\ convert_markup "{{code}}" = Some "`code`"%string
  /\ convert_markup "(/)" = Some "✅"%string.
Proof.
  split; [reflexivity|].
  split; [exact convert_markup_total|].
  repeat split; vm_compute; reflexivity.
Qed.

End MarkupFacts.

(** ** The status key *)

Module SlugFacts.

Import Re ReFacts TaigaService.

Lemma star_longest : forall p s g prev pos,
  exists st, star p Some g prev pos s = Some st
             /\ m_pos st = pos + run_length p s /\ m_g1 st = g.
Proof.
  intros p s; induction s as [|c s IH]; intros g prev pos; simpl.
  - eexists; split; [reflexivity|]. simpl; split; [lia | reflexivity].
  - destruct (p c).
    + destruct (IH g (Some c) (S pos)) as (st & E & Hpos & Hg).
      rewrite E. exists st. repeat split; [lia | exact Hg].
    + eexists; split; [reflexivity|]. simpl; split; [lia | reflexivity].
Qed.

(** A greedy [[...]+] takes the whole run in front of it. *)
Lemma match_at_plus : forall p prev s,
  match_at (Plus p) prev s =
  match s with
  | String c s' => if p c then Some (S (run_length p s'), None) else None
  | EmptyString => None
  end.
Proof.
  intros p prev s; unfold match_at, Plus; simpl.
  destruct s as [|c s']; [reflexivity|]. simpl.
  destruct (p c); [|reflexivity].
  destruct (star_longest p s' None (Some c) 1) as (st & E & Hpos & Hg).
  unfold advance; simpl. rewrite E, Hpos, Hg. reflexivity.
Qed.

Lemma scan_plus : forall p new s,
  (forall prev, render (const new) (scan (Plus p) prev 0 s)
                = collapse_runs p new false s) /\
  (forall prev, render (const new) (scan (Plus p) prev (run_length p s) s)
                = collapse_runs p new true s).
Proof.
  intros p new s; induction s as [|c s [IH0 IH1]].
  - split; intros prev; cbn [run_length scan]; rewrite match_at_plus;
      reflexivity.
  - assert (H0 : forall prev,
              render (const new) (scan (Plus p) prev 0 (String c s))
              = collapse_runs p new false (String c s)).
    { intros prev. cbn [scan]. rewrite match_at_plus. simpl.
      destruct (p c); simpl.
      - unfold const at 1. rewrite IH1. reflexivity.
      - rewrite IH0. reflexivity. }
    split; [exact H0|].
    intros prev. specialize (H0 prev). simpl run_length.
    simpl collapse_runs in *. destruct (p c).
    + cbn [scan]. apply IH1.
    + exact H0.
Qed.

(** Line 51, read directly. *)
Lemma sub_plus_const : forall p new s,
  sub (Plus p) (const new) s = collapse_runs p new false s.
Proof. intros; unfold sub; apply scan_plus. Qed.

Lemma first_lstrip : forall p s c,
  PyStr.first (PyStr.lstrip_by p s) = Some c -> p c = false.
Proof.
  intros p s c; induction s as [|a s IH]; simpl; [discriminate|].
  destruct (p a) eqn:Ea; [exact IH|].
  simpl; intros H; inversion H; subst; exact Ea.
Qed.

Lemma lstrip_fix : forall p s,
  (forall c, PyStr.first s = Some c -> p c = false) -> PyStr.lstrip_by p s = s.
Proof.
  intros p [|a s] H; simpl; [reflexivity|].
  rewrite (H a eq_refl). reflexivity.
Qed.

Lemma last_cons : forall a s,
  PyStr.last (String a s) = match s with EmptyString => Some a | _ => PyStr.last s end.
Proof. intros a [|b t]; reflexivity. Qed.

Lemma last_rstrip : forall p s c,
  PyStr.last (PyStr.rstrip_by p s) = Some c -> p c = false.
Proof.
  intros p s c; induction s as [|a s IH]; simpl; [discriminate|].
  destruct (PyStr.rstrip_by p s) as [|b t] eqn:E.
  - destruct (p a) eqn:Ea; simpl; [discriminate|].
    intros H; inversion H; subst; exact Ea.
  - rewrite last_cons. exact IH.
Qed.

Lemma rstrip_fix : forall p s,
  (forall c, PyStr.last s = Some c -> p c = false) -> PyStr.rstrip_by p s = s.
Proof.
  intros p s; induction s as [|a s IH]; intros H; simpl; [reflexivity|].
  rewrite last_cons in H. destruct s as [|b t].
  - simpl. rewrite (H a eq_refl). reflexivity.
  - rewrite IH; [reflexivity | exact H].
Qed.

Lemma first_rstrip : forall p s c,
  PyStr.first (PyStr.rstrip_by p s) = Some c -> PyStr.first s = Some c.
Proof.
  intros p [|a s] c; simpl; [discriminate|].
  destruct (PyStr.rstrip_by p s); [destruct (p a)|]; simpl; congruence.
Qed.

(** Stripping twice is stripping once. *)
Lemma strip_strip : forall chars s,
  PyStr.strip chars (PyStr.strip chars s) = PyStr.strip chars s.
Proof.
  intros chars s; unfold PyStr.strip.
  rewrite (lstrip_fix _ (PyStr.rstrip_by _ _)).
  - apply rstrip_fix. intros c; apply last_rstrip.
  - intros c H. apply first_rstrip in H. apply first_lstrip in H. exact H.
Qed.

Lemma mem_hyphen : forall c, PyStr.mem c "-" = (c =? "-").
Proof. intros c; simpl. apply orb_false_r. Qed.

Lemma slug_char_hyphen : forall c, slug_char c = true -> (c =? "-") = false.
Proof.
  intros c H. destruct (c =? "-") eqn:E; [|reflexivity].
  apply Ascii.eqb_eq in E; subst c. discriminate.
Qed.

Lemma slug_char_lower : forall c, slug_char c = true -> PyStr.lower_char c = c.
Proof.
  intros [[] [] [] [] [] [] [] []]; vm_compute; intros H;
    first [reflexivity | discriminate].
Qed.

Lemma non_alnum_lower : forall c,
  alnum c = false -> non_slug (PyStr.lower_char c) = true.
Proof.
  intros [[] [] [] [] [] [] [] []]; vm_compute; intros H;
    first [reflexivity | discriminate].
Qed.

Ltac case_slug c E :=
  let En := fresh "En" in
  destruct (slug_char c) eqn:E;
  [ assert (En : non_slug c = false) by (unfold non_slug; rewrite E; reflexivity)
  | assert (En : non_slug c = true) by (unfold non_slug; rewrite E; reflexivity) ];
  rewrite ?En.

Lemma slug_form_weaken : forall s,
  slug_form true s = true -> slug_form false s = true.
Proof.
  intros [|c s]; simpl; [reflexivity|].
  destruct (slug_char c); [auto|].
  rewrite andb_false_r; discriminate.
Qed.

(** The substitution produces the shape of a key. *)
Lemma collapse_form : forall s,
  slug_form true (collapse_runs non_slug "-" true s) = true
  /\ slug_form false (collapse_runs non_slug "-" false s) = true.
Proof.
  induction s as [|c s [IHt IHf]]; simpl; [split; reflexivity|].
  case_slug c E; simpl.
  - rewrite E. split; exact IHf.
  - split; [exact IHt | exact IHt].
Qed.

(** On the shape of a key, the substitution and [lower] change nothing. *)
Lemma form_collapse_fix : forall s b,
  slug_form b s = true -> collapse_runs non_slug "-" b s = s.
Proof.
  induction s as [|c s IH]; intros b H; simpl in *; [reflexivity|].
  case_slug c E; simpl.
  - rewrite IH; [reflexivity | exact H].
  - apply andb_true_iff in H as [H Hs].
    apply andb_true_iff in H as [Hc Hb].
    apply Ascii.eqb_eq in Hc; subst c.
    destruct b; [discriminate|].
    rewrite IH; [reflexivity | exact Hs].
Qed.

Lemma form_lower_fix : forall s b,
  slug_form b s = true -> PyStr.lower s = s.
Proof.
  induction s as [|c s IH]; intros b H; simpl in *; [reflexivity|].
  destruct (slug_char c) eqn:E.
  - rewrite slug_char_lower by exact E. erewrite IH; eauto.
  - apply andb_true_iff in H as [H Hs].
    apply andb_true_iff in H as [Hc Hb].
    apply Ascii.eqb_eq in Hc; subst c.
    erewrite IH; eauto.
Qed.

Lemma form_all : forall s b,
  slug_form b s = true -> PyStr.all key_char s = true.
Proof.
  induction s as [|c s IH]; intros b H; simpl in *; [reflexivity|].
  unfold key_char at 1. destruct (slug_char c) eqn:E; simpl.
  - eapply IH; eauto.
  - apply andb_true_iff in H as [H Hs].
    apply andb_true_iff in H as [Hc Hb].
    rewrite Hc. eapply IH; eauto.
Qed.

Lemma form_lstrip : forall s b,
  slug_form b s = true ->
  slug_form true (PyStr.lstrip_by (fun c => PyStr.mem c "-") s) = true.
Proof.
  induction s as [|c s IH]; intros b H; simpl in *; [reflexivity|].
  rewrite orb_false_r.
  destruct (slug_char c) eqn:E.
  - rewrite (slug_char_hyphen c E). simpl. rewrite E. exact H.
  - apply andb_true_iff in H as [H Hs].
    apply andb_true_iff in H as [Hc Hb].
    rewrite Hc. eapply IH; eauto.
Qed.

Lemma form_rstrip : forall s b,
  slug_form b s = true ->
  slug_form b (PyStr.rstrip_by (fun c => PyStr.mem c "-") s) = true.
Proof.
  induction s as [|c s IH]; intros b H; simpl in *; [reflexivity|].
  rewrite orb_false_r.
  destruct (slug_char c) eqn:E.
  - apply IH in H.
    destruct (PyStr.rstrip_by _ s) as [|d t].
    + rewrite (slug_char_hyphen c E). simpl. rewrite E. reflexivity.
    + simpl. rewrite E. exact H.
  - apply andb_true_iff in H as [H Hs].
    apply andb_true_iff in H as [Hc Hb].
    apply IH in Hs.
    destruct (PyStr.rstrip_by _ s) as [|d t].
    + rewrite Hc. reflexivity.
    + cbn [slug_form]. rewrite E, Hc, Hb. exact Hs.
Qed.

Lemma slugify_collapse : forall text,
  slugify text =
  PyStr.strip "-" (collapse_runs non_slug "-" false (PyStr.lower text)).
Proof.
  intros; unfold slugify, re_non_slug. rewrite sub_plus_const. reflexivity.
Qed.

Lemma slugify_form : forall text, slug_form true (slugify text) = true.
Proof.
  intros text; rewrite slugify_collapse; unfold PyStr.strip.
  apply form_rstrip. eapply form_lstrip.
  apply (collapse_form (PyStr.lower text)).
Qed.

Lemma collapse_all_runs : forall s,
  PyStr.all non_slug s = true ->
  collapse_runs non_slug "-" true s = EmptyString
  /\ (collapse_runs non_slug "-" false s = EmptyString \/ collapse_runs non_slug "-" false s = "-"%string).
Proof.
  induction s as [|c s IH]; simpl; intros H; [auto|].
  apply andb_true_iff in H as [Hc Hs]. rewrite Hc.
  destruct (IH Hs) as [Ht _]. rewrite Ht. auto.
Qed.

Lemma lower_non_alnum : forall s,
  PyStr.all (fun c => negb (alnum c)) s = true ->
  PyStr.all non_slug (PyStr.lower s) = true.
Proof.
  induction s as [|c s IH]; simpl; intros H; [reflexivity|].
  apply andb_true_iff in H as [Hc Hs].
  apply negb_true_iff in Hc.
  rewrite (non_alnum_lower c Hc). simpl. auto.
Qed.

(** C9: for every string, the key of [slugify] has only characters of
    a-z, 0-9 and the hyphen, neither begins nor ends with a hyphen, and is
    its own key; a string without letter and digit has the empty key: a
    string without a letter or digit of ASCII and without the two letters
    outside ASCII that [str.lower] turns into text with an ASCII letter,
    the Kelvin sign and the capital I with a dot.
    ([slugify] is a function: the same input gives the same key.) *)
Theorem slugify_key : forall s,
  PyStr.all key_char (slugify s) = true
  /\ PyStr.first (slugify s) <> Some "-"
  /\ PyStr.last (slugify s) <> Some "-"
  /\ slugify (slugify s) = slugify s
  /\ (PyStr.all (fun c => negb (alnum c)) s = true ->
      PyStr.contains PyStr.kelvin_sign s = false ->
      PyStr.contains PyStr.capital_i_dot s = false ->
      slugify s = EmptyString).
Proof.
  intros s. pose proof (slugify_form s) as Hform.
  split; [eapply form_all; exact Hform|].
  split.
  { rewrite slugify_collapse. unfold PyStr.strip. intros H.
    apply first_rstrip in H. apply first_lstrip in H. discriminate. }
  split.
  { rewrite slugify_collapse. unfold PyStr.strip. intros H.
    apply last_rstrip in H. discriminate. }
  split.
  { rewrite (slugify_collapse (slugify s)).
    rewrite (form_lower_fix _ _ Hform).
    rewrite (form_collapse_fix _ _ (slug_form_weaken _ Hform)).
    rewrite slugify_collapse. apply strip_strip. }
  intros H _ _. rewrite slugify_collapse.
  apply lower_non_alnum in H. apply collapse_all_runs in H as [_ [H|H]];
    rewrite H; reflexivity.
Qed.

(** Witness of C9, on a string of punctuation and spaces *)
Lemma slugify_key_witness :
  PyStr.all (fun c => negb (alnum c)) "?! -- _ !?" = true
  /\ PyStr.contains PyStr.kelvin_sign "?! -- _ !?" = false
  /\ PyStr.contains PyStr.capital_i_dot "?! -- _ !?" = false
  /\ slugify "?! -- _ !?" = EmptyString.
Proof.
  split; [reflexivity|]. split; [reflexivity|]. split; [reflexivity|].
  apply (slugify_key "?! -- _ !?"); reflexivity.
Defined.

End SlugFacts.

(** ** Calls and exceptions *)

Module EffFacts.

Import Collab Eff.

Section WithCollaborator.

Context {W : Type} {collab : Collaborator W}.

Lemma count_raised_app : forall l1 l2,
  count_raised (l1 ++ l2) = count_raised l1 + count_raised l2.
Proof.
  intros; unfold count_raised. rewrite filter_app, length_app. reflexivity.
Qed.

Lemma traced_ret : forall (A : Type) P (a : A), traced P (ret a : M W A).
Proof.
  intros A P a st; exists []; simpl. rewrite app_nil_r. auto.
Qed.

Lemma traced_bind : forall (A B : Type) P (m : M W A) (f : A -> M W B),
  traced P m -> (forall a, traced P (f a)) -> traced P (bind m f).
Proof.
  intros A B P m f Hm Hf st. unfold bind.
  destruct (Hm st) as (new1 & L1 & F1 & C1).
  destruct (m st) as [[a|] st1]; simpl in *.
  - destruct (Hf a st1) as (new2 & L2 & F2 & C2).
    exists (new1 ++ new2)%list. rewrite L2, L1, app_assoc.
    split; [reflexivity|]. split.
    + rewrite forallb_app, F1, F2; reflexivity.
    + rewrite count_raised_app, C1, C2; reflexivity.
  - exists new1; auto.
Qed.

Lemma traced_invoke : forall P c,
  P c = true -> is_session_get c = false -> traced P (invoke c).
Proof.
  intros P c HP Hc st. unfold invoke, bind, ask.
  destruct (perform c (world st)) as [[v|] w']; simpl;
    (eexists; split; [reflexivity|]); simpl; rewrite HP;
    unfold count_raised; simpl; unfold raised_entry; simpl; rewrite Hc; auto.
Qed.

Lemma traced_for_each : forall (A : Type) P (body : A -> M W unit) xs,
  (forall x, traced P (body x)) -> traced P (for_each xs body).
Proof.
  intros A P body xs H; induction xs as [|x xs IH]; simpl.
  - apply traced_ret.
  - apply traced_bind; [apply H | intros _; exact IH].
Qed.

(** [except Exception as e: ...; raise e] *)
Lemma traced_reraise : forall (A : Type) P (m : M W A),
  traced P m -> traced P (try_except m raise).
Proof.
  intros A P m H st. destruct (H st) as (new & L & F & C).
  exists new. unfold try_except, raise.
  destruct (m st) as [[a|] st1]; simpl in *; auto.
Qed.

Lemma traced_weaken : forall (A : Type) (P Q : call -> bool) (m : M W A),
  (forall c, P c = true -> Q c = true) -> traced P m -> traced Q m.
Proof.
  intros A P Q m HPQ H st. destruct (H st) as (new & L & F & C).
  exists new. repeat split; auto.
  rewrite forallb_forall in *. intros en Hen. apply HPQ, F, Hen.
Qed.

Lemma ask_after : forall c (st : state W),
  ask c st = (Ok (fst (perform c (world st))), after c st).
Proof.
  intros; unfold ask, after. destruct (perform c (world st)); reflexivity.
Qed.

Lemma invoke_after : forall c (st : state W),
  invoke c st =
  (match fst (perform c (world st)) with Some v => Ok v | None => Raised end,
   after c st).
Proof.
  intros; unfold invoke, bind. rewrite ask_after.
  destruct (fst (perform c (world st))); reflexivity.
Qed.

(** A call whose exception is caught and dropped. *)
Lemma try_call : forall c (st : state W),
  try_except (bind (invoke c) (fun _ => ret tt)) (ret tt) st = (Ok tt, after c st).
Proof.
  intros; unfold try_except, bind. rewrite invoke_after.
  destruct (fst (perform c (world st))); reflexivity.
Qed.

Lemma traced_for_each_in : forall (A : Type) P (body : A -> M W unit) xs,
  (forall x, In x xs -> traced P (body x)) -> traced P (for_each xs body).
Proof.
  intros A P body xs; induction xs as [|x xs IH]; intros H; simpl.
  - apply traced_ret.
  - apply traced_bind; [apply H; left; reflexivity|].
    intros _; apply IH. intros y Hy; apply H; right; exact Hy.
Qed.

Lemma traced_logged : forall (A : Type) P (m : M W A), traced P m -> logged P m.
Proof.
  intros A P m H st. destruct (H st) as (new & L & F & C).
  exists new. repeat split; auto. rewrite C. reflexivity.
Qed.

Lemma logged_bind : forall (A B : Type) P (m : M W A) (f : A -> M W B),
  logged P m -> (forall a, logged P (f a)) -> logged P (bind m f).
Proof.
  intros A B P m f Hm Hf st. unfold bind.
  destruct (Hm st) as (new1 & L1 & F1 & C1 & E1).
  destruct (m st) as [[a|] st1]; simpl in *.
  - destruct (Hf a st1) as (new2 & L2 & F2 & C2 & E2).
    exists (new1 ++ new2)%list. rewrite L2, L1, app_assoc.
    split; [reflexivity|]. split; [rewrite forallb_app, F1, F2; reflexivity|].
    split.
    + rewrite count_raised_app. lia.
    + intros Hd. rewrite count_raised_app, (E1 Hd), (E2 Hd). reflexivity.
  - exists new1; auto.
Qed.

Lemma logged_for_each : forall (A : Type) P (body : A -> M W unit) xs,
  (forall x, logged P (body x)) -> logged P (for_each xs body).
Proof.
  intros A P body xs H; induction xs as [|x xs IH]; simpl.
  - apply traced_logged, traced_ret.
  - apply logged_bind; [apply H | intros _; exact IH].
Qed.

End WithCollaborator.

End EffFacts.

(** ** Status reconciliation *)

Module SyncFacts.

Import Collab Eff EffFacts TaigaService.

Section WithCollaborator.

Context {W : Type} {collab : Collaborator W}.

Lemma find_none_intro : forall (A : Type) (f : A -> bool) l,
  (forall x, In x l -> f x = false) -> find f l = None.
Proof.
  intros A f l; induction l as [|a l IH]; intros H; simpl; [reflexivity|].
  rewrite (H a (or_introl eq_refl)). apply IH. intros x Hx; apply H; right; exact Hx.
Qed.

(** One turn of the loop of [sync_statuses]. *)
Lemma sync_step : forall i name names m (st : state W),
  sync_loop i (name :: names) m st =
  match find (fun s => (st_slug s =? slugify name)%string)
             (us_statuses (world st)) with
  | Some s => sync_loop (S i) names (Dict.set (slugify name) (st_id s) m) st
  | None =>
      sync_loop (S i) names
        (match fst (perform (status_call i name) (world st)) with
         | Some id => Dict.set (slugify name) id m
         | None => m
         end)
        (after (status_call i name) st)
  end.
Proof.
  intros. cbn [sync_loop]. unfold bind at 1, get_world.
  destruct (find _ (us_statuses (world st))) as [s|].
  - reflexivity.
  - unfold bind at 1, try_except, bind at 1. rewrite invoke_after.
    fold (status_call i name).
    destruct (fst (perform (status_call i name) (world st))); reflexivity.
Qed.

(** The deletions of a reset: one attempt for each status listed, in
    order, whatever the answers. *)
Lemma delete_loop : forall l (st : state W),
  exists st' dels,
    for_each l (fun status =>
      try_except (bind (invoke (StatusDelete status)) (fun _ => ret tt)) (ret tt)) st
    = (Ok tt, st')
    /\ log st' = (log st ++ dels)%list
    /\ map fst dels = map StatusDelete l
    /\ files st' = files st
    /\ statuses_cache st' = statuses_cache st.
Proof.
  induction l as [|s l IH]; intros st.
  - exists st, []. simpl. rewrite app_nil_r. auto.
  - destruct (IH (after (StatusDelete s) st)) as (st' & dels & E & L & Mp & F & Ca).
    exists st', ((StatusDelete s, fst (perform (StatusDelete s) (world st))) :: dels).
    cbn [for_each]. unfold bind at 1. rewrite try_call, E.
    split; [reflexivity|]. rewrite L, F, Ca. unfold after; simpl.
    rewrite <- app_assoc, Mp. auto.
Qed.

(** Every call of the loop is the creation call of a name of the input,
    with the index of that name. *)
Lemma sync_loop_log : forall names i m (st : state W),
  exists m' st' adds,
    sync_loop i names m st = (Ok m', st')
    /\ log st' = (log st ++ adds)%list
    /\ (forall en, In en adds ->
          exists j name, nth_error names j = Some name
                         /\ fst en = status_call (i + j) name)
    /\ files st' = files st.
Proof.
  induction names as [|name names IH]; intros i m st.
  - exists m, st, []. simpl. rewrite app_nil_r. repeat split; auto.
    intros en [].
  - rewrite sync_step.
    destruct (find _ (us_statuses (world st))) as [s|].
    + destruct (IH (S i) (Dict.set (slugify name) (st_id s) m) st)
        as (m' & st' & adds & E & L & HIn & F).
      exists m', st', adds. repeat split; auto.
      intros en Hen. destruct (HIn en Hen) as (j & n & Hj & Hc).
      exists (S j), n. split; [exact Hj|]. rewrite Hc. f_equal; lia.
    + match goal with |- context [sync_loop (S i) names ?m1 ?st1] =>
        destruct (IH (S i) m1 st1) as (m' & st' & adds & E & L & HIn & F)
      end.
      exists m', st', ((status_call i name, fst (perform (status_call i name) (world st))) :: adds).
      split; [exact E|]. split; [|split].
      * rewrite L. unfold after; simpl. rewrite <- app_assoc. reflexivity.
      * intros en [Hen|Hen].
        -- subst en. exists 0, name. split; [reflexivity|].
           simpl. f_equal; lia.
        -- destruct (HIn en Hen) as (j & n & Hj & Hc).
           exists (S j), n. split; [exact Hj|]. rewrite Hc. f_equal; lia.
      * rewrite F. reflexivity.
Qed.

Lemma dict_set_keys : forall (V : Type) k (v : V) d x,
  In x (Dict.keys (Dict.set k v d)) <-> x = k \/ In x (Dict.keys d).
Proof.
  intros V k v d x; induction d as [|[k' v'] d IH]; simpl.
  - intuition congruence.
  - destruct (k' =? k)%string eqn:E; simpl.
    + apply String.eqb_eq in E; subst. intuition congruence.
    + rewrite IH. intuition congruence.
Qed.

(** A dictionary has one entry for a key. *)
Lemma dict_set_nodup : forall (V : Type) k (v : V) d,
  NoDup (Dict.keys d) -> NoDup (Dict.keys (Dict.set k v d)).
Proof.
  intros V k v d; induction d as [|[k' v'] d IH]; simpl; intros H.
  - constructor; [intros [] | constructor].
  - inversion H as [|? ? Hn Hd]; subst.
    destruct (k' =? k)%string eqn:E; simpl.
    + apply String.eqb_eq in E; subst. constructor; assumption.
    + constructor; [|apply IH; exact Hd].
      intros Hin. apply (dict_set_keys V k v d k') in Hin as [Hin|Hin].
      * subst. rewrite String.eqb_refl in E. discriminate.
      * exact (Hn Hin).
Qed.

Lemma sync_loop_keys : forall names i m (st : state W) m' st',
  NoDup (Dict.keys m) ->
  sync_loop i names m st = (Ok m', st') -> NoDup (Dict.keys m').
Proof.
  induction names as [|name names IH]; intros i m st m' st' Hm H.
  - simpl in H. inversion H; subst; exact Hm.
  - rewrite sync_step in H.
    destruct (find _ (us_statuses (world st))) as [s|].
    + eapply IH; [|exact H]. apply dict_set_nodup; exact Hm.
    + eapply IH; [|exact H].
      destruct (fst (perform _ (world st))); [apply dict_set_nodup|]; exact Hm.
Qed.

(** On a project that lists none of the slugs of the input, and for names
    of different slugs, every name is created, in the order of the input. *)
Lemma sync_loop_fresh : listing_sound W ->
  forall names i m (st : state W),
    (forall name s, In name names -> In s (us_statuses (world st)) ->
                    st_slug s <> slugify name) ->
    NoDup (map slugify names) ->
    exists m' st' adds,
      sync_loop i names m st = (Ok m', st')
      /\ log st' = (log st ++ adds)%list
      /\ map fst adds = status_calls i names.
Proof.
  intros Hsound names; induction names as [|name names IH]; intros i m st Hfree Hnd.
  - exists m, st, []. simpl. rewrite app_nil_r. auto.
  - rewrite sync_step. rewrite find_none_intro.
    2:{ intros s Hs. apply String.eqb_neq. apply Hfree; [left; reflexivity | exact Hs]. }
    inversion Hnd as [|? ? Hnotin Hnd']; subst.
    match goal with |- context [sync_loop (S i) names ?m1 ?st1] =>
      destruct (IH (S i) m1 st1) as (m' & st' & adds & E & L & Mp)
    end.
    + intros n s Hn Hs. unfold after in Hs; cbn [world] in Hs.
      apply Hsound in Hs as [Hs|(name' & cl & col & Hc)].
      * apply Hfree; [right; exact Hn | exact Hs].
      * unfold status_call in Hc. injection Hc as _ Hslug _ _.
        intros Heq. apply Hnotin. rewrite Hslug, Heq.
        apply in_map; exact Hn.
    + exact Hnd'.
    + exists m', st', ((status_call i name, fst (perform (status_call i name) (world st))) :: adds).
      split; [exact E|]. split.
      * rewrite L. unfold after; simpl. rewrite <- app_assoc. reflexivity.
      * simpl. rewrite Mp. reflexivity.
Qed.

(** When the list of the project shows what is created, no slug is created
    twice, and no slug that the project lists is created. *)
Lemma sync_loop_live : listing_live W ->
  forall names i m (st : state W),
    exists m' st' adds,
      sync_loop i names m st = (Ok m', st')
      /\ log st' = (log st ++ adds)%list
      /\ NoDup (slugs_created adds)
      /\ (forall slug s, In slug (slugs_created adds) ->
                         In s (us_statuses (world st)) -> st_slug s <> slug).
Proof.
  intros [Hshow Hkeep] names; induction names as [|name names IH]; intros i m st.
  - exists m, st, []. simpl. rewrite app_nil_r. repeat split; auto.
    constructor.
  - rewrite sync_step.
    destruct (find _ (us_statuses (world st))) as [s0|] eqn:Ef.
    + apply IH.
    + match goal with |- context [sync_loop (S i) names ?m1 ?st1] =>
        destruct (IH (S i) m1 st1) as (m' & st' & adds & E & L & Hnd & Hfree)
      end.
      exists m', st', ((status_call i name, fst (perform (status_call i name) (world st))) :: adds).
      split; [exact E|]. split.
      { rewrite L. unfold after; simpl. rewrite <- app_assoc. reflexivity. }
      assert (Hold : forall slug s, In slug (slugs_created adds) ->
                       In s (us_statuses (world st)) -> st_slug s <> slug).
      { intros slug s Hslug Hs. apply (Hfree slug s Hslug).
        unfold after; cbn [world]. apply Hkeep; [reflexivity | exact Hs]. }
      unfold slugs_created; cbn [flat_map]. fold (slugs_created adds).
      unfold status_call at 1 3.
      destruct (fst (perform (status_call i name) (world st))) as [id|] eqn:Er.
      * split.
        -- simpl. constructor; [|exact Hnd].
           intros Hin.
           destruct (Hshow _ _ _ _ _ _ Er) as (s & Hs & Hslug).
           exact (Hfree (slugify name) s Hin Hs Hslug).
        -- intros slug s [Heq|Hin] Hs.
           ++ subst slug. pose proof (find_none _ _ Ef s Hs) as Hf.
              simpl in Hf. apply String.eqb_neq in Hf. exact Hf.
           ++ exact (Hold slug s Hin Hs).
      * split; [exact Hnd | exact Hold].
Qed.

Lemma delete_statuses_run : forall (st : state W),
  exists st1 dels,
    delete_statuses st = (Ok tt, st1)
    /\ log st1 = (log st ++ dels)%list
    /\ map fst dels = map StatusDelete (us_statuses (world st)).
Proof.
  intros st.
  destruct (delete_loop (us_statuses (world st)) st) as (st1 & dels & E & L & Mp & _).
  exists st1, dels. split; [|auto].
  unfold delete_statuses, bind at 1, get_world. exact E.
Qed.

(** The run of [sync_statuses] without [dry_run], on a connected project:
    the deletions when [reset] is set, then the loop. *)
Lemma sync_statuses_run : forall self csv_statuses (reset : bool) (st : state W),
  project_connected self = true ->
  exists st1 dels status_map st2,
    (if reset then delete_statuses else ret tt) st = (Ok tt, st1)
    /\ log st1 = (log st ++ dels)%list
    /\ map fst dels = (if reset then map StatusDelete (us_statuses (world st)) else [])
    /\ sync_loop 0 csv_statuses [] st1 = (Ok status_map, st2)
    /\ sync_statuses self csv_statuses reset false st
       = (Ok status_map, State (world st2) (log st2) (files st2) status_map).
Proof.
  intros self csv reset st Hc.
  assert (Hd : exists st1 dels,
             (if reset then delete_statuses else ret tt) st = (Ok tt, st1)
             /\ log st1 = (log st ++ dels)%list
             /\ map fst dels = (if reset then map StatusDelete (us_statuses (world st)) else [])).
  { destruct reset.
    - apply delete_statuses_run.
    - exists st, []. rewrite app_nil_r. auto. }
  destruct Hd as (st1 & dels & Ed & Ld & Md).
  destruct (sync_loop_log csv 0 [] st1) as (m' & st2 & adds & E & _).
  exists st1, dels, m', st2. repeat split; auto.
  unfold sync_statuses. rewrite Hc. cbn [negb].
  unfold bind at 1.
  rewrite Ed. unfold bind at 1. rewrite E.
  reflexivity.
Qed.

(** The calls of [sync_statuses] without [dry_run]: deletions, then
    creation calls of names of the input. *)
Lemma sync_statuses_log : forall self csv_statuses reset (st : state W),
  exists dels adds,
    log (snd (sync_statuses self csv_statuses reset false st))
    = (log st ++ dels ++ adds)%list
    /\ (exists l, map fst dels = map StatusDelete l)
    /\ (forall en, In en adds ->
          exists j name, nth_error csv_statuses j = Some name
                         /\ fst en = status_call j name).
Proof.
  intros self csv reset st.
  destruct (project_connected self) eqn:Hc.
  - destruct (sync_statuses_run self csv reset st Hc)
      as (st1 & dels & m & st2 & _ & Ld & Md & E & R).
    destruct (sync_loop_log csv 0 [] st1) as (m' & st2' & adds & E' & L & HIn & _).
    rewrite E in E'. inversion E'; subst m' st2'.
    exists dels, adds. rewrite R. cbn [snd log]. rewrite L, Ld, app_assoc.
    split; [reflexivity|]. split; [|exact HIn].
    destruct reset; [eauto | exists []; exact Md].
  - exists [], []. unfold sync_statuses. rewrite Hc. simpl.
    rewrite app_nil_r. split; [reflexivity|]. split; [exists []; reflexivity|].
    intros en [].
Qed.

(** C7: with [reset] set and [dry_run] off, [sync_statuses] on a connected
    project attempts the deletion of every status that the project lists,
    in order and before any creation call, whatever the deletions answer
    (a deletion that raises stops nothing); it then runs the same reuse and
    creation phase as a call without [reset] from the state that the
    deletions left, and returns its map. *)
Theorem reset_deletes_before_creating :
  forall self csv_statuses (st : state W),
    project_connected self = true ->
    exists status_map st' st1 dels adds,
      sync_statuses self csv_statuses true false st = (Ok status_map, st')
      /\ log st' = (log st ++ dels ++ adds)%list
      /\ map fst dels = map StatusDelete (us_statuses (world st))
      /\ forallb (fun en => is_add_status (fst en)) adds = true
      /\ delete_statuses st = (Ok tt, st1)
      /\ log st1 = (log st ++ dels)%list
      /\ sync_statuses self csv_statuses false false st1 = (Ok status_map, st').
Proof.
  intros self csv st Hc.
  destruct (sync_statuses_run self csv true st Hc)
    as (st1 & dels & m & st2 & Ed & Ld & Md & E & R).
  destruct (sync_loop_log csv 0 [] st1) as (m' & st2' & adds & E' & L & HIn & _).
  rewrite E in E'. inversion E'; subst m' st2'.
  exists m, (State (world st2) (log st2) (files st2) m), st1, dels, adds.
  split; [exact R|]. cbn [log]. split; [rewrite L, Ld, app_assoc; reflexivity|].
  split; [exact Md|]. split.
  { apply forallb_forall. intros en Hen.
    destruct (HIn en Hen) as (j & n & _ & Hc'). rewrite Hc'. reflexivity. }
  split; [exact Ed|]. split; [exact Ld|].
  destruct (sync_statuses_run self csv false st1 Hc)
    as (st1' & dels' & m2 & st3 & Ed' & _ & _ & E2 & R2).
  inversion Ed'; subst st1'. rewrite E in E2. inversion E2; subst m2 st3.
  exact R2.
Qed.

(** C4, as the code has it: every status that [sync_statuses] creates
    has the colour of the palette at the index of its name in the input,
    modulo the length of the palette, where the index counts every name of
    the input, reused or created. *)
Theorem colors_follow_input_index :
  forall self csv_statuses reset (st : state W),
    exists new,
      log (snd (sync_statuses self csv_statuses reset false st))
      = (log st ++ new)%list
      /\ forall name slug is_closed color r,
          In (AddUserStoryStatus name slug is_closed color, r) new ->
          exists i, nth_error csv_statuses i = Some name
                    /\ color = nth (i mod 7) colors EmptyString.
Proof.
  intros self csv reset st.
  destruct (sync_statuses_log self csv reset st) as (dels & adds & L & (l & Hd) & Ha).
  exists (dels ++ adds)%list. split; [exact L|].
  intros name slug cl color r Hin. apply in_app_or in Hin as [Hin|Hin].
  - apply (in_map fst) in Hin. rewrite Hd in Hin. simpl in Hin.
    apply in_map_iff in Hin as (s & Hs & _). discriminate.
  - destruct (Ha _ Hin) as (j & n & Hj & Hc). simpl in Hc.
    unfold status_call in Hc. inversion Hc; subst.
    exists j. split; [exact Hj | reflexivity].
Qed.

Lemma slugs_created_app : forall l1 l2,
  slugs_created (l1 ++ l2) = (slugs_created l1 ++ slugs_created l2)%list.
Proof. intros; unfold slugs_created; apply flat_map_app. Qed.

Lemma slugs_created_deletions : forall dels l,
  map fst dels = map StatusDelete l -> slugs_created dels = [].
Proof.
  induction dels as [|[c r] dels IH]; intros l H; [reflexivity|].
  destruct l as [|s l]; [discriminate|].
  simpl in H. injection H as Hc Hrest. subst c.
  simpl. eapply IH; exact Hrest.
Qed.

Lemma is_closed_name_spec : forall name,
  is_closed_name name = true <->
  In (PyStr.lower name) ["done"; "dev done"; "closed"; "ready for prod"]%string.
Proof.
  intros name; unfold is_closed_name. rewrite existsb_exists. split.
  - intros (x & Hx & E). apply String.eqb_eq in E. subst x. exact Hx.
  - intros H. exists (PyStr.lower name). split; [exact H | apply String.eqb_refl].
Qed.

End WithCollaborator.

End SyncFacts.

(** ** The scripted collaborator *)

Module MockFacts.

Import Collab.

Lemma mock_listing_sound : forall refreshed,
  listing_sound Mock.world (collab := Mock.collaborator refreshed).
Proof.
  intros refreshed c w s; simpl. unfold Mock.mock_perform.
  destruct (Mock.raising w c); simpl; [auto|].
  unfold Mock.relist. destruct refreshed; [|auto].
  destruct c; auto.
  - intros H. apply filter_In in H as [H _]. auto.
  - intros H. apply in_app_or in H as [H|[H|[]]]; [auto|].
    subst s. right. simpl. eauto.
Qed.

Lemma mock_listing_live :
  listing_live Mock.world (collab := Mock.collaborator true).
Proof.
  split.
  - intros name slug cl color w id; simpl. unfold Mock.mock_perform.
    destruct (Mock.raising w _); simpl; [discriminate|].
    intros _. exists (Status (Mock.next_id w) name slug).
    split; [apply in_or_app; right; left; reflexivity | reflexivity].
  - intros c w s Hc Hs; simpl. unfold Mock.mock_perform.
    destruct (Mock.raising w c); simpl; [exact Hs|].
    destruct c; try discriminate. simpl.
    apply in_or_app; left; exact Hs.
Qed.

End MockFacts.

(** ** Witnesses and counterexamples of the status reconciliation *)

Module SyncExamples.

Import Collab Eff TaigaService SyncFacts.

(** Witness of C7, on a project that lists "To Do" *)
Lemma reset_deletes_before_creating_witness :
  project_connected Examples.taiga = true
  /\ exists status_map st' st1 dels adds,
       sync_statuses (collab := Mock.collaborator false) Examples.taiga
         ["To Do"; "Done"]%string true false
         (Mock.start Examples.project_with_todo) = (Ok status_map, st')
       /\ log st' = (log (Mock.start Examples.project_with_todo) ++ dels ++ adds)%list
       /\ map fst dels
          = map StatusDelete
              (us_statuses (Collaborator := Mock.collaborator false)
                 (world (Mock.start Examples.project_with_todo)))
       /\ forallb (fun en => is_add_status (fst en)) adds = true
       /\ delete_statuses (collab := Mock.collaborator false)
            (Mock.start Examples.project_with_todo) = (Ok tt, st1)
       /\ log st1 = (log (Mock.start Examples.project_with_todo) ++ dels)%list
       /\ sync_statuses (collab := Mock.collaborator false) Examples.taiga
            ["To Do"; "Done"]%string false false st1 = (Ok status_map, st').
Proof.
  split; [reflexivity|].
  apply (reset_deletes_before_creating (collab := Mock.collaborator false)).
  reflexivity.
Defined.

(** C6: [sync_statuses] without [dry_run], on the list of statuses as the
    project was fetched; [sync_statuses] never fetches it again (its
    comments before the loop say "Re-fetch statuses to be sure" and the
    code does not).
    (1) The example of the claim holds: for "To Do" and "Dev Done" on a
    project without statuses, two statuses are created, with the slugs
    "to-do" and "dev-done", "Dev Done" closed and "To Do" not.
    (2) A status that the project lists is reused: no call, and the map
    has its identifier.
    (3) Two names of one key, "To Do" and "to do", on a project without
    statuses: the second turn of the loop looks for the slug in the same
    list and does not find the status just created, so two statuses of the
    slug "to-do" are created, and the map keeps the identifier of the
    second; so it is when the two names come in the other order.
    (4) On a list that follows the creations the same input creates one
    status: the check of the loop is what the claim says, the list that it
    reads is not. *)
Theorem same_slug_created_twice :
  (let res :=
     sync_statuses (collab := Mock.collaborator false) Examples.taiga
       ["To Do"; "Dev Done"]%string false false
       (Mock.start Examples.empty_project) in
   fst res = Ok [("to-do"%string, 1%Z); ("dev-done"%string, 2%Z)]
   /\ log (snd res)
      = [(AddUserStoryStatus "To Do" "to-do" false "#70728F", Some 1%Z);
         (AddUserStoryStatus "Dev Done" "dev-done" true "#E47C40", Some 2%Z)])
  /\ (let res :=
        sync_statuses (collab := Mock.collaborator false) Examples.taiga
          ["To Do"]%string false false
          (Mock.start Examples.project_with_todo) in
      fst res = Ok [("to-do"%string, 7%Z)] /\ log (snd res) = [])
  /\ (let res :=
        sync_statuses (collab := Mock.collaborator false) Examples.taiga
          ["To Do"; "to do"]%string false false
          (Mock.start Examples.empty_project) in
      fst res = Ok [("to-do"%string, 2%Z)]
      /\ log (snd res)
         = [(AddUserStoryStatus "To Do" "to-do" false "#70728F", Some 1%Z);
            (AddUserStoryStatus "to do" "to-do" false "#E47C40", Some 2%Z)]
      /\ slugs_created (log (snd res)) = ["to-do"; "to-do"]%string)
  /\ slugs_created
       (log (snd (sync_statuses (collab := Mock.collaborator false)
                    Examples.taiga ["to do"; "To Do"]%string false false
                    (Mock.start Examples.empty_project))))
     = ["to-do"; "to-do"]%string
  /\ (let res :=
        sync_statuses (collab := Mock.collaborator true) Examples.taiga
          ["To Do"; "to do"]%string false false
          (Mock.start Examples.empty_project) in
      fst res = Ok [("to-do"%string, 1%Z)]
      /\ log (snd res)
         = [(AddUserStoryStatus "To Do" "to-do" false "#70728F", Some 1%Z)]).
Proof.
  vm_compute. repeat split; reflexivity.
Qed.

(** Witness of C4, as the code has it: "Done" is at index 1 of the input
    and gets the colour 1 of the palette. *)
Lemma colors_follow_input_index_witness :
  exists i, nth_error ["To Do"; "Done"]%string i = Some "Done"%string
            /\ "#E47C40"%string = nth (i mod 7) colors EmptyString.
Proof.
  destruct (colors_follow_input_index (collab := Mock.collaborator false)
              Examples.taiga ["To Do"; "Done"]%string false
              (Mock.start Examples.project_with_todo)) as (new & L & H).
  apply (H "Done"%string "done"%string true "#E47C40"%string (Some 100%Z)).
  vm_compute in L. rewrite <- L. left; reflexivity.
Defined.

(** C4, as the claim states it, fails: on a project that lists "To Do",
    the input "To Do", "Done" reuses the first and creates the second,
    which is the first status created and gets the second colour of the
    palette. *)
Lemma colors_not_by_creation_order :
  created (log (snd (sync_statuses (collab := Mock.collaborator false)
                       Examples.taiga ["To Do"; "Done"]%string false false
                       (Mock.start Examples.project_with_todo))))
  = [AddUserStoryStatus "Done" "done" true "#E47C40"]
  /\ ~ colors_by_creation_order
       (log (snd (sync_statuses (collab := Mock.collaborator false)
                    Examples.taiga ["To Do"; "Done"]%string false false
                    (Mock.start Examples.project_with_todo)))).
Proof.
  split; [vm_compute; reflexivity|].
  intros H.
  specialize (H 0 "Done"%string "done"%string true "#E47C40"%string).
  assert (E : "#E47C40"%string = nth (0 mod List.length colors) colors EmptyString)
    by (apply H; vm_compute; reflexivity).
  vm_compute in E. discriminate.
Qed.

End SyncExamples.

(** ** The assignee lookup *)

Module AssigneeFacts.

Import TaigaService.

Lemma dict_get_in : forall (V : Type) k (v : V) d,
  Dict.get k d = Some v -> In (k, v) d.
Proof.
  intros V k v d; induction d as [|[k' v'] d IH]; simpl; [discriminate|].
  destruct (k' =? k)%string eqn:E.
  - apply String.eqb_eq in E; subst. intros H; inversion H; subst. left; reflexivity.
  - intros H; right; apply IH; exact H.
Qed.

Lemma cache_hit_truthy : forall cache k id,
  cache_wf cache -> Dict.get k cache = Some id -> truthy_id (Some id) = true.
Proof.
  intros cache k id Hwf H. apply dict_get_in in H. apply Hwf in H as [_ H].
  simpl. apply negb_true_iff. apply Z.eqb_neq. exact H.
Qed.

Lemma cache_no_empty_key : forall cache,
  cache_wf cache -> Dict.get EmptyString cache = None.
Proof.
  intros cache Hwf. destruct (Dict.get EmptyString cache) as [id|] eqn:E;
    [|reflexivity].
  apply dict_get_in in E. apply Hwf in E as [E _]. congruence.
Qed.

(** The scan of lines 120 to 123 finds the first key in the order of the
    cache that contains the name or is contained in it. *)
Lemma fuzzy_scan_spec : forall name cache,
  fuzzy_scan name cache = fuzzy_spec name cache.
Proof.
  intros name cache; unfold fuzzy_spec.
  induction cache as [|[k id] cache IH]; simpl; [reflexivity|].
  rewrite orb_comm.
  destruct (PyStr.contains (PyStr.lower k) (PyStr.lower name)
            || PyStr.contains (PyStr.lower name) (PyStr.lower k));
    [reflexivity | exact IH].
Qed.

Lemma dict_set_in : forall (V : Type) k (v : V) d k' v',
  In (k', v') (Dict.set k v d) -> (k', v') = (k, v) \/ In (k', v') d.
Proof.
  intros V k v d k' v'; induction d as [|[k0 v0] d IH]; simpl.
  - intros [H|[]]; left; congruence.
  - destruct (k0 =? k)%string; simpl.
    + intros [H|H]; [left; congruence | right; right; exact H].
    + intros [H|H]; [right; left; exact H|].
      apply IH in H as [H|H]; [left | right; right]; exact H.
Qed.

Lemma cache_wf_set : forall k id cache,
  k <> EmptyString -> id <> 0%Z -> cache_wf cache -> cache_wf (Dict.set k id cache).
Proof.
  intros k id cache Hk Hid Hwf k' id' H.
  apply dict_set_in in H as [H|H]; [inversion H; subst; auto | apply Hwf; exact H].
Qed.

(** The cache that [connect_project] fills has no empty key, and no
    identifier 0 when no member has it. *)
Lemma fill_users_cache_wf : forall memberships cache,
  (forall m, In m memberships -> user m <> 0%Z) ->
  cache_wf cache -> cache_wf (fill_users_cache memberships cache).
Proof.
  induction memberships as [|m ms IH]; intros cache Hu Hwf; simpl; [exact Hwf|].
  apply IH; [intros m' Hm'; apply Hu; right; exact Hm'|].
  assert (Hm : user m <> 0%Z) by (apply Hu; left; reflexivity).
  assert (Hwf1 : cache_wf
            match full_name m with
            | Some n => if PyStr.truthy n then Dict.set n (user m) cache else cache
            | None => cache
            end).
  { destruct (full_name m) as [[|c n]|]; simpl; try exact Hwf.
    apply cache_wf_set; [discriminate | exact Hm | exact Hwf]. }
  destruct (username m) as [[|c u]|]; simpl; try exact Hwf1.
  apply cache_wf_set; [discriminate | exact Hm |].
  apply cache_wf_set; [discriminate | exact Hm | exact Hwf1].
Qed.

Lemma truthy_nonempty : forall s, s <> EmptyString -> PyStr.truthy s = true.
Proof. intros [|c s] H; [contradiction | reflexivity]. Qed.

(** C5, as the code has it: for a display name that is not empty, on a
    cache without empty key and without identifier 0, the lookup is the
    three tiers in order: the exact hit of the cache; else, when the name
    has a manual mapping, the hit of the mapped name; else the first key
    of the cache, in its order, that contains the lowercased name or is
    contained in it; else absent.  An exact hit wins over any fuzzy match.
    For an empty display name, or a row without assignee, the result is
    absent: no mapping and no fuzzy scan is tried. *)
Theorem assignee_lookup_tiers : forall self name,
  cache_wf (users_cache self) ->
  (name <> EmptyString ->
   assignee_lookup self (Some name)
   = resolve_spec (users_cache self) (manual_user_map self) name)
  /\ (forall id, Dict.get name (users_cache self) = Some id ->
                 assignee_lookup self (Some name) = Some id)
  /\ assignee_lookup self (Some EmptyString) = None
  /\ assignee_lookup self None = None.
Proof.
  intros self name Hwf. split; [|split; [|split]].
  - intros Hne. unfold assignee_lookup, resolve_spec.
    destruct (Dict.get name (users_cache self)) as [id|] eqn:E1.
    + rewrite (cache_hit_truthy _ _ _ Hwf E1). reflexivity.
    + rewrite (truthy_nonempty name Hne). cbn [truthy_id negb andb].
      rewrite <- fuzzy_scan_spec.
      destruct (Dict.get name (manual_user_map self)) as [mapped|].
      * destruct mapped as [|c mapped'].
        -- cbn [PyStr.truthy truthy_id negb].
           rewrite (cache_no_empty_key _ Hwf).
           destruct (fuzzy_scan name (users_cache self)); reflexivity.
        -- cbn [PyStr.truthy].
           destruct (Dict.get (String c mapped') (users_cache self)) as [id|] eqn:E2.
           ++ rewrite (cache_hit_truthy _ _ _ Hwf E2). reflexivity.
           ++ cbn [truthy_id negb].
              destruct (fuzzy_scan name (users_cache self)); reflexivity.
      * cbn [truthy_id negb].
        destruct (fuzzy_scan name (users_cache self)); reflexivity.
  - intros id E1. unfold assignee_lookup. rewrite E1.
    rewrite (cache_hit_truthy _ _ _ Hwf E1). reflexivity.
  - unfold assignee_lookup. rewrite (cache_no_empty_key _ Hwf). reflexivity.
  - reflexivity.
Qed.

Lemma examples_cache_wf : cache_wf (users_cache Examples.taiga).
Proof.
  intros k id H. simpl in H.
  repeat (destruct H as [H|H]; [inversion H; subst; split; discriminate|]).
  contradiction.
Qed.

(** Witness of C5: a name with a manual mapping resolves to the identifier
    of the mapped name. *)
Lemma assignee_lookup_tiers_witness :
  cache_wf (users_cache Examples.taiga)
  /\ "A. Smith"%string <> EmptyString
  /\ assignee_lookup Examples.taiga (Some "A. Smith"%string)
     = resolve_spec (users_cache Examples.taiga)
                    (manual_user_map Examples.taiga) "A. Smith".
Proof.
  split; [exact examples_cache_wf|]. split; [discriminate|].
  destruct (assignee_lookup_tiers Examples.taiga "A. Smith" examples_cache_wf)
    as [H _].
  apply H. discriminate.
Defined.

(** C5, as the claim states it, fails on the empty display name: the
    fuzzy tier would give the first user of the cache, since the empty
    string is contained in every key, and the code gives no user. *)
Lemma assignee_lookup_empty_name :
  assignee_lookup Examples.taiga_alice (Some EmptyString) = None
  /\ resolve_spec (users_cache Examples.taiga_alice)
                  (manual_user_map Examples.taiga_alice) EmptyString = Some 1%Z
  /\ assignee_lookup Examples.taiga_alice (Some EmptyString)
     <> resolve_spec (users_cache Examples.taiga_alice)
                     (manual_user_map Examples.taiga_alice) EmptyString.
Proof.
  split; [reflexivity|]. split; [reflexivity|]. discriminate.
Qed.

End AssigneeFacts.

(** ** The migration loop *)

Module MigrateFacts.

Import Collab Eff EffFacts TaigaService Migrate.

(** The loop of lines 78 to 83 collects what each field contributes, in
    the order of the fields, and never raises. *)
Lemma comments_loop_spec : forall items acc,
  comments_loop items acc = Some (acc ++ comments_of items)%list.
Proof.
  induction items as [|[key value] items IH]; intros acc.
  - simpl. rewrite app_nil_r. reflexivity.
  - unfold comments_of. cbn [comments_loop flat_map]. fold (comments_of items).
    unfold comment_of.
    destruct (PyStr.truthy value
              && (PyStr.contains "Comment" key || PyStr.startswith key "Comment")).
    + destruct (MarkupFacts.parse_comment_total value) as [parsed Hp]. rewrite Hp.
      destruct (PyStr.truthy parsed); rewrite IH.
      * rewrite <- app_assoc. reflexivity.
      * reflexivity.
    + rewrite IH. reflexivity.
Qed.

Lemma story_subjects_app : forall l1 l2,
  story_subjects (l1 ++ l2) = (story_subjects l1 ++ story_subjects l2)%list.
Proof. intros; unfold story_subjects; apply flat_map_app. Qed.

Lemma story_subjects_none : forall (P : call -> bool) l,
  (forall c, P c = true -> is_add_user_story c = false) ->
  forallb (fun en => P (fst en)) l = true -> story_subjects l = [].
Proof.
  intros P l HP; induction l as [|[c r] l IH]; simpl; intros H; [reflexivity|].
  apply andb_true_iff in H as [Hc Hl]. rewrite (IH Hl).
  apply HP in Hc. destruct c; try discriminate; reflexivity.
Qed.

Lemma detail_not_creation : forall comment_map c,
  story_detail comment_map c = true -> is_add_user_story c = false.
Proof. intros cm c H; destruct c; simpl in *; try reflexivity; discriminate. Qed.

Lemma attachment_not_creation : forall c,
  attachment_call c = true -> is_add_user_story c = false.
Proof. intros c H; destruct c; simpl in *; try reflexivity; discriminate. Qed.

Lemma not_mem_eqb : forall c sep s,
  PyStr.mem sep (String c s) = false -> (c =? sep) = false /\ PyStr.mem sep s = false.
Proof.
  intros c sep s H. simpl in H. apply orb_false_iff in H as [H1 H2].
  rewrite Ascii.eqb_sym. auto.
Qed.

Lemma split_max_one : forall sep a rest,
  PyStr.mem sep a = false ->
  PyStr.split_max sep (a ++ String sep rest) 1 = [a; rest].
Proof.
  intros sep a rest; induction a as [|c a IH]; intros H.
  - simpl. rewrite Ascii.eqb_refl. destruct rest; reflexivity.
  - apply not_mem_eqb in H as [Hc Ha].
    cbn [append PyStr.split_max]. rewrite Hc, (IH Ha). reflexivity.
Qed.

(** [split(';', 2)] on a descriptor: the date, the author, and the body
    with whatever it contains. *)
Lemma split_max_descriptor : forall sep d a body,
  PyStr.mem sep d = false -> PyStr.mem sep a = false ->
  PyStr.split_max sep (d ++ String sep (a ++ String sep body)) 2 = [d; a; body].
Proof.
  intros sep d a body; induction d as [|c d IH]; intros Hd Ha.
  - cbn [append PyStr.split_max]. rewrite Ascii.eqb_refl.
    rewrite (split_max_one sep a body Ha). reflexivity.
  - apply not_mem_eqb in Hd as [Hc Hd].
    cbn [append PyStr.split_max]. rewrite Hc, (IH Hd Ha). reflexivity.
Qed.

Lemma parse_comment_descriptor : forall d a body,
  PyStr.mem ";" d = false -> PyStr.mem ";" a = false ->
  JiraService.parse_comment (d ++ String ";" (a ++ String ";" body))
  = JiraService.convert_markup body.
Proof.
  intros d a body Hd Ha. unfold JiraService.parse_comment.
  rewrite (split_max_descriptor ";" d a body Hd Ha).
  destruct d; reflexivity.
Qed.

Lemma truthy_not_empty : forall s, PyStr.truthy s = true -> s <> EmptyString.
Proof. intros [|c s] H; [discriminate | discriminate]. Qed.

Lemma comment_of_truthy : forall kv c, In c (comment_of kv) -> c <> EmptyString.
Proof.
  intros [key value] c; unfold comment_of.
  destruct (PyStr.truthy value && _); [|intros []].
  destruct (JiraService.parse_comment value) as [parsed|]; [|intros []].
  destruct (PyStr.truthy parsed) eqn:E; [|intros []].
  intros [H|[]]. subst c. apply truthy_not_empty; exact E.
Qed.

Section WithCollaborator.

Context {W : Type} {collab : Collaborator W}.
Variable e : env.
Variable jira_service : JiraService.service.
Variable taiga_service : TaigaService.service.
Variable markdown : string -> string.

Lemma traced_get_world : forall P, traced P (get_world : M W W).
Proof.
  intros P st; exists []; simpl. rewrite app_nil_r. auto.
Qed.

Lemma update_points_traced : forall comment_map story points_value,
  traced (story_detail comment_map) (update_points story points_value).
Proof.
  intros cm story pts. unfold update_points.
  apply traced_bind; [apply traced_get_world|]. intros w.
  destruct pts as [v|]; [|apply traced_ret].
  destruct (roles w) as [|role rs]; [apply traced_ret|].
  destruct (PyStr.truthy v); [|apply traced_ret].
  destruct (find _ (points w)) as [p_obj|]; [|apply traced_ret].
  apply traced_bind; [|intros; apply traced_ret].
  apply traced_invoke; reflexivity.
Qed.

Lemma add_comments_traced : forall comment_map story,
  traced (story_detail comment_map)
         (for_each comment_map (fun txt =>
            bind (invoke (StoryAddComment story txt)) (fun _ => ret tt))).
Proof.
  intros cm story. apply traced_for_each_in. intros txt Htxt.
  apply traced_bind; [|intros; apply traced_ret].
  apply traced_invoke; [|reflexivity].
  simpl. apply existsb_exists. exists txt. split; [exact Htxt | apply String.eqb_refl].
Qed.

(** The calls of [create_story]: the creation of the story, with the
    assignee that the lookup gives, then the points and the comments; it
    raises exactly when one of them raises. *)
Lemma create_story_run :
  forall title description status_id assignee points_value comment_map (st : state W),
    exists r rest,
      log (snd (create_story taiga_service title description status_id assignee
                  points_value comment_map false st))
      = (log st ++ (AddUserStory title description status_id
                      (assignee_lookup taiga_service assignee), r) :: rest)%list
      /\ forallb (fun en => story_detail comment_map (fst en)) rest = true
      /\ count_raised rest
         + (match r with None => 1 | Some _ => 0 end)
         = match fst (create_story taiga_service title description status_id
                        assignee points_value comment_map false st) with
           | Ok _ => 0
           | Raised => 1
           end
      /\ (forall o,
            fst (create_story taiga_service title description status_id assignee
                   points_value comment_map false st) = Ok o ->
            exists story, o = Some story).
Proof.
  intros title description status_id assignee pts cm st.
  remember (create_story taiga_service title description status_id assignee
              pts cm false st) as res eqn:Hres.
  unfold create_story in Hres. unfold try_except, bind at 1 in Hres.
  rewrite invoke_after in Hres.
  set (c0 := AddUserStory title description status_id
               (assignee_lookup taiga_service assignee)) in *.
  destruct (fst (perform c0 (world st))) as [story|] eqn:Er.
  - assert (Ht : traced (story_detail cm)
             (bind (update_points story pts) (fun _ =>
              bind (for_each cm (fun txt =>
                      bind (invoke (StoryAddComment story txt)) (fun _ => ret tt)))
                   (fun _ => ret (Some story))))).
    { apply traced_bind; [apply update_points_traced|]. intros _.
      apply traced_bind; [apply add_comments_traced|]. intros _. apply traced_ret. }
    destruct (Ht (after c0 st)) as (rest & L & F & C).
    exists (Some story), rest.
    match type of Hres with context [bind (update_points story pts) ?k (after c0 st)] =>
      destruct (bind (update_points story pts) k (after c0 st)) as [[o|] st1] eqn:E
    end; subst res; cbn [fst snd] in *.
    + split; [rewrite L; unfold after; cbn [log]; rewrite Er, <- app_assoc; reflexivity|].
      split; [exact F|]. split; [rewrite C; reflexivity|].
      intros o' Ho. inversion Ho; subst o'.
      unfold bind in E.
      destruct (update_points story pts (after c0 st)) as [[[]|] st2]; [|discriminate].
      destruct (for_each cm _ st2) as [[[]|] st3]; [|discriminate].
      inversion E; subst. eauto.
    + unfold raise; cbn [fst snd].
      split; [rewrite L; unfold after; cbn [log]; rewrite Er, <- app_assoc; reflexivity|].
      split; [exact F|]. split; [rewrite C; reflexivity|].
      intros o' Ho. discriminate.
  - subst res. exists None, []. unfold raise, after; cbn [log fst snd].
    rewrite Er. repeat split; auto. intros o Ho; discriminate.
Qed.

Lemma existsb_written : forall path fs,
  existsb (String.eqb path)
          (if existsb (String.eqb path) fs then fs else (fs ++ [path])%list) = true.
Proof.
  intros path fs. destruct (existsb (String.eqb path) fs) eqn:E; [exact E|].
  rewrite existsb_app. simpl. rewrite String.eqb_refl. apply orb_true_r.
Qed.

(** A field of four parts or more has a last part and a third part. *)
Lemma parts_of_descriptor : forall parts,
  4 <= List.length parts ->
  exists att_url att_filename,
    last_part parts = Some att_url /\ nth_error parts 2 = Some att_filename.
Proof.
  intros parts H. unfold last_part.
  destruct (nth_error parts (List.length parts - 1)) as [u|] eqn:Eu.
  - destruct (nth_error parts 2) as [f|] eqn:Ef; [eauto|].
    apply nth_error_None in Ef. lia.
  - apply nth_error_None in Eu. lia.
Qed.

(** The handling of one attachment field: a download, and after a
    download that gave a file, an upload; it raises exactly when the upload
    raises. *)
Lemma handle_attachment_logged : forall story attachment_field,
  logged attachment_call (handle_attachment jira_service story attachment_field).
Proof.
  intros story field st. unfold handle_attachment.
  assert (Hnil : exists new : list (call * option Z),
            log st = (log st ++ new)%list
            /\ forallb (fun en => attachment_call (fst en)) new = true
            /\ count_raised new <= 0
            /\ ((forall path w, makes_dir path w = true) -> count_raised new = 0)).
  { exists []. rewrite app_nil_r. auto. }
  destruct (Nat.leb 4 (List.length (PyStr.split ";" field))) eqn:El;
    [|exact Hnil].
  apply Nat.leb_le in El.
  destruct (parts_of_descriptor _ El) as (u & f & Hu & Hf). rewrite Hu, Hf.
  unfold lift, JiraService.download_attachment.
  cbv beta delta [bind ret].
  destruct (negb _ || negb _); [exact Hnil|].
  unfold mkdir. destruct (makes_dir "attachments" (world st)) eqn:Ed.
  2:{ exists []. rewrite app_nil_r. cbn [fst snd]. repeat split; auto.
      intros Hd. rewrite Hd in Ed. discriminate. }
  cbv zeta. set (path := JiraService.attachments_path _).
  rewrite ask_after.
  destruct (fst (perform (SessionGet u path) (world st))) as [v|] eqn:Er.
  2:{ exists [(SessionGet u path, None)]. unfold after; simpl. rewrite Er. auto. }
  unfold body_of. cbn [world after].
  destruct (body_written u path _).
  - exists [(SessionGet u path, Some v)]. unfold after; simpl. rewrite Er. auto.
  - exists [(SessionGet u path, Some v)]. unfold write_file, after; simpl.
    rewrite Er. auto.
  - unfold write_file. destruct story as [id|]; unfold attach_file.
    + cbv beta delta [bind ret]. rewrite invoke_after.
      cbn [world after log files statuses_cache].
      destruct (fst (perform (StoryAttach id path) _)) as [v2|] eqn:Er2.
      * unfold unlink. cbn [files after]. rewrite existsb_written.
        exists [(SessionGet u path, Some v); (StoryAttach id path, Some v2)].
        cbn [fst snd log after world]. rewrite Er, Er2, <- app_assoc. auto.
      * exists [(SessionGet u path, Some v); (StoryAttach id path, None)].
        cbn [fst snd log after world]. rewrite Er, Er2, <- app_assoc. auto.
    + cbv beta delta [ret]. unfold unlink. cbn [files]. rewrite existsb_written.
      exists [(SessionGet u path, Some v)].
      cbn [fst snd log after]. rewrite Er. auto.
Qed.

Lemma bind_ret_l : forall (A B : Type) (a : A) (f : A -> M W B) st,
  bind (ret a) f st = f a st.
Proof. reflexivity. Qed.

Lemma count_raised_story : forall subject description status assigned_to r l,
  count_raised ((AddUserStory subject description status assigned_to, r) :: l)
  = (match r with None => 1 | Some _ => 0 end) + count_raised l.
Proof. intros; destruct r; reflexivity. Qed.

(** The handling of the attachments of a row.  It raises through an
    upload that raises or a directory that cannot be made; it makes no call
    at all when attachments are not downloaded. *)
Lemma attachments_logged : forall story r (st : state W),
  exists new,
    log (snd ((if DOWNLOAD_ATTACHMENTS e
               then for_each (attachment_cols r)
                      (handle_attachment jira_service story)
               else ret tt) st)) = (log st ++ new)%list
    /\ forallb (fun en => attachment_call (fst en)) new = true
    /\ count_raised new
       <= match fst ((if DOWNLOAD_ATTACHMENTS e
                      then for_each (attachment_cols r)
                             (handle_attachment jira_service story)
                      else ret tt) st) with
          | Ok _ => 0
          | Raised => 1
          end
    /\ (DOWNLOAD_ATTACHMENTS e = false
        \/ (forall path w, makes_dir path w = true) ->
        count_raised new
        = match fst ((if DOWNLOAD_ATTACHMENTS e
                      then for_each (attachment_cols r)
                             (handle_attachment jira_service story)
                      else ret tt) st) with
          | Ok _ => 0
          | Raised => 1
          end)
    /\ (DOWNLOAD_ATTACHMENTS e = false -> new = []).
Proof.
  intros story r st. destruct (DOWNLOAD_ATTACHMENTS e).
  - destruct (logged_for_each _ attachment_call
                (handle_attachment jira_service story) (attachment_cols r)
                (handle_attachment_logged story) st)
      as (new & L & F & C & E).
    exists new. repeat split; auto.
    + intros [H|H]; [discriminate | exact (E H)].
    + discriminate.
  - exists []. cbn. rewrite app_nil_r. auto.
Qed.


Lemma detail_is_creation : forall comment_map (l : list (call * option Z)),
  forallb (fun en => story_detail comment_map (fst en)) l = true ->
  forallb (fun en => creation_call (fst en)) l = true.
Proof.
  intros cm l H. rewrite forallb_forall in *. intros en Hen.
  specialize (H en Hen). destruct (fst en); try discriminate; reflexivity.
Qed.

Lemma in_comment_calls : forall comment_map story txt (reply : option Z) rest new2,
  forallb (fun en => story_detail comment_map (fst en)) rest = true ->
  forallb (fun en => attachment_call (fst en)) new2 = true ->
  In (StoryAddComment story txt, reply) (rest ++ new2) ->
  In txt comment_map.
Proof.
  intros cm story txt reply rest new2 F F2 Hin.
  apply in_app_or in Hin as [Hin|Hin].
  - rewrite forallb_forall in F. apply F in Hin. simpl in Hin.
    apply existsb_exists in Hin as (x & Hx & E).
    apply String.eqb_eq in E. subst x. exact Hx.
  - rewrite forallb_forall in F2. apply F2 in Hin. discriminate.
Qed.

(** The processing of one row without dry run: it never raises; it makes
    one creation call, for the summary of the row; it adds one to
    [success] when nothing raised, and then no call raised, and one to
    [failed] otherwise, and then at most one call raised: exactly one when
    attachments are not downloaded or every directory can be made.  The
    comments that it adds are comments of the row; without the download of
    attachments all its calls are calls of the creation. *)
Lemma main_row_run : forall taiga_statuses r s (st : state W),
  DRY_RUN e = false ->
  exists s' st' new,
    main_row e jira_service taiga_service markdown taiga_statuses r s st
    = (Ok s', st')
    /\ log st' = (log st ++ new)%list
    /\ ((success s' = (success s + 1)%Z /\ failed s' = failed s
         /\ count_raised new = 0)
        \/ (success s' = success s /\ failed s' = (failed s + 1)%Z
            /\ count_raised new <= 1
            /\ (DOWNLOAD_ATTACHMENTS e = false
                \/ (forall path w, makes_dir path w = true) ->
                count_raised new = 1)))
    /\ story_subjects new = [summary_of r]
    /\ (forall story txt reply,
          In (StoryAddComment story txt, reply) new -> In txt (comments_of r))
    /\ (DOWNLOAD_ATTACHMENTS e = false ->
        forallb (fun en => creation_call (fst en)) new = true).
Proof.
  intros taiga_statuses r s st Hdry. unfold main_row.
  destruct (MarkupFacts.convert_markup_total
              (match Dict.get "Description" r with Some v => v | None => EmptyString end))
    as [md Hmd].
  rewrite Hmd, comments_loop_spec. cbn [lift app]. rewrite !bind_ret_l, Hdry.
  match goal with |- context [@create_story _ _ _ ?t ?d ?sid ?a ?pv ?cm false] =>
    destruct (create_story_run t d sid a pv cm st) as (r0 & rest & L & F & C & Hok);
    destruct (create_story taiga_service t d sid a pv cm false st)
      as [[o|] st1] eqn:Ec
  end; cbn [fst snd] in *; unfold try_except, bind at 1; rewrite Ec.
  - destruct (Hok o eq_refl) as [story Ho]. subst o.
    destruct (attachments_logged (Some story) r st1)
      as (new2 & L2 & F2 & C2 & E2 & N2).
    unfold bind at 1.
    destruct ((if DOWNLOAD_ATTACHMENTS e
               then for_each (attachment_cols r)
                      (handle_attachment jira_service (Some story))
               else ret tt) st1) as [[[]|] st2]; cbn [fst snd] in *;
      (eexists _, st2, (_ :: rest ++ new2)%list;
       split; [reflexivity|];
       split; [rewrite L2, L, <- app_assoc; reflexivity|];
       split;
       [|split;
         [cbn [story_subjects flat_map fst]; fold (story_subjects (rest ++ new2));
          rewrite story_subjects_app,
            (story_subjects_none _ rest (detail_not_creation _) F),
            (story_subjects_none _ new2 attachment_not_creation F2);
          reflexivity
         |split;
          [intros story' txt reply [Hin|Hin]; [discriminate|];
           eapply in_comment_calls; eassumption
          |intros Hoff; rewrite (N2 Hoff), app_nil_r; cbn [forallb fst creation_call];
           apply (detail_is_creation _ _ F)]]]).
    + left. cbn [success failed]. rewrite count_raised_story, count_raised_app.
      repeat split; lia.
    + right. cbn [success failed]. rewrite count_raised_story, count_raised_app.
      split; [reflexivity|]. split; [reflexivity|]. split; [lia|].
      intros Hd. rewrite (E2 Hd). lia.
  - eexists _, st1, (_ :: rest)%list.
    split; [reflexivity|]. split; [exact L|].
    split.
    { right. cbn [success failed]. rewrite count_raised_story.
      repeat split; lia. }
    split.
    { cbn [story_subjects flat_map fst]. fold (story_subjects rest).
      rewrite (story_subjects_none _ rest
                 (detail_not_creation _) F).
      reflexivity. }
    split.
    { intros story' txt reply [Hin|Hin]; [discriminate|].
      apply (in_comment_calls _ story' txt reply rest [] F eq_refl).
      rewrite app_nil_r. exact Hin. }
    intros _. cbn [forallb fst creation_call]. apply (detail_is_creation _ _ F).
Qed.


(** C8: under dry run the processing of a row returns the counters as
    they were and leaves the state as it was: no call to a collaborator,
    no download, no local file; and so does the whole loop. *)
Theorem dry_run_makes_no_call :
  DRY_RUN e = true ->
  (forall taiga_statuses r s (st : state W),
     main_row e jira_service taiga_service markdown taiga_statuses r s st
     = (Ok s, st))
  /\ (forall taiga_statuses rows s (st : state W),
       main_rows e jira_service taiga_service markdown taiga_statuses rows s st
       = (Ok s, st)).
Proof.
  intros Hdry.
  assert (Hrow : forall taiga_statuses r s (st : state W),
             main_row e jira_service taiga_service markdown taiga_statuses r s st
             = (Ok s, st)).
  { intros ts r s st. unfold main_row.
    destruct (MarkupFacts.convert_markup_total
                (match Dict.get "Description" r with Some v => v | None => EmptyString end))
      as [md Hmd].
    rewrite Hmd, comments_loop_spec. cbn [lift app]. rewrite !bind_ret_l, Hdry.
    reflexivity. }
  split; [exact Hrow|].
  intros ts rows; induction rows as [|r rows IH]; intros s st; [reflexivity|].
  cbn [main_rows]. unfold bind at 1. rewrite Hrow. apply IH.
Qed.

(** C10: the comments of a row are what its fields contribute, in the
    order of the fields, and none is empty.  A field contributes nothing
    when its value is empty, when it is a descriptor "date;author;" with an
    empty body, and whenever [parse_comment] gives the empty string; a
    comment field whose parsed value is not empty contributes that value.
    Without dry run, every comment added to the story created is one of
    these comments. *)
Theorem empty_comments_are_dropped :
  (forall r, comments_loop r [] = Some (comments_of r))
  /\ (forall r c, In c (comments_of r) -> c <> EmptyString)
  /\ (forall r1 kv r2,
       comments_of (r1 ++ kv :: r2)
       = (comments_of r1 ++ comment_of kv ++ comments_of r2)%list)
  /\ (forall key, comment_of (key, EmptyString) = [])
  /\ (forall key d a,
       PyStr.mem ";" d = false -> PyStr.mem ";" a = false ->
       JiraService.parse_comment (d ++ ";" ++ a ++ ";") = Some EmptyString
       /\ comment_of (key, (d ++ ";" ++ a ++ ";")%string) = [])
  /\ (forall key value,
       JiraService.parse_comment value = Some EmptyString ->
       comment_of (key, value) = [])
  /\ (forall key value parsed,
       value <> EmptyString ->
       PyStr.contains "Comment" key = true ->
       JiraService.parse_comment value = Some parsed ->
       parsed <> EmptyString ->
       comment_of (key, value) = [parsed])
  /\ (DRY_RUN e = false ->
     forall taiga_statuses r s (st : state W),
       exists new,
         log (snd (main_row e jira_service taiga_service markdown
                     taiga_statuses r s st))
         = (log st ++ new)%list
         /\ forall story txt reply,
             In (StoryAddComment story txt, reply) new ->
             In txt (comments_of r) /\ txt <> EmptyString).
Proof.
  split; [intros r; apply (comments_loop_spec r [])|].
  assert (Htruthy : forall r c, In c (comments_of r) -> c <> EmptyString).
  { intros r c H. unfold comments_of in H. apply in_flat_map in H as (kv & _ & H).
    eapply comment_of_truthy; exact H. }
  split; [exact Htruthy|].
  split.
  { intros r1 kv r2. unfold comments_of. rewrite flat_map_app. reflexivity. }
  split; [reflexivity|].
  assert (Hempty : forall key value,
             JiraService.parse_comment value = Some EmptyString ->
             comment_of (key, value) = []).
  { intros key value H. unfold comment_of. rewrite H.
    destruct (PyStr.truthy value && _); reflexivity. }
  split.
  { intros key d a Hd Ha.
    assert (H : JiraService.parse_comment (d ++ ";" ++ a ++ ";") = Some EmptyString).
    { change (d ++ ";" ++ a ++ ";")%string
        with (d ++ String ";" (a ++ String ";" EmptyString))%string.
      rewrite (parse_comment_descriptor d a EmptyString Hd Ha). reflexivity. }
    split; [exact H | apply Hempty; exact H]. }
  split; [exact Hempty|].
  split.
  { intros key value parsed Hv Hk Hp Hne. unfold comment_of.
    rewrite Hp, Hk. destruct value; [contradiction|].
    destruct parsed; [contradiction|]. reflexivity. }
  intros Hdry ts r s st.
  destruct (main_row_run ts r s st Hdry) as (s' & st' & new & E & L & _ & _ & Hc).
  exists new. rewrite E. split; [exact L|].
  intros story txt reply Hin. apply Hc in Hin. split; [exact Hin|].
  eapply Htruthy; exact Hin.
Qed.

End WithCollaborator.

End MigrateFacts.

(** ** Witnesses and counterexamples of the migration loop *)

Module MigrateExamples.

Import Collab Eff TaigaService Migrate MigrateFacts.

(** C3: with the download of attachments enabled, on a project whose
    uploads raise, the row with one attachment ends as failed and the file
    that was downloaded is still there: [unlink] is not reached when
    [attach_file] raises.  When the upload returns, the file is removed. *)
Theorem upload_failure_leaves_file :
  (let res :=
     main_row (collab := Mock.collaborator false) Examples.env_run
       Examples.jira Examples.taiga Examples.markdown_id []
       Examples.row_with_attachment Examples.stats0
       (Mock.start Examples.upload_fails) in
   fst res = Ok (Stats 0 1)
   /\ map fst (log (snd res))
      = [AddUserStory "Login fails" "**bold**" None (Some 11%Z);
         StoryAddComment 1 "first";
         SessionGet "https://jira/att/1" "attachments/shot.png";
         StoryAttach 1 "attachments/shot.png"]
   /\ map snd (log (snd res)) = [Some 1%Z; Some 2%Z; Some 3%Z; None]
   /\ files (snd res) = ["attachments/shot.png"%string])
  /\ (let res :=
        main_row (collab := Mock.collaborator false) Examples.env_run
          Examples.jira Examples.taiga Examples.markdown_id []
          Examples.row_with_attachment Examples.stats0
          (Mock.start Examples.empty_project) in
      fst res = Ok (Stats 1 0) /\ files (snd res) = []).
Proof.
  split; vm_compute; repeat split; reflexivity.
Qed.



(** The making of the directory is no call: on a system where it cannot
    be made, the row with an attachment ends as failed after calls that
    all returned. *)
Lemma failed_counts_directory_failures :
  let res :=
    main_rows (collab := Mock.collaborator_on false false Written)
      Examples.env_run Examples.jira Examples.taiga Examples.markdown_id []
      [Examples.row_with_attachment] Examples.stats0
      (Mock.start Examples.empty_project) in
  fst res = Ok (Stats 0 1)
  /\ map fst (log (snd res))
     = [AddUserStory "Login fails" "**bold**" None (Some 11%Z);
        StoryAddComment 1 "first"]
  /\ count_raised (log (snd res)) = 0.
Proof.
  vm_compute. repeat split; reflexivity.
Qed.

(** Witness of C8 *)
Lemma dry_run_makes_no_call_witness :
  DRY_RUN Examples.env_dry = true
  /\ main_row (collab := Mock.collaborator false) Examples.env_dry
       Examples.jira Examples.taiga Examples.markdown_id []
       Examples.row_with_attachment Examples.stats0
       (Mock.start Examples.upload_fails)
     = (Ok Examples.stats0, Mock.start Examples.upload_fails).
Proof.
  split; [reflexivity|].
  apply (dry_run_makes_no_call (collab := Mock.collaborator false)
           Examples.env_dry Examples.jira Examples.taiga Examples.markdown_id
           eq_refl).
Defined.

(** Witness of C10: the descriptor with an empty body, and the comments
    that a run adds. *)
Lemma empty_comments_are_dropped_witness :
  (PyStr.mem ";" "2024-01-02" = false /\ PyStr.mem ";" "bob" = false
   /\ comment_of ("Comment.1"%string, "2024-01-02;bob;"%string) = [])
  /\ (DRY_RUN Examples.env_run = false
      /\ exists new,
           log (snd (main_row (collab := Mock.collaborator false)
                       Examples.env_run Examples.jira Examples.taiga
                       Examples.markdown_id [] Examples.row_with_attachment
                       Examples.stats0 (Mock.start Examples.empty_project)))
           = (log (Mock.start Examples.empty_project) ++ new)%list
           /\ forall story txt reply,
               In (StoryAddComment story txt, reply) new ->
               In txt (comments_of Examples.row_with_attachment)
               /\ txt <> EmptyString).
Proof.
  pose proof (empty_comments_are_dropped (collab := Mock.collaborator false)
                Examples.env_run Examples.jira Examples.taiga
                Examples.markdown_id)
    as (_ & _ & _ & _ & Hd & _ & _ & Hrun).
  split.
  - split; [reflexivity|]. split; [reflexivity|].
    apply (Hd "Comment.1"%string "2024-01-02"%string "bob"%string); reflexivity.
  - split; [reflexivity|]. apply Hrun. reflexivity.
Defined.

End MigrateExamples.

(** * Further properties of the code *)

(** ** The assignee lookup and the cache of users *)

Module LookupFacts.

Import TaigaService AssigneeFacts.

Lemma fuzzy_scan_in : forall name cache id,
  fuzzy_scan name cache = Some id -> exists k, In (k, id) cache.
Proof.
  intros name cache id; induction cache as [|[k uid] cache IH]; simpl;
    [discriminate|].
  destruct (_ || _).
  - intros H; inversion H; subst. exists k; left; reflexivity.
  - intros H. destruct (IH H) as [k' Hk']. exists k'; right; exact Hk'.
Qed.

(** The assignee of a story is always a user of the cache: whatever tier
    answers, the identifier is the value of some key of [users_cache]. *)
Theorem assignee_lookup_from_cache : forall self assignee_full_name id,
  assignee_lookup self assignee_full_name = Some id ->
  exists k, In (k, id) (users_cache self).
Proof.
  intros self [name|] id; unfold assignee_lookup; [|discriminate].
  destruct (Dict.get name (users_cache self)) as [id0|] eqn:E0.
  - assert (H0 : exists k, In (k, id0) (users_cache self))
      by (exists name; apply dict_get_in; exact E0).
    destruct (negb (truthy_id (Some id0)) && PyStr.truthy name).
    + destruct (Dict.get name (manual_user_map self)) as [mapped|].
      * destruct (PyStr.truthy mapped).
        -- destruct (Dict.get mapped (users_cache self)) as [id1|] eqn:E1.
           ++ destruct (negb (truthy_id (Some id1))).
              ** destruct (fuzzy_scan name (users_cache self)) as [uid|] eqn:Ef;
                   intros H; inversion H; subst.
                 --- eapply fuzzy_scan_in; exact Ef.
                 --- exists mapped; apply dict_get_in; exact E1.
              ** intros H; inversion H; subst.
                 exists mapped; apply dict_get_in; exact E1.
           ++ cbn [truthy_id negb].
              destruct (fuzzy_scan name (users_cache self)) as [uid|] eqn:Ef;
                intros H; inversion H; subst.
              eapply fuzzy_scan_in; exact Ef.
        -- destruct (negb (truthy_id (Some id0))).
           ++ destruct (fuzzy_scan name (users_cache self)) as [uid|] eqn:Ef;
                intros H; inversion H; subst; [|exact H0].
              eapply fuzzy_scan_in; exact Ef.
           ++ intros H; inversion H; subst; exact H0.
      * destruct (negb (truthy_id (Some id0))).
        -- destruct (fuzzy_scan name (users_cache self)) as [uid|] eqn:Ef;
             intros H; inversion H; subst; [|exact H0].
           eapply fuzzy_scan_in; exact Ef.
        -- intros H; inversion H; subst; exact H0.
    + intros H; inversion H; subst; exact H0.
  - cbn [truthy_id negb andb].
    destruct (PyStr.truthy name); [|discriminate].
    destruct (Dict.get name (manual_user_map self)) as [mapped|].
    + destruct (PyStr.truthy mapped).
      * destruct (Dict.get mapped (users_cache self)) as [id1|] eqn:E1.
        -- destruct (negb (truthy_id (Some id1))).
           ++ destruct (fuzzy_scan name (users_cache self)) as [uid|] eqn:Ef;
                intros H; inversion H; subst.
              ** eapply fuzzy_scan_in; exact Ef.
              ** exists mapped; apply dict_get_in; exact E1.
           ++ intros H; inversion H; subst.
              exists mapped; apply dict_get_in; exact E1.
        -- cbn [truthy_id negb].
           destruct (fuzzy_scan name (users_cache self)) as [uid|] eqn:Ef;
             intros H; inversion H; subst.
           eapply fuzzy_scan_in; exact Ef.
      * cbn [truthy_id negb].
        destruct (fuzzy_scan name (users_cache self)) as [uid|] eqn:Ef;
          intros H; inversion H; subst.
        eapply fuzzy_scan_in; exact Ef.
    + cbn [truthy_id negb].
      destruct (fuzzy_scan name (users_cache self)) as [uid|] eqn:Ef;
        intros H; inversion H; subst.
      eapply fuzzy_scan_in; exact Ef.
Qed.

(** Witness: a name found by the fuzzy tier *)
Lemma assignee_lookup_from_cache_witness :
  assignee_lookup Examples.taiga (Some "bob"%string) = Some 12%Z
  /\ exists k, In (k, 12%Z) (users_cache Examples.taiga).
Proof.
  split; [reflexivity|].
  apply (assignee_lookup_from_cache Examples.taiga (Some "bob"%string) 12%Z).
  reflexivity.
Defined.

End LookupFacts.

Module CacheFacts.

Import TaigaService AssigneeFacts.

Lemma dict_get_set_same : forall (V : Type) k (v : V) d,
  Dict.get k (Dict.set k v d) = Some v.
Proof.
  intros V k v d; induction d as [|[k' v'] d IH]; simpl.
  - rewrite String.eqb_refl. reflexivity.
  - destruct (k' =? k)%string eqn:E; simpl.
    + rewrite String.eqb_refl. reflexivity.
    + rewrite E. exact IH.
Qed.

Lemma dict_get_set_other : forall (V : Type) k k' (v : V) d,
  k' <> k -> Dict.get k' (Dict.set k v d) = Dict.get k' d.
Proof.
  intros V k k' v d Hne; induction d as [|[k0 v0] d IH]; simpl.
  - apply String.eqb_neq in Hne. rewrite String.eqb_sym, Hne. reflexivity.
  - destruct (k0 =? k)%string eqn:E; simpl.
    + apply String.eqb_eq in E; subst k0.
      apply String.eqb_neq in Hne. rewrite String.eqb_sym, Hne. reflexivity.
    + destruct (k0 =? k')%string; [reflexivity | exact IH].
Qed.

(** An assignment keeps the keys that are there. *)
Lemma dict_set_keeps : forall (V : Type) k k' (v : V) d,
  Dict.get k' d <> None -> Dict.get k' (Dict.set k v d) <> None.
Proof.
  intros V k k' v d H. destruct (string_dec k' k) as [->|Hne].
  - rewrite dict_get_set_same. discriminate.
  - rewrite dict_get_set_other by exact Hne. exact H.
Qed.

Lemma fill_keeps : forall memberships cache k,
  Dict.get k cache <> None ->
  Dict.get k (fill_users_cache memberships cache) <> None.
Proof.
  induction memberships as [|m ms IH]; intros cache k H; simpl; [exact H|].
  apply IH.
  assert (H1 : Dict.get k
            match full_name m with
            | Some n => if PyStr.truthy n then Dict.set n (user m) cache else cache
            | None => cache
            end <> None).
  { destruct (full_name m) as [n|]; [|exact H].
    destruct (PyStr.truthy n); [apply dict_set_keeps|]; exact H. }
  destruct (username m) as [u|]; [|exact H1].
  destruct (PyStr.truthy u); [|exact H1].
  apply dict_set_keeps, dict_set_keeps. exact H1.
Qed.

Lemma fill_provenance : forall memberships cache k id,
  In (k, id) (fill_users_cache memberships cache) ->
  In (k, id) cache \/ exists m, In m memberships /\ user m = id.
Proof.
  induction memberships as [|m ms IH]; intros cache k id H; simpl in H; [auto|].
  apply IH in H as [H|(m' & Hm' & Hu)]; [|right; exists m'; split; [right|]; auto].
  assert (Hm : exists m0, In m0 (m :: ms) /\ user m0 = user m)
    by (exists m; split; [left|]; reflexivity).
  assert (H1 : forall k id,
             In (k, id)
                match full_name m with
                | Some n => if PyStr.truthy n then Dict.set n (user m) cache else cache
                | None => cache
                end ->
             In (k, id) cache \/ id = user m).
  { intros k0 id0 H0. destruct (full_name m) as [n|]; [|auto].
    destruct (PyStr.truthy n); [|auto].
    apply dict_set_in in H0 as [H0|H0]; [inversion H0; auto | auto]. }
  destruct (username m) as [u|].
  - destruct (PyStr.truthy u).
    + apply dict_set_in in H as [H|H].
      { inversion H; subst. right; exact Hm. }
      apply dict_set_in in H as [H|H].
      { inversion H; subst. right; exact Hm. }
      apply H1 in H as [H|H]; [auto | subst; right; exact Hm].
    + apply H1 in H as [H|H]; [auto | subst; right; exact Hm].
  - apply H1 in H as [H|H]; [auto | subst; right; exact Hm].
Qed.

Lemma fill_step_full_name : forall m ms cache n,
  full_name m = Some n -> n <> EmptyString ->
  Dict.get n (fill_users_cache (m :: ms) cache) <> None.
Proof.
  intros m ms cache n Hn Hne. simpl. apply fill_keeps. rewrite Hn.
  rewrite (truthy_nonempty n Hne).
  destruct (username m) as [u|].
  - destruct (PyStr.truthy u).
    + apply dict_set_keeps, dict_set_keeps. rewrite dict_get_set_same. discriminate.
    + rewrite dict_get_set_same. discriminate.
  - rewrite dict_get_set_same. discriminate.
Qed.

Lemma fill_step_username : forall m ms cache u,
  username m = Some u -> u <> EmptyString ->
  Dict.get u (fill_users_cache (m :: ms) cache) <> None
  /\ Dict.get ("@" ++ u) (fill_users_cache (m :: ms) cache) <> None.
Proof.
  intros m ms cache u Hu Hne. simpl. rewrite Hu, (truthy_nonempty u Hne).
  split; apply fill_keeps.
  - rewrite dict_get_set_same. discriminate.
  - apply dict_set_keeps. rewrite dict_get_set_same. discriminate.
Qed.

(** The cache that [connect_project] fills from the memberships: every
    member with a full name is a key of it, every member whose account has
    a username is a key by that username and by "@" and the username, and
    every identifier of the cache is the user of a member. *)
Theorem users_cache_covers_members : forall memberships,
  (forall m n, In m memberships -> full_name m = Some n -> n <> EmptyString ->
     exists id, Dict.get n (fill_users_cache memberships []) = Some id)
  /\ (forall m u, In m memberships -> username m = Some u -> u <> EmptyString ->
       (exists id, Dict.get u (fill_users_cache memberships []) = Some id)
       /\ (exists id, Dict.get ("@" ++ u) (fill_users_cache memberships []) = Some id))
  /\ (forall k id, Dict.get k (fill_users_cache memberships []) = Some id ->
       exists m, In m memberships /\ user m = id).
Proof.
  intros memberships.
  assert (Hsome : forall (o : option Z), o <> None -> exists id, o = Some id)
    by (intros [id|] H; [eauto | contradiction]).
  assert (Hgen : forall ms cache m,
             In m ms ->
             (forall n, full_name m = Some n -> n <> EmptyString ->
                Dict.get n (fill_users_cache ms cache) <> None)
             /\ (forall u, username m = Some u -> u <> EmptyString ->
                   Dict.get u (fill_users_cache ms cache) <> None
                   /\ Dict.get ("@" ++ u) (fill_users_cache ms cache) <> None)).
  { induction ms as [|m0 ms IH]; intros cache m Hin; [contradiction|].
    destruct Hin as [->|Hin].
    - split; intros; [eapply fill_step_full_name | eapply fill_step_username];
        eassumption.
    - simpl. apply IH; exact Hin. }
  split; [|split].
  - intros m n Hin Hn Hne. apply Hsome.
    apply (proj1 (Hgen memberships [] m Hin) n Hn Hne).
  - intros m u Hin Hu Hne.
    destruct (proj2 (Hgen memberships [] m Hin) u Hu Hne) as [H1 H2].
    split; apply Hsome; assumption.
  - intros k id H. apply dict_get_in in H.
    apply fill_provenance in H as [[]|H]. exact H.
Qed.

(** Witness: the members of the examples *)
Lemma users_cache_covers_members_witness :
  exists id, Dict.get "Alice Smith" (fill_users_cache Examples.members []) = Some id.
Proof.
  destruct (users_cache_covers_members Examples.members) as [H _].
  apply (H (TaigaService.Membership (Some "Alice Smith"%string) 11%Z (Some "alice"%string))).
  - left; reflexivity.
  - reflexivity.
  - discriminate.
Defined.

Lemma cache_wf_nil : cache_wf [].
Proof. intros k id []. Qed.

(** Witness of [fill_users_cache_wf] *)
Lemma fill_users_cache_wf_witness :
  (forall m, In m Examples.members -> user m <> 0%Z)
  /\ cache_wf (fill_users_cache Examples.members []).
Proof.
  assert (H : forall m, In m Examples.members -> user m <> 0%Z).
  { intros m Hm. simpl in Hm.
    repeat (destruct Hm as [Hm|Hm]; [subst m; discriminate|]). contradiction. }
  split; [exact H|].
  apply (fill_users_cache_wf Examples.members [] H cache_wf_nil).
Defined.

End CacheFacts.

(** ** The keys of [slugify] *)

Module KeyFacts.

Import Re TaigaService SlugFacts.

Lemma lower_char_idem : forall c,
  PyStr.lower_char (PyStr.lower_char c) = PyStr.lower_char c.
Proof. intros [[] [] [] [] [] [] [] []]; vm_compute; reflexivity. Qed.

Lemma lower_idem : forall s, PyStr.lower (PyStr.lower s) = PyStr.lower s.
Proof.
  induction s as [|c s IH]; simpl; [reflexivity|].
  rewrite lower_char_idem, IH. reflexivity.
Qed.

Lemma key_char_cases : forall c,
  key_char c = true -> slug_char c = true \/ (slug_char c = false /\ c = "-").
Proof.
  intros c H. unfold key_char in H. destruct (slug_char c); [auto|].
  right; split; [reflexivity|]. apply Ascii.eqb_eq. exact H.
Qed.

(** A string of key characters without two hyphens in a row has the shape
    of a key. *)
Lemma form_of_chars : forall s b,
  PyStr.all key_char s = true ->
  PyStr.contains "--" s = false ->
  (b = true -> PyStr.first s <> Some "-") ->
  slug_form b s = true.
Proof.
  induction s as [|c s IH]; intros b Hall Hno Hb; [reflexivity|].
  cbn [PyStr.all] in Hall. apply andb_true_iff in Hall as [Hc Hall].
  cbn [PyStr.contains] in Hno. apply orb_false_iff in Hno as [Hpre Hno].
  cbn [slug_form].
  destruct (key_char_cases c Hc) as [Hs|[Hs ->]]; rewrite Hs.
  - apply IH; [exact Hall | exact Hno | discriminate].
  - rewrite Ascii.eqb_refl. destruct b.
    + exfalso. apply Hb; reflexivity.
    + simpl. apply IH; [exact Hall | exact Hno |].
      intros _ Hf. destruct s as [|d s]; [discriminate|].
      simpl in Hf. inversion Hf; subst d.
      cbn in Hpre. destruct s; discriminate.
Qed.

Lemma prefix_double_hyphen : forall c s,
  prefix "--" (String c s) = true -> c = "-" /\ PyStr.first s = Some "-".
Proof.
  intros c s H. destruct s as [|d s]; cbn [prefix] in H.
  - destruct (ascii_dec "-" c); discriminate.
  - destruct (ascii_dec "-" c) as [<-|]; [|discriminate].
    destruct (ascii_dec "-" d) as [<-|]; [|discriminate].
    split; reflexivity.
Qed.

Lemma form_no_double_hyphen : forall s b,
  slug_form b s = true -> PyStr.contains "--" s = false.
Proof.
  induction s as [|c s IH]; intros b H; [reflexivity|].
  cbn [PyStr.contains]. cbn [slug_form] in H.
  destruct (prefix "--" (String c s)) eqn:Ep.
  - exfalso. apply prefix_double_hyphen in Ep as [-> Hf].
    simpl in H. apply andb_true_iff in H as [_ Hrest].
    destruct s as [|d s]; [discriminate|].
    simpl in Hf. inversion Hf; subst d. simpl in Hrest. discriminate.
  - simpl. destruct (slug_char c).
    + exact (IH false H).
    + apply andb_true_iff in H as [_ Hrest]. exact (IH true Hrest).
Qed.

Lemma form_first : forall s, slug_form true s = true -> PyStr.first s <> Some "-".
Proof.
  intros [|c s] H; [discriminate|]. simpl in *.
  destruct (slug_char c) eqn:Hs.
  - intros Hf; inversion Hf; subst c. discriminate.
  - rewrite andb_false_r in H. discriminate.
Qed.

(** The keys are the fixed points of [slugify], and they are the strings
    of a-z, 0-9 and hyphens that neither begin nor end with a hyphen and
    have no two hyphens in a row; the case of the input does not matter to
    its key. *)
Theorem slugify_fixed_points : forall s,
  (slugify s = s <->
   PyStr.all key_char s = true
   /\ PyStr.first s <> Some "-"
   /\ PyStr.last s <> Some "-"
   /\ PyStr.contains "--" s = false)
  /\ slugify (PyStr.lower s) = slugify s.
Proof.
  intros s. split.
  - split.
    + intros H. pose proof (slugify_form s) as Hf. rewrite H in Hf.
      split; [eapply form_all; exact Hf|].
      split; [apply form_first; exact Hf|].
      split; [|eapply form_no_double_hyphen; exact Hf].
      rewrite <- H. rewrite slugify_collapse. unfold PyStr.strip. intros Hl.
      apply last_rstrip in Hl. discriminate.
    + intros (Hall & Hfirst & Hlast & Hno).
      assert (Hf : slug_form true s = true)
        by (apply form_of_chars; auto).
      rewrite slugify_collapse.
      rewrite (form_lower_fix _ _ Hf).
      rewrite (form_collapse_fix _ _ (slug_form_weaken _ Hf)).
      unfold PyStr.strip.
      rewrite (lstrip_fix _ s).
      * apply rstrip_fix. intros c Hc. rewrite mem_hyphen.
        apply Ascii.eqb_neq. intros ->. exact (Hlast Hc).
      * intros c Hc. rewrite mem_hyphen.
        apply Ascii.eqb_neq. intros ->. exact (Hfirst Hc).
  - unfold slugify. rewrite lower_idem. reflexivity.
Qed.

(** Witness: a key *)
Lemma slugify_fixed_points_witness : slugify "ready-for-prod" = "ready-for-prod"%string.
Proof.
  destruct (slugify_fixed_points "ready-for-prod") as [[_ H] _].
  apply H. repeat split; try reflexivity; discriminate.
Defined.

End KeyFacts.

(** ** Comments and the converter *)

Module CommentFacts.

Import Re JiraService Migrate MigrateFacts.

Lemma split_max_plain : forall sep a n,
  PyStr.mem sep a = false -> PyStr.split_max sep a n = [a].
Proof.
  intros sep a; induction a as [|c a IH]; intros [|m] H; try reflexivity.
  apply not_mem_eqb in H as [Hc Ha].
  cbn [PyStr.split_max]. rewrite Hc, (IH (S m) Ha). reflexivity.
Qed.

Lemma split_max_one_sep : forall sep d a,
  PyStr.mem sep d = false -> PyStr.mem sep a = false ->
  PyStr.split_max sep (d ++ String sep a) 2 = [d; a].
Proof.
  intros sep d a; induction d as [|c d IH]; intros Hd Ha.
  - cbn [append PyStr.split_max]. rewrite Ascii.eqb_refl.
    rewrite (split_max_plain sep a 1 Ha). reflexivity.
  - apply not_mem_eqb in Hd as [Hc Hd].
    cbn [append PyStr.split_max]. rewrite Hc, (IH Hd Ha). reflexivity.
Qed.

Lemma mem_cons_false : forall sep c s,
  (c =? sep) = false -> PyStr.mem sep s = false -> PyStr.mem sep (String c s) = false.
Proof.
  intros sep c s Hc Hs. simpl. rewrite Ascii.eqb_sym, Hc, Hs. reflexivity.
Qed.

Lemma split_max1_inv : forall sep s a rest,
  PyStr.split_max sep s 1 = [a; rest] ->
  s = (a ++ String sep rest)%string /\ PyStr.mem sep a = false.
Proof.
  intros sep s; induction s as [|c s IH]; intros a rest H; [discriminate|].
  cbn [PyStr.split_max] in H. destruct (c =? sep) eqn:Ec.
  - apply Ascii.eqb_eq in Ec; subst c.
    destruct s; inversion H; subst; split; reflexivity.
  - destruct (PyStr.split_max sep s 1) as [|h t] eqn:E; [discriminate|].
    injection H as Ha Ht. subst a t.
    destruct (IH h rest eq_refl) as [-> Hh].
    split; [reflexivity | apply mem_cons_false; assumption].
Qed.

(** Three parts of [split(sep, 2)] are the text before the first
    separator, the text between the first two, and the rest. *)
Lemma split_max2_inv : forall sep s d a body,
  PyStr.split_max sep s 2 = [d; a; body] ->
  s = (d ++ String sep (a ++ String sep body))%string
  /\ PyStr.mem sep d = false /\ PyStr.mem sep a = false.
Proof.
  intros sep s; induction s as [|c s IH]; intros d a body H; [discriminate|].
  cbn [PyStr.split_max] in H. destruct (c =? sep) eqn:Ec.
  - apply Ascii.eqb_eq in Ec; subst c.
    injection H as <- H.
    apply split_max1_inv in H as [-> Ha]. repeat split; auto.
  - destruct (PyStr.split_max sep s 2) as [|h t] eqn:E; [discriminate|].
    injection H as Hd Ht. subst d t.
    destruct (IH h a body eq_refl) as (-> & Hh & Ha).
    repeat split; [apply mem_cons_false; assumption | exact Ha].
Qed.

(** [parse_comment] on the three forms of a field: with two semicolons or
    more the body after the second, whatever it contains, is converted;
    with one or none the whole field is. *)
Theorem parse_comment_forms :
  (forall d a body,
     PyStr.mem ";" d = false -> PyStr.mem ";" a = false ->
     parse_comment (d ++ ";" ++ a ++ ";" ++ body) = convert_markup body)
  /\ (forall d a,
        PyStr.mem ";" d = false -> PyStr.mem ";" a = false ->
        parse_comment (d ++ ";" ++ a) = convert_markup (d ++ ";" ++ a))
  /\ (forall raw,
        PyStr.mem ";" raw = false -> parse_comment raw = convert_markup raw).
Proof.
  split; [|split].
  - intros d a body Hd Ha.
    change (d ++ ";" ++ a ++ ";" ++ body)%string
      with (d ++ String ";" (a ++ String ";" body))%string.
    apply parse_comment_descriptor; assumption.
  - intros d a Hd Ha. unfold parse_comment.
    change (d ++ ";" ++ a)%string with (d ++ String ";" a)%string.
    rewrite (split_max_one_sep ";" d a Hd Ha).
    destruct d; reflexivity.
  - intros raw H. unfold parse_comment.
    rewrite (split_max_plain ";" raw 2 H).
    destruct raw; reflexivity.
Qed.

(** Witness: a body with semicolons *)
Lemma parse_comment_forms_witness :
  parse_comment "2024-01-01;alice;one; two; *three*"
  = convert_markup "one; two; *three*".
Proof.
  destruct parse_comment_forms as [H _].
  apply (H "2024-01-01"%string "alice"%string "one; two; *three*"%string);
    reflexivity.
Defined.

Lemma append_nonempty_l : forall a b, a <> EmptyString -> (a ++ b)%string <> EmptyString.
Proof. intros [|c a] b H; [contradiction | discriminate]. Qed.

Lemma append_nonempty_r : forall a b, b <> EmptyString -> (a ++ b)%string <> EmptyString.
Proof. intros [|c a] b H; [exact H | discriminate]. Qed.

Lemma sub_nonempty : forall r repl s,
  (forall g, repl g <> EmptyString) -> s <> EmptyString ->
  sub r repl s <> EmptyString.
Proof.
  intros r repl [|c s] Hr Hs; [contradiction|].
  unfold sub. cbn [scan].
  destruct (match_at r None (String c s)) as [[len g]|].
  - cbn [render]. apply append_nonempty_l, Hr.
  - cbn [render]. discriminate.
Qed.

Lemma sub_fn_nonempty : forall r repl s t,
  (forall g new, repl g = Some new -> new <> EmptyString) -> s <> EmptyString ->
  sub_fn r repl s = Some t -> t <> EmptyString.
Proof.
  intros r repl [|c s] t Hr Hs; [contradiction|].
  unfold sub_fn. cbn [scan].
  destruct (match_at r None (String c s)) as [[len g]|]; cbn [render_fn].
  - destruct (repl g) as [new|] eqn:Eg; [|discriminate].
    match goal with |- option_map _ ?x = _ -> _ => destruct x as [t'|] end;
      [|discriminate].
    simpl. intros H; inversion H; subst.
    apply append_nonempty_l. eapply Hr; exact Eg.
  - match goal with |- option_map _ ?x = _ -> _ => destruct x as [t'|] end;
      [|discriminate].
    simpl. intros H; inversion H; subst. discriminate.
Qed.

Lemma replace_nonempty : forall old new s,
  new <> EmptyString -> s <> EmptyString -> PyStr.replace old new s <> EmptyString.
Proof.
  intros old new [|c s] Hn Hs; [contradiction|].
  unfold PyStr.replace. cbn [PyStr.replace_from].
  destruct (prefix old (String c s)); [apply append_nonempty_l; exact Hn | discriminate].
Qed.

Lemma fix_link_nonempty : forall g new, fix_link g = Some new -> new <> EmptyString.
Proof.
  intros [inner|] new; unfold fix_link; [|discriminate].
  destruct (_ || _); [intros H; inversion H; discriminate|].
  destruct (Nat.eqb _ 1).
  - destruct (nth_error _ 0); [|discriminate]. intros H; inversion H; discriminate.
  - destruct (nth_error _ 0); [|discriminate].
    destruct (nth_error _ 1); [|discriminate]. intros H; inversion H; discriminate.
Qed.

Lemma bullet_repl_nonempty : forall g new, bullet_repl g = Some new -> new <> EmptyString.
Proof.
  intros [stars|] new; unfold bullet_repl; [|discriminate].
  intros H; inversion H. apply append_nonempty_r. discriminate.
Qed.

Lemma heading_repl_nonempty : forall g new, heading_repl g = Some new -> new <> EmptyString.
Proof.
  intros [d|] new; unfold heading_repl; [|discriminate].
  destruct (PyStr.int d); [|discriminate].
  intros H; inversion H. apply append_nonempty_r. discriminate.
Qed.

Lemma template_nonempty : forall pre post g,
  pre <> EmptyString -> template pre post g <> EmptyString.
Proof. intros pre post g H. unfold template. apply append_nonempty_l; exact H. Qed.

(** No pass of the converter empties a text. *)
Lemma convert_markup_nonempty : forall body t,
  body <> EmptyString -> convert_markup body = Some t -> t <> EmptyString.
Proof.
  intros body t Hb. unfold convert_markup.
  destruct body as [|c body]; [contradiction|]. cbn [PyStr.truthy negb].
  set (b1 := sub re_image _ _).
  assert (H1 : b1 <> EmptyString)
    by (apply sub_nonempty; [intros g; apply template_nonempty|]; discriminate).
  destruct (sub_fn re_link fix_link b1) as [b2|] eqn:E2; [|discriminate].
  assert (H2 : b2 <> EmptyString)
    by (eapply sub_fn_nonempty; [apply fix_link_nonempty | exact H1 | exact E2]).
  cbn [JiraService.bind].
  destruct (sub_fn re_bullets bullet_repl b2) as [b3|] eqn:E3; [|discriminate].
  assert (H3 : b3 <> EmptyString)
    by (eapply sub_fn_nonempty; [apply bullet_repl_nonempty | exact H2 | exact E3]).
  cbn [JiraService.bind].
  set (b4 := sub re_numbered _ b3).
  assert (H4 : b4 <> EmptyString)
    by (apply sub_nonempty; [intros g; discriminate | exact H3]).
  destruct (sub_fn re_heading heading_repl b4) as [b5|] eqn:E5; [|discriminate].
  assert (H5 : b5 <> EmptyString)
    by (eapply sub_fn_nonempty; [apply heading_repl_nonempty | exact H4 | exact E5]).
  cbn [JiraService.bind].
  intros H; inversion H; subst t.
  unfold code_blocks, icons.
  apply sub_nonempty; [intros g; discriminate|].
  apply replace_nonempty; [discriminate|].
  apply sub_nonempty; [intros g; apply template_nonempty; discriminate|].
  repeat (apply replace_nonempty; [discriminate|]).
  apply sub_nonempty; [intros g; apply template_nonempty; discriminate|].
  apply sub_nonempty; [intros g; apply template_nonempty; discriminate|].
  exact H5.
Qed.

(** A comment field is dropped exactly when its value is empty or is a
    descriptor "date;author;" with nothing after the second semicolon: a
    field with any text to convert gives a comment. *)
Theorem comment_dropped_iff : forall key value,
  PyStr.contains "Comment" key = true ->
  (comment_of (key, value) = [] <->
   value = EmptyString
   \/ exists d a,
        PyStr.mem ";" d = false /\ PyStr.mem ";" a = false
        /\ value = (d ++ ";" ++ a ++ ";")%string).
Proof.
  intros key value Hk. split.
  - unfold comment_of. rewrite Hk. cbn [orb].
    destruct value as [|c v]; [auto|]. cbn [PyStr.truthy andb].
    destruct (MarkupFacts.parse_comment_total (String c v)) as [p Hp]. rewrite Hp.
    destruct p as [|pc p]; [|discriminate]. intros _. right.
    unfold parse_comment in Hp. cbn [PyStr.truthy negb] in Hp.
    pose proof (MarkupFacts.split_max_length ";" (String c v) 2) as Hlen.
    destruct (PyStr.split_max ";" (String c v) 2) as [|d [|a [|body [|x l]]]] eqn:E;
      cbn [List.length Nat.ltb Nat.leb] in Hp.
    + exfalso. eapply convert_markup_nonempty; [|exact Hp|reflexivity]. discriminate.
    + exfalso. eapply convert_markup_nonempty; [|exact Hp|reflexivity]. discriminate.
    + exfalso. eapply convert_markup_nonempty; [|exact Hp|reflexivity]. discriminate.
    + destruct body as [|bc body].
      * apply split_max2_inv in E as (E & Hd & Ha). exists d, a. auto.
      * exfalso. eapply convert_markup_nonempty; [|exact Hp|reflexivity]. discriminate.
    + simpl in Hlen. lia.
  - intros [->|(d & a & Hd & Ha & ->)]; [reflexivity|].
    unfold comment_of.
    change (d ++ ";" ++ a ++ ";")%string
      with (d ++ String ";" (a ++ String ";" EmptyString))%string.
    rewrite (parse_comment_descriptor d a EmptyString Hd Ha).
    destruct (_ && _); reflexivity.
Qed.

(** Witness: a descriptor with an empty body *)
Lemma comment_dropped_iff_witness :
  PyStr.contains "Comment" "Comment.3" = true
  /\ comment_of ("Comment.3"%string, "2024-01-02;bob;"%string) = [].
Proof.
  split; [reflexivity|].
  apply (comment_dropped_iff "Comment.3" "2024-01-02;bob;" eq_refl).
  right. exists "2024-01-02"%string, "bob"%string. repeat split; reflexivity.
Defined.

End CommentFacts.

(** ** More on the status reconciliation *)

Module SyncMoreFacts.

Import Collab Eff EffFacts TaigaService SyncFacts CacheFacts.

Lemma placeholder_map : forall names d k,
  Dict.get k (fold_left (fun d s => Dict.set (slugify s) 1%Z d) names d)
  = if existsb (String.eqb k) (map slugify names) then Some 1%Z else Dict.get k d.
Proof.
  induction names as [|name names IH]; intros d k; [reflexivity|].
  cbn [fold_left map existsb]. rewrite IH.
  destruct (existsb (String.eqb k) (map slugify names)).
  - rewrite orb_true_r. reflexivity.
  - rewrite orb_false_r. destruct (String.eqb_spec k (slugify name)) as [->|Hne].
    + apply dict_get_set_same.
    + apply dict_get_set_other; exact Hne.
Qed.

Section WithCollaborator.

Context {W : Type} {collab : Collaborator W}.

(** Under [dry_run], [sync_statuses] on a connected project makes no call
    and changes nothing, whatever [reset] says, and returns the map whose
    keys are the slugs of the input, each with the identifier 1.  Without
    a connected project it raises before any call. *)
Theorem sync_statuses_dry_run : forall self csv_statuses reset (st : state W),
  (project_connected self = true ->
   exists status_map,
     sync_statuses self csv_statuses reset true st = (Ok status_map, st)
     /\ (forall name, In name csv_statuses ->
           Dict.get (slugify name) status_map = Some 1%Z)
     /\ (forall k, ~ In k (map slugify csv_statuses) ->
           Dict.get k status_map = None))
  /\ (project_connected self = false ->
      forall dry_run,
        sync_statuses self csv_statuses reset dry_run st = (Raised, st)).
Proof.
  intros self csv reset st. split.
  - intros Hc. eexists. unfold sync_statuses. rewrite Hc. cbn [negb].
    split; [reflexivity|]. split.
    + intros name Hin. rewrite placeholder_map.
      replace (existsb (String.eqb (slugify name)) (map slugify csv)) with true;
        [reflexivity|].
      symmetry. apply existsb_exists. exists (slugify name).
      split; [apply in_map; exact Hin | apply String.eqb_refl].
    + intros k Hk. rewrite placeholder_map.
      destruct (existsb (String.eqb k) (map slugify csv)) eqn:E; [|reflexivity].
      apply existsb_exists in E as (x & Hx & Ex).
      apply String.eqb_eq in Ex. subst x. contradiction.
  - intros Hc dry_run. unfold sync_statuses. rewrite Hc. reflexivity.
Qed.

(** The keys of the loop only grow, and a name of the input is missing
    from the map only if its creation was called and raised. *)
Lemma sync_loop_missing : forall names i m (st : state W) m' st',
  sync_loop i names m st = (Ok m', st') ->
  (forall k, Dict.get k m <> None -> Dict.get k m' <> None)
  /\ exists adds,
       log st' = (log st ++ adds)%list
       /\ forall j name,
            nth_error names j = Some name ->
            Dict.get (slugify name) m' <> None
            \/ In (status_call (i + j) name, None) adds.
Proof.
  induction names as [|name names IH]; intros i m st m' st' H.
  - simpl in H. inversion H; subst. split; [auto|].
    exists []. rewrite app_nil_r. split; [reflexivity|].
    intros [|j] n Hn; discriminate.
  - rewrite sync_step in H.
    destruct (find _ (us_statuses (world st))) as [s|].
    + destruct (IH _ _ _ _ _ H) as (Hk & adds & L & Hm).
      split; [intros k Hg; apply Hk, dict_set_keeps, Hg|].
      exists adds. split; [exact L|].
      intros [|j] n Hn.
      * inversion Hn; subst n. left. apply Hk.
        rewrite dict_get_set_same. discriminate.
      * destruct (Hm j n Hn) as [Hg|Hin]; [left; exact Hg|].
        right. replace (i + S j) with (S i + j) by lia. exact Hin.
    + destruct (IH _ _ _ _ _ H) as (Hk & adds & L & Hm).
      split.
      { intros k Hg. apply Hk.
        destruct (fst (perform _ (world st))); [apply dict_set_keeps|]; exact Hg. }
      exists ((status_call i name, fst (perform (status_call i name) (world st))) :: adds).
      split; [rewrite L; unfold after; simpl; rewrite <- app_assoc; reflexivity|].
      intros [|j] n Hn.
      * inversion Hn; subst n. replace (i + 0) with i by lia.
        destruct (fst (perform (status_call i name) (world st))) as [id|].
        -- left. apply Hk. rewrite dict_get_set_same. discriminate.
        -- right. left. reflexivity.
      * destruct (Hm j n Hn) as [Hg|Hin]; [left; exact Hg|].
        right. right. replace (i + S j) with (S i + j) by lia. exact Hin.
Qed.

(** Without [dry_run], on a connected project, [sync_statuses] returns a
    map that it also stores as [statuses_cache]; the slug of an input name
    is missing from the map only if the creation of that name was called
    and raised. *)
Theorem sync_statuses_missing_key : forall self csv_statuses reset (st : state W),
  project_connected self = true ->
  exists status_map st' new,
    sync_statuses self csv_statuses reset false st = (Ok status_map, st')
    /\ statuses_cache st' = status_map
    /\ log st' = (log st ++ new)%list
    /\ forall j name,
         nth_error csv_statuses j = Some name ->
         (exists id, Dict.get (slugify name) status_map = Some id)
         \/ In (status_call j name, None) new.
Proof.
  intros self csv reset st Hc.
  destruct (sync_statuses_run self csv reset st Hc)
    as (st1 & dels & m & st2 & _ & Ld & _ & E & R).
  destruct (sync_loop_missing _ _ _ _ _ _ E) as (_ & adds & L & Hm).
  exists m, (State (world st2) (log st2) (files st2) m), (dels ++ adds)%list.
  split; [exact R|]. split; [reflexivity|].
  split; [cbn [log]; rewrite L, Ld, app_assoc; reflexivity|].
  intros j name Hn. destruct (Hm j name Hn) as [Hg|Hin].
  - left. destruct (Dict.get (slugify name) m) as [id|]; [eauto | contradiction].
  - right. apply in_or_app. right. exact Hin.
Qed.

End WithCollaborator.

(** Witness of [sync_statuses_dry_run] *)
Lemma sync_statuses_dry_run_witness :
  project_connected Examples.taiga = true
  /\ exists status_map,
       sync_statuses (collab := Mock.collaborator false) Examples.taiga
         ["To Do"; "Dev Done"]%string true true
         (Mock.start Examples.project_with_todo)
       = (Ok status_map, Mock.start Examples.project_with_todo)
       /\ (forall name, In name ["To Do"; "Dev Done"]%string ->
             Dict.get (slugify name) status_map = Some 1%Z)
       /\ (forall k, ~ In k (map slugify ["To Do"; "Dev Done"]%string) ->
             Dict.get k status_map = None).
Proof.
  split; [reflexivity|].
  apply (sync_statuses_dry_run (collab := Mock.collaborator false)
           Examples.taiga ["To Do"; "Dev Done"]%string true
           (Mock.start Examples.project_with_todo)).
  reflexivity.
Defined.

(** Witness of [sync_statuses_missing_key] *)
Lemma sync_statuses_missing_key_witness :
  project_connected Examples.taiga = true
  /\ exists status_map st' new,
       sync_statuses (collab := Mock.collaborator false) Examples.taiga
         ["To Do"; "Done"]%string false false
         (Mock.start Examples.project_with_todo) = (Ok status_map, st')
       /\ statuses_cache st' = status_map
       /\ log st' = (log (Mock.start Examples.project_with_todo) ++ new)%list
       /\ forall j name,
            nth_error ["To Do"; "Done"]%string j = Some name ->
            (exists id, Dict.get (slugify name) status_map = Some id)
            \/ In (status_call j name, None) new.
Proof.
  split; [reflexivity|].
  apply (sync_statuses_missing_key (collab := Mock.collaborator false)).
  reflexivity.
Defined.

End SyncMoreFacts.

(** ** More on the creation of a story *)

Module StoryFacts.

Import Collab Eff EffFacts TaigaService Migrate MigrateFacts.

Section WithCollaborator.

Context {W : Type} {collab : Collaborator W}.
Variable self : service.

Lemma update_points_run : forall story points_value (st : state W),
  exists p,
    log (snd (update_points story points_value st)) = (log st ++ p)%list
    /\ List.length p <= 1
    /\ forallb is_update_points (map fst p) = true.
Proof.
  intros story pv st. unfold update_points, bind at 1, get_world.
  assert (Hnil : exists p : list (call * option Z),
             log st = (log st ++ p)%list /\ List.length p <= 1
             /\ forallb is_update_points (map fst p) = true).
  { exists []. rewrite app_nil_r. simpl. auto. }
  destruct pv as [v|]; [|exact Hnil].
  destruct (roles (world st)) as [|role rs]; [exact Hnil|].
  destruct (PyStr.truthy v); [|exact Hnil].
  destruct (find _ (points (world st))) as [p_obj|]; [|exact Hnil].
  unfold bind. rewrite invoke_after.
  exists [(StoryUpdatePoints story role (snd p_obj),
           fst (perform (StoryUpdatePoints story role (snd p_obj)) (world st)))].
  split; [|simpl; auto].
  unfold after. destruct (fst (perform _ (world st))); reflexivity.
Qed.

Lemma add_comment_step : forall txt comment_map story (st : state W),
  for_each (txt :: comment_map) (fun txt =>
    bind (invoke (StoryAddComment story txt)) (fun _ => ret tt)) st
  = match fst (perform (StoryAddComment story txt) (world st)) with
    | Some _ =>
        for_each comment_map (fun txt =>
          bind (invoke (StoryAddComment story txt)) (fun _ => ret tt))
          (after (StoryAddComment story txt) st)
    | None => (Raised, after (StoryAddComment story txt) st)
    end.
Proof.
  intros. cbn [for_each]. unfold bind at 1, bind at 1. rewrite invoke_after.
  destruct (fst (perform (StoryAddComment story txt) (world st))); reflexivity.
Qed.

(** The comments are added in the order of [comment_map], up to the first
    that raises. *)
Lemma add_comments_run : forall comment_map story (st : state W),
  exists new,
    log (snd (for_each comment_map (fun txt =>
                bind (invoke (StoryAddComment story txt)) (fun _ => ret tt)) st))
    = (log st ++ new)%list
    /\ map fst new
       = map (StoryAddComment story) (firstn (List.length new) comment_map)
    /\ (fst (for_each comment_map (fun txt =>
               bind (invoke (StoryAddComment story txt)) (fun _ => ret tt)) st)
        = Ok tt -> List.length new = List.length comment_map).
Proof.
  induction comment_map as [|txt cm IH]; intros story st.
  - exists []. simpl. rewrite app_nil_r. auto.
  - rewrite add_comment_step.
    destruct (fst (perform (StoryAddComment story txt) (world st))) as [v|] eqn:Er.
    + destruct (IH story (after (StoryAddComment story txt) st))
        as (new & L & Hm & Hl).
      exists ((StoryAddComment story txt, Some v) :: new).
      split; [rewrite L; unfold after; cbn [log]; rewrite Er, <- app_assoc; reflexivity|].
      split; [cbn [List.length firstn map fst]; rewrite Hm; reflexivity|].
      intros Hok. cbn [List.length]. rewrite (Hl Hok). reflexivity.
    + exists [(StoryAddComment story txt, None)].
      split; [unfold after; cbn [log snd]; rewrite Er; reflexivity|].
      split; [reflexivity | discriminate].
Qed.

Lemma create_story_eq :
  forall title description status_id assignee points_value comment_map (st : state W),
    create_story self title description status_id assignee points_value
      comment_map false st
    = let c0 := AddUserStory title description status_id
                  (assignee_lookup self assignee) in
      match fst (perform c0 (world st)) with
      | None => (Raised, after c0 st)
      | Some story =>
          match update_points story points_value (after c0 st) with
          | (Raised, st2) => (Raised, st2)
          | (Ok _, st2) =>
              match for_each comment_map (fun txt =>
                      bind (invoke (StoryAddComment story txt)) (fun _ => ret tt))
                      st2 with
              | (Raised, st3) => (Raised, st3)
              | (Ok _, st3) => (Ok (Some story), st3)
              end
          end
      end.
Proof.
  intros. unfold create_story, try_except. unfold bind at 1.
  rewrite invoke_after. cbv zeta.
  destruct (fst (perform _ (world st))) as [story|]; [|reflexivity].
  unfold bind at 1.
  destruct (update_points story points_value _) as [[[]|] st2]; [|reflexivity].
  unfold bind at 1.
  destruct (for_each comment_map _ st2) as [[[]|] st3]; reflexivity.
Qed.

(** The calls of [create_story]: when the creation of the story raises,
    it is the only call; when [create_story] returns, its calls are the
    creation, at most one update of the points, and the comments of
    [comment_map], all of them and in their order. *)
Theorem create_story_calls :
  forall title description status_id assignee points_value comment_map (st : state W),
    let c0 := AddUserStory title description status_id
                (assignee_lookup self assignee) in
    let res := create_story self title description status_id assignee
                 points_value comment_map false st in
    (fst (perform c0 (world st)) = None -> res = (Raised, after c0 st))
    /\ (forall o, fst res = Ok o ->
          exists story pts new,
            o = Some story
            /\ fst (perform c0 (world st)) = Some story
            /\ log (snd res) = (log st ++ new)%list
            /\ map fst new
               = (c0 :: pts ++ map (StoryAddComment story) comment_map)%list
            /\ List.length pts <= 1
            /\ forallb is_update_points pts = true).
Proof.
  intros title description status_id assignee pv cm st c0 res.
  subst res. rewrite create_story_eq. cbv zeta. fold c0.
  destruct (fst (perform c0 (world st))) as [story|] eqn:Er.
  - split; [discriminate|].
    destruct (update_points_run story pv (after c0 st)) as (p & Lp & Hlen & Hp).
    destruct (update_points story pv (after c0 st)) as [[[]|] st2];
      cbn [fst snd] in *; [|intros o Ho; discriminate].
    destruct (add_comments_run cm story st2) as (new & L & Hm & Hl).
    destruct (for_each cm _ st2) as [[[]|] st3]; cbn [fst snd] in *;
      [|intros o Ho; discriminate].
    intros o Ho. inversion Ho; subst o.
    exists story, (map fst p), ((c0, Some story) :: p ++ new)%list.
    split; [reflexivity|]. split; [reflexivity|].
    split; [rewrite L, Lp; unfold after; cbn [log]; rewrite Er, <- !app_assoc;
            reflexivity|].
    split.
    { cbn [map fst]. rewrite map_app, Hm, (Hl eq_refl), firstn_all. reflexivity. }
    split; [rewrite length_map; exact Hlen | exact Hp].
  - split; [reflexivity|]. intros o Ho; discriminate.
Qed.

End WithCollaborator.

(** Witness: the story of a row with one comment *)
Lemma create_story_calls_witness :
  let st := Mock.start Examples.empty_project in
  let res := create_story (collab := Mock.collaborator false) Examples.taiga
               "Login fails" "text" None (Some "Alice Smith"%string) None
               ["first"; "second"]%string false st in
  fst res = Ok (Some 1%Z)
  /\ exists story pts new,
       Some 1%Z = Some story
       /\ fst (perform (Collaborator := Mock.collaborator false)
                 (AddUserStory "Login fails" "text" None
                    (assignee_lookup Examples.taiga (Some "Alice Smith"%string)))
                 (world st)) = Some story
       /\ log (snd res) = (log st ++ new)%list
       /\ map fst new
          = (AddUserStory "Login fails" "text" None
               (assignee_lookup Examples.taiga (Some "Alice Smith"%string))
             :: pts ++ map (StoryAddComment story) ["first"; "second"]%string)%list
       /\ List.length pts <= 1
       /\ forallb is_update_points pts = true.
Proof.
  intros st res. split; [reflexivity|].
  apply (create_story_calls (collab := Mock.collaborator false) Examples.taiga
           "Login fails" "text" None (Some "Alice Smith"%string) None
           ["first"; "second"]%string st).
  reflexivity.
Defined.

End StoryFacts.

(** ** More on the processing of a row *)

Module RowFacts.

Import Collab Eff EffFacts TaigaService Migrate MigrateFacts.

Lemma split_length : forall sep s,
  List.length (PyStr.split sep s) = S (PyStr.count sep s).
Proof.
  intros sep s; induction s as [|c s IH]; [reflexivity|].
  cbn [PyStr.split PyStr.count]. destruct (c =? sep); cbn [List.length].
  - rewrite IH. reflexivity.
  - destruct (PyStr.split sep s) as [|h t]; [discriminate|].
    cbn [List.length] in *. exact IH.
Qed.

Lemma split_plain : forall sep u,
  PyStr.mem sep u = false -> PyStr.split sep u = [u].
Proof.
  intros sep u; induction u as [|c u IH]; intros H; [reflexivity|].
  apply not_mem_eqb in H as [Hc Hu].
  cbn [PyStr.split]. rewrite Hc, (IH Hu). reflexivity.
Qed.

Lemma split_cons : forall sep d rest,
  PyStr.mem sep d = false ->
  PyStr.split sep (d ++ String sep rest) = d :: PyStr.split sep rest.
Proof.
  intros sep d rest; induction d as [|c d IH]; intros H.
  - cbn [append PyStr.split]. rewrite Ascii.eqb_refl. reflexivity.
  - apply not_mem_eqb in H as [Hc Hd].
    cbn [append PyStr.split]. rewrite Hc, (IH Hd). reflexivity.
Qed.

Section WithCollaborator.

Context {W : Type} {collab : Collaborator W}.
Variable e : env.
Variable jira_service : JiraService.service.
Variable taiga_service : TaigaService.service.
Variable markdown : string -> string.

Lemma status_id_inline : forall (taiga_statuses : Dict.dict Z) r,
  match
    match Dict.get "Status" r with
    | Some v => if PyStr.truthy v then Some (slugify v) else None
    | None => None
    end
  with
  | Some k => Dict.get k taiga_statuses
  | None => None
  end = status_id_of taiga_statuses r.
Proof.
  intros ts r. unfold status_id_of.
  destruct (Dict.get "Status" r) as [v|]; [|reflexivity].
  destruct (PyStr.truthy v); reflexivity.
Qed.

(** Without dry run, the first call for a row is the creation of its
    story, with the summary of the row ("No Title" without one), the
    description converted and rendered, the identifier that the map of
    statuses has for the slug of the status of the row (none for a row
    without status), and the assignee that the lookup gives. *)
Theorem main_row_creation_call : forall taiga_statuses r s (st : state W),
  DRY_RUN e = false ->
  exists description_md reply rest,
    JiraService.convert_markup
      (match Dict.get "Description" r with Some v => v | None => EmptyString end)
    = Some description_md
    /\ log (snd (main_row e jira_service taiga_service markdown
                   taiga_statuses r s st))
       = (log st
          ++ (AddUserStory (summary_of r) (markdown description_md)
                (status_id_of taiga_statuses r)
                (assignee_lookup taiga_service (Dict.get "Assignee" r)), reply)
             :: rest)%list.
Proof.
  intros ts r s st Hdry. unfold main_row.
  destruct (MarkupFacts.convert_markup_total
              (match Dict.get "Description" r with Some v => v | None => EmptyString end))
    as [md Hmd].
  exists md. rewrite Hmd, comments_loop_spec. cbn [lift app].
  rewrite !bind_ret_l, Hdry, status_id_inline.
  match goal with |- context [@create_story _ _ _ ?t ?d ?sid ?a ?pv ?cm false] =>
    destruct (create_story_run taiga_service t d sid a pv cm st)
      as (r0 & rest & L & F & C & Hok);
    destruct (create_story taiga_service t d sid a pv cm false st)
      as [[o|] st1] eqn:Ec
  end; cbn [fst snd] in *; unfold try_except, bind at 1; rewrite Ec.
  - destruct (attachments_logged e jira_service o r st1) as (new2 & L2 & _).
    unfold bind at 1.
    destruct ((if DOWNLOAD_ATTACHMENTS e
               then for_each (attachment_cols r) (handle_attachment jira_service o)
               else ret tt) st1) as [[[]|] st2]; cbn [fst snd] in *;
      exists r0, (rest ++ new2)%list; split; try reflexivity;
      unfold ret; cbn [fst snd]; rewrite L2, L, <- app_assoc; reflexivity.
  - exists r0, rest. split; [reflexivity | exact L].
Qed.

Lemma tidy_ret : forall (A : Type) (a : A), tidy (ret a : M W A).
Proof. intros A a st. simpl. apply incl_refl. Qed.

Lemma tidy_bind : forall (A B : Type) (m : M W A) (f : A -> M W B),
  tidy m -> (forall a, tidy (f a)) -> tidy (bind m f).
Proof.
  intros A B m f Hm Hf st. unfold bind.
  specialize (Hm st). destruct (m st) as [[a|] st1]; cbn [fst snd] in *; [|exact I].
  specialize (Hf a st1). destruct (f a st1) as [[b|] st2]; cbn [fst snd] in *;
    [|exact I].
  eapply incl_tran; eassumption.
Qed.

Lemma tidy_invoke : forall c, tidy (invoke c : M W Z).
Proof.
  intros c st. rewrite invoke_after. cbn [fst snd].
  destruct (fst (perform c (world st))); [apply incl_refl | exact I].
Qed.

Lemma tidy_for_each : forall (A : Type) (body : A -> M W unit) xs,
  (forall x, tidy (body x)) -> tidy (for_each xs body).
Proof.
  intros A body xs H; induction xs as [|x xs IH]; simpl.
  - apply tidy_ret.
  - apply tidy_bind; [apply H | intros _; exact IH].
Qed.

Lemma tidy_reraise : forall (A : Type) (m : M W A), tidy m -> tidy (try_except m raise).
Proof.
  intros A m H st. specialize (H st). unfold try_except, raise.
  destruct (m st) as [[a|] st1]; cbn [fst snd] in *; [exact H | exact I].
Qed.

Lemma create_story_tidy :
  forall title description status_id assignee points_value comment_map dry_run,
    tidy (create_story (W := W) taiga_service title description status_id
            assignee points_value comment_map dry_run).
Proof.
  intros. unfold create_story. destruct dry_run; [apply tidy_ret|].
  apply tidy_reraise. apply tidy_bind; [apply tidy_invoke|]. intros story.
  apply tidy_bind.
  { unfold update_points. apply tidy_bind; [intros st; apply incl_refl|].
    intros w. destruct points_value as [v|]; [|apply tidy_ret].
    destruct (roles w); [apply tidy_ret|].
    destruct (PyStr.truthy v); [|apply tidy_ret].
    destruct (find _ (points w)); [|apply tidy_ret].
    apply tidy_bind; [apply tidy_invoke | intros; apply tidy_ret]. }
  intros _. apply tidy_bind; [|intros; apply tidy_ret].
  apply tidy_for_each. intros txt.
  apply tidy_bind; [apply tidy_invoke | intros; apply tidy_ret].
Qed.

Lemma incl_filter : forall (A : Type) (f : A -> bool) l, incl (filter f l) l.
Proof. intros A f l x H. apply filter_In in H as [H _]. exact H. Qed.

Lemma incl_unlinked : forall path fs,
  incl (filter (fun p => negb (p =? path)%string)
               (if existsb (String.eqb path) fs then fs else (fs ++ [path])%list))
       fs.
Proof.
  intros path fs x H. apply filter_In in H as [H Hx].
  destruct (existsb (String.eqb path) fs); [exact H|].
  apply in_app_or in H as [H|[H|[]]]; [exact H|].
  subst x. rewrite String.eqb_refl in Hx. discriminate.
Qed.

(** The handling of an attachment that returns has removed the file that
    it downloaded, when no download breaks off after its file was
    opened. *)
Lemma handle_attachment_tidy : forall story attachment_field,
  (forall url path w, body_written url path w <> BrokenOff) ->
  tidy (handle_attachment (W := W) jira_service story attachment_field).
Proof.
  intros story field Hbody st. unfold handle_attachment.
  destruct (Nat.leb 4 (List.length (PyStr.split ";" field))) eqn:El.
  2:{ simpl. apply incl_refl. }
  apply Nat.leb_le in El.
  destruct (parts_of_descriptor _ El) as (u & f & Hu & Hf). rewrite Hu, Hf.
  unfold lift, JiraService.download_attachment.
  cbv beta delta [bind ret].
  destruct (negb _ || negb _).
  { simpl. apply incl_refl. }
  unfold mkdir. destruct (makes_dir "attachments" (world st)); [|exact I].
  cbv zeta. set (path := JiraService.attachments_path _).
  rewrite ask_after.
  destruct (fst (perform (SessionGet u path) (world st))) as [v|] eqn:Er.
  2:{ simpl. apply incl_refl. }
  unfold body_of. cbn [world after].
  destruct (body_written u path _) eqn:Eb.
  - simpl. apply incl_refl.
  - exfalso. exact (Hbody _ _ _ Eb).
  - unfold write_file. destruct story as [id|]; unfold attach_file.
    + cbv beta delta [bind ret]. rewrite invoke_after.
      cbn [world after log files statuses_cache].
      destruct (fst (perform (StoryAttach id path) _)) as [v2|] eqn:Er2; [|exact I].
      unfold unlink. cbn [files after]. rewrite existsb_written.
      cbn [fst snd files]. apply incl_unlinked.
    + cbv beta delta [ret]. unfold unlink. cbn [files]. rewrite existsb_written.
      cbn [fst snd files after]. apply incl_unlinked.
Qed.

(** A row that ends as created leaves no file behind, when no download
    breaks off after its file was opened: every local file after the row
    was there before it.  (A download that breaks off leaves what was
    written of its file, and the row still ends as created.) *)
Theorem created_row_leaves_no_file : forall taiga_statuses r s (st : state W) s' st',
  (forall url path w, body_written url path w <> BrokenOff) ->
  main_row e jira_service taiga_service markdown taiga_statuses r s st
  = (Ok s', st') ->
  success s' = (success s + 1)%Z ->
  incl (files st') (files st).
Proof.
  intros ts r s st s' st' Hbody H Hs. unfold main_row in H.
  destruct (MarkupFacts.convert_markup_total
              (match Dict.get "Description" r with Some v => v | None => EmptyString end))
    as [md Hmd].
  rewrite Hmd, comments_loop_spec in H. cbn [lift app] in H.
  rewrite !bind_ret_l in H.
  destruct (DRY_RUN e).
  { inversion H; subst. lia. }
  match type of H with try_except ?body _ _ = _ =>
    assert (Ht : tidy body)
  end.
  { apply tidy_bind; [apply create_story_tidy|]. intros story.
    apply tidy_bind; [|intros; apply tidy_ret].
    destruct (DOWNLOAD_ATTACHMENTS e); [|apply tidy_ret].
    apply tidy_for_each. intros field. apply handle_attachment_tidy. exact Hbody. }
  unfold try_except in H. specialize (Ht st).
  match type of H with (let (_, _) := ?b in _) = _ =>
    destruct b as [[s1|] st1]
  end; cbn [fst snd] in *.
  - inversion H; subst. exact Ht.
  - inversion H; subst. cbn [success] in Hs. lia.
Qed.

(** An attachment field is passed over without any call when the Jira
    credentials are missing, and when it has fewer than three semicolons. *)
Theorem handle_attachment_skips : forall story attachment_field (st : state W),
  (JiraService.opt_truthy (JiraService.username jira_service) = false
   \/ JiraService.opt_truthy (JiraService.api_token jira_service) = false
   \/ PyStr.count ";" attachment_field < 3) ->
  handle_attachment jira_service story attachment_field st = (Ok tt, st).
Proof.
  intros story field st H. unfold handle_attachment.
  destruct (Nat.leb 4 (List.length (PyStr.split ";" field))) eqn:El; [|reflexivity].
  apply Nat.leb_le in El. rewrite split_length in El.
  destruct (parts_of_descriptor (PyStr.split ";" field)) as (u & f & Hu & Hf).
  { rewrite split_length. exact El. }
  rewrite Hu, Hf. unfold lift, JiraService.download_attachment.
  destruct H as [H|[H|H]]; [rewrite H | rewrite H | lia]; cbn [negb orb];
    rewrite ?orb_true_r; reflexivity.
Qed.

(** A field "date;author;filename;url" with credentials.  When the
    directory of the attachments cannot be made, the handling raises before
    any call.  Otherwise the download is the first call, of the text after
    the last semicolon, to the path that joining "attachments" with the
    stripped file name gives; the only other call is the upload of that
    file to the story, made when the response had status 200, its body was
    written whole and there is a story. *)
Theorem handle_attachment_download :
  forall story d a f u (st : state W),
    JiraService.opt_truthy (JiraService.username jira_service) = true ->
    JiraService.opt_truthy (JiraService.api_token jira_service) = true ->
    PyStr.mem ";" d = false -> PyStr.mem ";" a = false ->
    PyStr.mem ";" f = false -> PyStr.mem ";" u = false ->
    let path :=
      JiraService.attachments_path
        (PyStr.strip_ws (PyStr.replace JiraService.narrow_nbsp " " f)) in
    (makes_dir "attachments" (world st) = false ->
     handle_attachment jira_service story
       (d ++ ";" ++ a ++ ";" ++ f ++ ";" ++ u) st = (Raised, st))
    /\ (makes_dir "attachments" (world st) = true ->
        exists reply rest,
          log (snd (handle_attachment jira_service story
                      (d ++ ";" ++ a ++ ";" ++ f ++ ";" ++ u) st))
          = (log st ++ (SessionGet u path, reply) :: rest)%list
          /\ (rest = []
              \/ exists id reply',
                   story = Some id /\ reply <> None
                   /\ body_written u path
                        (snd (perform (SessionGet u path) (world st))) = Written
                   /\ rest = [(StoryAttach id path, reply')])).
Proof.
  intros story d a f u st Hu Ht Hd Ha Hf Hurl path. unfold handle_attachment.
  change (d ++ ";" ++ a ++ ";" ++ f ++ ";" ++ u)%string
    with (d ++ String ";" (a ++ String ";" (f ++ String ";" u)))%string.
  rewrite (split_cons ";" d _ Hd), (split_cons ";" a _ Ha),
    (split_cons ";" f _ Hf), (split_plain ";" u Hurl).
  cbn [List.length Nat.leb last_part Nat.sub nth_error lift].
  rewrite !bind_ret_l.
  unfold JiraService.download_attachment. rewrite Hu, Ht. cbn [negb orb].
  cbv zeta. fold path. cbv beta delta [bind ret]. unfold mkdir.
  split; intros Hdir; rewrite Hdir; [reflexivity|].
  rewrite ask_after.
  destruct (fst (perform (SessionGet u path) (world st))) as [v|] eqn:Er.
  2:{ exists None, []. unfold after; cbn [snd log]. rewrite Er. auto. }
  unfold body_of. cbn [world after].
  destruct (body_written u path _) eqn:Eb.
  - exists (Some v), []. unfold after; cbn [snd log]. rewrite Er. auto.
  - exists (Some v), []. unfold write_file, after; cbn [snd log]. rewrite Er. auto.
  - unfold write_file. destruct story as [id|]; unfold attach_file.
    + cbv beta delta [bind ret]. rewrite invoke_after.
      cbn [world after log files statuses_cache].
      destruct (fst (perform (StoryAttach id path) _)) as [v2|] eqn:Er2.
      * unfold unlink. cbn [files after]. rewrite existsb_written.
        exists (Some v), [(StoryAttach id path, Some v2)].
        cbn [fst snd log after world]. rewrite Er, Er2, <- app_assoc.
        split; [reflexivity|]. right. exists id, (Some v2).
        repeat split; discriminate.
      * exists (Some v), [(StoryAttach id path, None)].
        cbn [fst snd log after world]. rewrite Er, Er2, <- app_assoc.
        split; [reflexivity|]. right. exists id, None.
        repeat split; discriminate.
    + cbv beta delta [ret]. unfold unlink. cbn [files]. rewrite existsb_written.
      exists (Some v), []. cbn [fst snd log after]. rewrite Er. auto.
Qed.

End WithCollaborator.

End RowFacts.

Module RowExamples.

Import Collab Eff TaigaService Migrate.

Lemma main_row_creation_call_witness :
  DRY_RUN Examples.env_run = false
  /\ exists description_md reply rest,
       JiraService.convert_markup
         (match Dict.get "Description" Examples.row_with_attachment with
          | Some v => v | None => EmptyString end)
       = Some description_md
       /\ log (snd (main_row (collab := Mock.collaborator false)
                      Examples.env_run Examples.jira Examples.taiga
                      Examples.markdown_id [] Examples.row_with_attachment
                      Examples.stats0 (Mock.start Examples.upload_fails)))
          = (log (Mock.start Examples.upload_fails)
             ++ (AddUserStory (summary_of Examples.row_with_attachment)
                   (Examples.markdown_id description_md)
                   (status_id_of [] Examples.row_with_attachment)
                   (assignee_lookup Examples.taiga
                      (Dict.get "Assignee" Examples.row_with_attachment)), reply)
                :: rest)%list.
Proof.
  split; [reflexivity|].
  apply (RowFacts.main_row_creation_call (collab := Mock.collaborator false)
           Examples.env_run Examples.jira Examples.taiga Examples.markdown_id).
  reflexivity.
Defined.

Lemma created_row_leaves_no_file_witness :
  (forall url path w,
     body_written (Collaborator := Mock.collaborator false) url path w
     <> BrokenOff)
  /\ exists s' st',
       main_row (collab := Mock.collaborator false) Examples.env_run
         Examples.jira Examples.taiga Examples.markdown_id []
         Examples.row_with_attachment Examples.stats0
         (Mock.start Examples.empty_project) = (Ok s', st')
       /\ success s' = (success Examples.stats0 + 1)%Z
       /\ incl (files st') (files (Mock.start Examples.empty_project)).
Proof.
  assert (Hb : forall url path w,
             body_written (Collaborator := Mock.collaborator false) url path w
             <> BrokenOff) by (intros url path w; discriminate).
  split; [exact Hb|].
  exists (Stats 1 0),
    (snd (main_row (collab := Mock.collaborator false) Examples.env_run
            Examples.jira Examples.taiga Examples.markdown_id []
            Examples.row_with_attachment Examples.stats0
            (Mock.start Examples.empty_project))).
  assert (H : main_row (collab := Mock.collaborator false) Examples.env_run
                Examples.jira Examples.taiga Examples.markdown_id []
                Examples.row_with_attachment Examples.stats0
                (Mock.start Examples.empty_project)
              = (Ok (Stats 1 0),
                 snd (main_row (collab := Mock.collaborator false)
                        Examples.env_run Examples.jira Examples.taiga
                        Examples.markdown_id [] Examples.row_with_attachment
                        Examples.stats0 (Mock.start Examples.empty_project))))
    by (vm_compute; reflexivity).
  split; [exact H|]. split; [reflexivity|].
  apply (RowFacts.created_row_leaves_no_file (collab := Mock.collaborator false)
           Examples.env_run Examples.jira Examples.taiga Examples.markdown_id
           [] Examples.row_with_attachment Examples.stats0 _ _ _ Hb H).
  reflexivity.
Defined.

(** A download that breaks off: the row ends as created and what was
    written of the file stays. *)
Lemma broken_download_leaves_file :
  let res :=
    main_row (collab := Mock.collaborator_on false true BrokenOff)
      Examples.env_run Examples.jira Examples.taiga Examples.markdown_id []
      Examples.row_with_attachment Examples.stats0
      (Mock.start Examples.empty_project) in
  fst res = Ok (Stats 1 0)
  /\ files (snd res) = ["attachments/shot.png"%string].
Proof.
  vm_compute. split; reflexivity.
Qed.

Lemma handle_attachment_skips_witness :
  PyStr.count ";" "shot.png;https://jira/att/1" < 3
  /\ handle_attachment (collab := Mock.collaborator false) Examples.jira
       (Some 1%Z) "shot.png;https://jira/att/1"
       (Mock.start Examples.empty_project)
     = (Ok tt, Mock.start Examples.empty_project).
Proof.
  assert (H : PyStr.count ";" "shot.png;https://jira/att/1" < 3)
    by (vm_compute; lia).
  split; [exact H|].
  apply (RowFacts.handle_attachment_skips (collab := Mock.collaborator false)
           Examples.jira).
  right; right; exact H.
Defined.

Lemma handle_attachment_download_witness :
  handle_attachment (collab := Mock.collaborator_on false false Written)
    Examples.jira (Some 1%Z)
    ("2024-01-01" ++ ";" ++ "alice" ++ ";" ++ "/tmp//shot.png" ++ ";"
     ++ "https://jira/att/1")
    (Mock.start Examples.upload_fails)
  = (Raised, Mock.start Examples.upload_fails)
  /\ JiraService.attachments_path
       (PyStr.strip_ws (PyStr.replace JiraService.narrow_nbsp " " "/tmp//shot.png"))
     = "/tmp/shot.png"%string
  /\ exists reply rest,
       log (snd (handle_attachment (collab := Mock.collaborator false)
                   Examples.jira (Some 1%Z)
                   ("2024-01-01" ++ ";" ++ "alice" ++ ";" ++ "/tmp//shot.png"
                    ++ ";" ++ "https://jira/att/1")
                   (Mock.start Examples.upload_fails)))
       = (log (Mock.start Examples.upload_fails)
          ++ (SessionGet "https://jira/att/1" "/tmp/shot.png", reply) :: rest)%list
       /\ (rest = []
           \/ exists id reply',
                Some 1%Z = Some id /\ reply <> None
                /\ body_written (Collaborator := Mock.collaborator false)
                     "https://jira/att/1" "/tmp/shot.png"
                     (snd (perform (Collaborator := Mock.collaborator false)
                             (SessionGet "https://jira/att/1" "/tmp/shot.png")
                             (world (Mock.start Examples.upload_fails))))
                   = Written
                /\ rest = [(StoryAttach id "/tmp/shot.png", reply')]).
Proof.
  split; [|split; [reflexivity|]].
  - destruct (RowFacts.handle_attachment_download
                (collab := Mock.collaborator_on false false Written)
                Examples.jira (Some 1%Z) "2024-01-01" "alice" "/tmp//shot.png"
                "https://jira/att/1" (Mock.start Examples.upload_fails)
                eq_refl eq_refl eq_refl eq_refl eq_refl eq_refl) as [H _].
    apply H. reflexivity.
  - destruct (RowFacts.handle_attachment_download
                (collab := Mock.collaborator false)
                Examples.jira (Some 1%Z) "2024-01-01" "alice" "/tmp//shot.png"
                "https://jira/att/1" (Mock.start Examples.upload_fails)
                eq_refl eq_refl eq_refl eq_refl eq_refl eq_refl) as [_ H].
    apply H. reflexivity.
Defined.

End RowExamples.

(** ** The headers and the rows of the CSV file *)

Module CsvFacts.

Import JiraService.

Lemma rename_cases : forall counts header headers',
  unique_headers_from counts (header :: headers')
  = match Dict.get header counts with
    | Some n =>
        (header ++ "." ++ str_of_nat (S n))%string
        :: unique_headers_from (Dict.set header (S n) counts) headers'
    | None => header :: unique_headers_from (Dict.set header 0 counts) headers'
    end.
Proof. reflexivity. Qed.

Lemma unique_headers_from_length : forall headers counts,
  List.length (unique_headers_from counts headers) = List.length headers.
Proof.
  induction headers as [|h hs IH]; intros counts; [reflexivity|].
  rewrite rename_cases. destruct (Dict.get h counts); cbn [List.length];
    rewrite IH; reflexivity.
Qed.

(** The header at a position, for any dict of counts at the start: [k] is
    the number of earlier occurrences in the list. *)
Lemma unique_headers_from_nth : forall headers counts i h,
  nth_error headers i = Some h ->
  nth_error (unique_headers_from counts headers) i
  = Some (let k := count_occ string_dec (firstn i headers) h in
          match Dict.get h counts with
          | Some n => (h ++ "." ++ str_of_nat (n + k + 1))%string
          | None => if Nat.eqb k 0 then h
                    else (h ++ "." ++ str_of_nat k)%string
          end).
Proof.
  induction headers as [|h0 hs IH]; intros counts i h Hn.
  - destruct i; discriminate.
  - rewrite rename_cases. destruct i as [|i].
    + cbn in Hn. inversion Hn; subst h0. cbn [firstn count_occ].
      destruct (Dict.get h counts) as [n|]; cbn [nth_error Nat.eqb].
      * replace (n + 0 + 1) with (S n) by lia. reflexivity.
      * reflexivity.
    + cbn [nth_error] in Hn. cbn [firstn count_occ].
      destruct (string_dec h0 h) as [->|Hne].
      * destruct (Dict.get h counts) as [n|] eqn:Eg; cbn [nth_error];
          rewrite (IH _ _ _ Hn); cbv zeta;
          rewrite CacheFacts.dict_get_set_same.
        -- replace (S n + count_occ string_dec (firstn i hs) h + 1)
             with (n + S (count_occ string_dec (firstn i hs) h) + 1) by lia.
           reflexivity.
        -- cbn [Nat.eqb].
           replace (0 + count_occ string_dec (firstn i hs) h + 1)
             with (S (count_occ string_dec (firstn i hs) h)) by lia.
           reflexivity.
      * assert (Hne' : h <> h0) by congruence.
        destruct (Dict.get h0 counts) as [n|]; cbn [nth_error];
          rewrite (IH _ _ _ Hn); cbv zeta;
          rewrite (CacheFacts.dict_get_set_other _ _ _ _ _ Hne'); reflexivity.
Qed.

(** [parse_csv] keeps the number and the order of the headers; the first
    occurrence of a header keeps its name, and an occurrence that has [k]
    earlier ones, [k] at least 1, gets the name followed by a dot and the
    decimal digits of [k]. *)
Theorem unique_headers_spec : forall headers,
  List.length (unique_headers headers) = List.length headers
  /\ forall i h,
       nth_error headers i = Some h ->
       nth_error (unique_headers headers) i
       = Some (let k := count_occ string_dec (firstn i headers) h in
               if Nat.eqb k 0 then h else (h ++ "." ++ str_of_nat k)%string).
Proof.
  intros headers. split; [apply unique_headers_from_length|].
  intros i h Hn. unfold unique_headers.
  rewrite (unique_headers_from_nth _ _ _ _ Hn). reflexivity.
Qed.

Lemma prefix_append : forall a b, prefix a (a ++ b) = true.
Proof.
  induction a as [|c a IH]; intros b; cbn [append prefix].
  - destruct b; reflexivity.
  - destruct (ascii_dec c c); [apply IH | congruence].
Qed.

Lemma prefix_trans_append : forall p a b, prefix p a = true -> prefix p (a ++ b) = true.
Proof.
  induction p as [|c p IH]; intros a b H.
  - destruct (a ++ b)%string; reflexivity.
  - destruct a as [|d a]; [discriminate|]. cbn [append prefix] in *.
    destruct (ascii_dec c d); [apply IH; exact H | discriminate].
Qed.

Lemma contains_append : forall sub a b,
  PyStr.contains sub a = true -> PyStr.contains sub (a ++ b) = true.
Proof.
  intros sub a b; induction a as [|c a IH]; intros H.
  - cbn [PyStr.contains] in H. rewrite orb_false_r in H.
    destruct sub; [|discriminate]. destruct (""%string ++ b)%string; reflexivity.
  - cbn [PyStr.contains append] in *. apply orb_true_iff in H as [H|H].
    + change (String c (a ++ b)) with (String c a ++ b)%string.
      rewrite (prefix_trans_append _ _ _ H). reflexivity.
    + rewrite (IH H). apply orb_true_r.
Qed.

(** A renamed header begins with the header, so the tests of [main] on
    the keys of a row see the repeated columns of an export: a column whose
    header contains "Comment" still does, and one whose header starts with
    "Attachment" still does. *)
Theorem renamed_header_extends : forall headers i h,
  nth_error headers i = Some h ->
  exists key,
    nth_error (unique_headers headers) i = Some key
    /\ PyStr.startswith key h = true
    /\ (PyStr.contains "Comment" h = true -> PyStr.contains "Comment" key = true)
    /\ (PyStr.startswith h "Attachment" = true ->
        PyStr.startswith key "Attachment" = true).
Proof.
  intros headers i h Hn. unfold unique_headers.
  rewrite (unique_headers_from_nth _ _ _ _ Hn). cbv zeta. cbn [Dict.get].
  destruct (Nat.eqb _ 0); eexists; (split; [reflexivity|]); unfold PyStr.startswith.
  - split; [|auto]. rewrite <- (prefix_append h ""). f_equal.
    clear. induction h; cbn; congruence.
  - split; [apply prefix_append|]. split.
    + apply contains_append.
    + apply prefix_trans_append.
Qed.

Lemma digits_no_dot : forall d,
  PyStr.mem "." (NilEmpty.string_of_uint d) = false.
Proof. induction d; cbn; auto. Qed.

Lemma str_of_nat_inj : forall m n, str_of_nat m = str_of_nat n -> m = n.
Proof.
  intros m n H. unfold str_of_nat in H.
  assert (E : Some (Nat.to_uint m) = Some (Nat.to_uint n)).
  { rewrite <- (NilEmpty.usu (Nat.to_uint m)), <- (NilEmpty.usu (Nat.to_uint n)), H.
    reflexivity. }
  inversion E as [E']. apply DecimalNat.Unsigned.to_uint_inj. exact E'.
Qed.

Lemma mem_append : forall c a b,
  PyStr.mem c (a ++ b) = PyStr.mem c a || PyStr.mem c b.
Proof.
  intros c a b; induction a as [|d a IH]; [reflexivity|].
  cbn [append PyStr.mem]. rewrite IH, orb_assoc. reflexivity.
Qed.

Lemma append_sep_inj : forall c a b s t,
  PyStr.mem c a = false -> PyStr.mem c b = false ->
  (a ++ String c s = b ++ String c t)%string -> a = b /\ s = t.
Proof.
  intros c a; induction a as [|x a IH]; intros b s t Ha Hb H.
  - destruct b as [|y b]; cbn [append] in H.
    + inversion H. auto.
    + inversion H; subst y. cbn [PyStr.mem] in Hb. rewrite Ascii.eqb_refl in Hb.
      discriminate.
  - destruct b as [|y b]; cbn [append] in H.
    + inversion H; subst x. cbn [PyStr.mem] in Ha. rewrite Ascii.eqb_refl in Ha.
      discriminate.
    + inversion H; subst y. cbn [PyStr.mem] in Ha, Hb.
      apply orb_false_iff in Ha as [_ Ha]. apply orb_false_iff in Hb as [_ Hb].
      destruct (IH b s t Ha Hb) as [-> ->]; [assumption | auto].
Qed.

Lemma count_grows : forall (headers : list string) i j h,
  i < j -> nth_error headers i = Some h ->
  count_occ string_dec (firstn i headers) h
  < count_occ string_dec (firstn j headers) h.
Proof.
  induction headers as [|h0 hs IH]; intros i j h Hij Hn.
  - destruct i; discriminate.
  - destruct j as [|j]; [lia|]. destruct i as [|i].
    + cbn in Hn. inversion Hn; subst h0. cbn [firstn count_occ].
      destruct (string_dec h h); [lia | congruence].
    + cbn [nth_error] in Hn. cbn [firstn count_occ].
      assert (Hlt := IH i j h ltac:(lia) Hn).
      destruct (string_dec h0 h); lia.
Qed.

Lemma unique_headers_nodup_dotfree : forall headers,
  (forall h, In h headers -> PyStr.mem "." h = false) ->
  NoDup (unique_headers headers).
Proof.
  intros headers Hdot.
  assert (Hlt : forall i j x, i < j ->
            nth_error (unique_headers headers) i = Some x ->
            nth_error (unique_headers headers) j = Some x -> False).
  { intros i j x Hij Hi Hj.
    destruct (nth_error headers i) as [hi|] eqn:Ei.
    2:{ apply nth_error_None in Ei.
        assert (nth_error (unique_headers headers) i <> None) by congruence.
        apply nth_error_Some in H.
        unfold unique_headers in H. rewrite unique_headers_from_length in H. lia. }
    destruct (nth_error headers j) as [hj|] eqn:Ej.
    2:{ apply nth_error_None in Ej.
        assert (nth_error (unique_headers headers) j <> None) by congruence.
        apply nth_error_Some in H.
        unfold unique_headers in H. rewrite unique_headers_from_length in H. lia. }
    unfold unique_headers in Hi, Hj.
    rewrite (unique_headers_from_nth _ _ _ _ Ei) in Hi.
    rewrite (unique_headers_from_nth _ _ _ _ Ej) in Hj.
    cbv zeta in Hi, Hj. cbn [Dict.get] in Hi, Hj.
    assert (Hdi := Hdot hi (nth_error_In _ _ Ei)).
    assert (Hdj := Hdot hj (nth_error_In _ _ Ej)).
    assert (Hg : hi = hj -> count_occ string_dec (firstn i headers) hi
                            < count_occ string_dec (firstn j headers) hj).
    { intros <-. apply count_grows; assumption. }
    destruct (Nat.eqb_spec (count_occ string_dec (firstn i headers) hi) 0) as [Zi|Zi];
      destruct (Nat.eqb_spec (count_occ string_dec (firstn j headers) hj) 0) as [Zj|Zj];
      injection Hi as Hxi; injection Hj as Hxj.
    - assert (hi = hj) by congruence. specialize (Hg H). lia.
    - rewrite <- Hxj in Hxi. rewrite Hxi, mem_append in Hdi.
      cbn in Hdi. rewrite orb_true_r in Hdi. discriminate.
    - rewrite <- Hxi in Hxj. rewrite Hxj, mem_append in Hdj.
      cbn in Hdj. rewrite orb_true_r in Hdj. discriminate.
    - rewrite <- Hxj in Hxi.
      apply (append_sep_inj "." hi hj) in Hxi as [Eh Ek]; [|assumption|assumption].
      apply str_of_nat_inj in Ek. specialize (Hg Eh). lia. }
  apply NoDup_nth_error. intros i j Hi E.
  destruct (nth_error (unique_headers headers) i) as [x|] eqn:Ex.
  2:{ apply nth_error_None in Ex. lia. }
  destruct (Nat.lt_trichotomy i j) as [Hl|[He|Hl]]; [|exact He|];
    exfalso; [eapply (Hlt i j) | eapply (Hlt j i)]; eauto.
Qed.

(** When no header contains a dot, the names that [parse_csv] gives the
    columns are pairwise different.  With a dot they need not be: a
    column [h] that repeats after a column [h.1] gets the name of that
    column. *)
Theorem unique_headers_nodup :
  (forall headers,
     (forall h, In h headers -> PyStr.mem "." h = false) ->
     NoDup (unique_headers headers))
  /\ (forall h,
        unique_headers [h; (h ++ ".1")%string; h]
        = [h; (h ++ ".1")%string; (h ++ ".1")%string]).
Proof.
  split; [exact unique_headers_nodup_dotfree|].
  intros h.
  assert (Hne : (h =? (h ++ ".1"))%string = false).
  { apply String.eqb_neq. induction h as [|c h IH]; cbn [append];
      [discriminate | congruence]. }
  unfold unique_headers.
  cbn [unique_headers_from Dict.get Dict.set]. rewrite Hne.
  cbn [unique_headers_from Dict.get Dict.set]. rewrite String.eqb_refl.
  reflexivity.
Qed.

Lemma dict_set_fresh : forall (V : Type) k (v : V) d,
  Dict.get k d = None -> Dict.set k v d = (d ++ [(k, v)])%list.
Proof.
  intros V k v d; induction d as [|[k' v'] d IH]; intros H; [reflexivity|].
  cbn [Dict.get Dict.set app] in *.
  destruct (k' =? k)%string; [discriminate|]. rewrite (IH H). reflexivity.
Qed.

Lemma dict_get_app_none : forall (V : Type) k (d d' : Dict.dict V),
  Dict.get k d = None -> Dict.get k (d ++ d')%list = Dict.get k d'.
Proof.
  intros V k d d'; induction d as [|[k' v'] d IH]; intros H; [reflexivity|].
  cbn [Dict.get app] in *. destruct (k' =? k)%string; [discriminate | auto].
Qed.

Lemma dict_get_absent : forall (V : Type) k (d : Dict.dict V),
  ~ In k (map fst d) -> Dict.get k d = None.
Proof.
  intros V k d; induction d as [|[k' v'] d IH]; intros H; [reflexivity|].
  cbn [Dict.get map fst In] in *.
  destruct (String.eqb_spec k' k) as [->|Hne]; [tauto|]. apply IH. tauto.
Qed.

Lemma fold_set_fresh : forall (V : Type) (l : list (string * V)) acc,
  NoDup (map fst l) ->
  (forall k, In k (map fst l) -> Dict.get k acc = None) ->
  fold_left (fun d kv => Dict.set (fst kv) (snd kv) d) l acc = (acc ++ l)%list.
Proof.
  intros V l; induction l as [|[k v] l IH]; intros acc Hnd Hfresh.
  - rewrite app_nil_r. reflexivity.
  - cbn [fold_left fst snd map] in *. inversion Hnd as [|? ? Hk Hnd']; subst.
    rewrite (dict_set_fresh _ k v acc (Hfresh k (or_introl eq_refl))).
    rewrite IH; [rewrite <- app_assoc; reflexivity | exact Hnd' |].
    intros k' Hin. rewrite dict_get_app_none; [|apply Hfresh; right; exact Hin].
    cbn [Dict.get]. destruct (String.eqb_spec k k') as [->|Hne]; [contradiction|].
    reflexivity.
Qed.

Lemma combine_keys : forall (V : Type) (ks : list string) (record : list V),
  map fst (combine ks record) = firstn (List.length record) ks.
Proof.
  intros V ks; induction ks as [|k ks IH]; intros [|v record]; cbn;
    try reflexivity.
  rewrite IH. reflexivity.
Qed.

Lemma in_firstn : forall (A : Type) n (l : list A) x, In x (firstn n l) -> In x l.
Proof.
  intros A n; induction n as [|n IH]; intros [|y l] x H; cbn in *; try tauto.
  destruct H as [H|H]; [auto | right; apply IH; exact H].
Qed.

Lemma nodup_firstn : forall (A : Type) n (l : list A), NoDup l -> NoDup (firstn n l).
Proof.
  intros A n; induction n as [|n IH]; intros [|x l] H; cbn; try constructor.
  - inversion H; subst. intros Hin. apply in_firstn in Hin. contradiction.
  - inversion H; subst. apply IH. assumption.
Qed.

Lemma get_combine : forall (V : Type) (ks : list string) (record : list V) i k,
  NoDup ks -> nth_error ks i = Some k ->
  Dict.get k (combine ks record) = nth_error record i.
Proof.
  intros V ks; induction ks as [|k0 ks IH]; intros record i k Hnd Hn.
  - destruct i; discriminate.
  - inversion Hnd as [|? ? Hk Hnd']; subst. destruct record as [|v record].
    + destruct i; reflexivity.
    + cbn [combine Dict.get]. destruct i as [|i]; cbn [nth_error] in *.
      * inversion Hn; subst. rewrite String.eqb_refl. reflexivity.
      * destruct (String.eqb_spec k0 k) as [->|Hne].
        -- exfalso. apply Hk. eapply nth_error_In; eassumption.
        -- apply IH; assumption.
Qed.

(** A CSV file whose headers have no dot: [parse_csv] gives one row per
    record, in order; the keys of a row are the names of the columns up to
    the length of the record, and the cell of a column is found under the
    name that the column got (no cell for a record that ends before the
    column). *)
Theorem parse_csv_cells : forall headers records,
  headers <> [] ->
  (forall h, In h headers -> PyStr.mem "." h = false) ->
  List.length (parse_csv (Some (headers :: records))) = List.length records
  /\ forall j record,
       nth_error records j = Some record ->
       exists r,
         nth_error (parse_csv (Some (headers :: records))) j = Some r
         /\ Dict.keys r = firstn (List.length record) (unique_headers headers)
         /\ forall i key,
              nth_error (unique_headers headers) i = Some key ->
              Dict.get key r = nth_error record i.
Proof.
  intros headers records Hne Hdot.
  assert (Hnd := unique_headers_nodup_dotfree headers Hdot).
  assert (E : parse_csv (Some (headers :: records))
              = map (fun record =>
                       dict_of_pairs (combine (unique_headers headers) record))
                    records).
  { destruct headers; [congruence | reflexivity]. }
  rewrite E. split; [apply length_map|].
  intros j record Hj. eexists. split; [apply map_nth_error; exact Hj|].
  assert (Ed : dict_of_pairs (combine (unique_headers headers) record)
               = combine (unique_headers headers) record).
  { unfold dict_of_pairs. rewrite fold_set_fresh; [reflexivity | | reflexivity].
    rewrite combine_keys. apply nodup_firstn. exact Hnd. }
  rewrite Ed. split; [apply combine_keys|].
  intros i key Hi. apply get_combine; assumption.
Qed.

(** Witness of [parse_csv_cells] *)
Lemma parse_csv_cells_witness :
  ["Summary"; "Comment"; "Comment"]%string <> []
  /\ List.length
       (parse_csv (Some (["Summary"; "Comment"; "Comment"]%string
                         :: [["a"; "b"; "c"]; ["d"]]%string)))
     = List.length [["a"; "b"; "c"]; ["d"]]%string
  /\ forall j record,
       nth_error [["a"; "b"; "c"]; ["d"]]%string j = Some record ->
       exists r,
         nth_error
           (parse_csv (Some (["Summary"; "Comment"; "Comment"]%string
                             :: [["a"; "b"; "c"]; ["d"]]%string))) j = Some r
         /\ Dict.keys r
            = firstn (List.length record)
                (unique_headers ["Summary"; "Comment"; "Comment"]%string)
         /\ forall i key,
              nth_error (unique_headers ["Summary"; "Comment"; "Comment"]%string) i
              = Some key ->
              Dict.get key r = nth_error record i.
Proof.
  split; [discriminate|].
  apply (parse_csv_cells ["Summary"; "Comment"; "Comment"]%string
           [["a"; "b"; "c"]; ["d"]]%string).
  - discriminate.
  - intros h [<-|[<-|[<-|[]]]]; reflexivity.
Defined.

(** Witness of [renamed_header_extends] *)
Lemma renamed_header_extends_witness :
  nth_error ["Comment"; "Attachment"; "Comment"]%string 2 = Some "Comment"%string
  /\ exists key,
       nth_error (unique_headers ["Comment"; "Attachment"; "Comment"]%string) 2
       = Some key
       /\ PyStr.startswith key "Comment" = true
       /\ (PyStr.contains "Comment" "Comment" = true ->
           PyStr.contains "Comment" key = true)
       /\ (PyStr.startswith "Comment" "Attachment" = true ->
           PyStr.startswith key "Attachment" = true).
Proof.
  split; [reflexivity|].
  apply (renamed_header_extends ["Comment"; "Attachment"; "Comment"]%string 2).
  reflexivity.
Defined.

(** Witness of [unique_headers_spec] *)
Lemma unique_headers_spec_witness :
  nth_error ["Comment"; "Attachment"; "Comment"]%string 2 = Some "Comment"%string
  /\ nth_error (unique_headers ["Comment"; "Attachment"; "Comment"]%string) 2
     = Some (let k := count_occ string_dec
                        (firstn 2 ["Comment"; "Attachment"; "Comment"]%string)
                        "Comment"%string in
             if Nat.eqb k 0 then "Comment"%string
             else ("Comment" ++ "." ++ str_of_nat k)%string).
Proof.
  split; [reflexivity|].
  destruct (unique_headers_spec ["Comment"; "Attachment"; "Comment"]%string)
    as [_ H].
  apply H. reflexivity.
Defined.

(** Witness of [unique_headers_nodup] *)
Lemma unique_headers_nodup_witness :
  (forall h, In h ["Comment"; "Comment"]%string -> PyStr.mem "." h = false)
  /\ NoDup (unique_headers ["Comment"; "Comment"]%string).
Proof.
  assert (H : forall h, In h ["Comment"; "Comment"]%string -> PyStr.mem "." h = false).
  { intros h [<-|[<-|[]]]; reflexivity. }
  split; [exact H|].
  destruct unique_headers_nodup as [Hn _]. apply Hn. exact H.
Defined.

End CsvFacts.

(** ** The mapping of users of env.py *)

Module EnvFacts.

Import EnvVars.

Lemma split_max1_mem : forall sep s,
  PyStr.mem sep s = true -> exists a rest, PyStr.split_max sep s 1 = [a; rest].
Proof.
  intros sep s; induction s as [|c s IH]; intros H; [discriminate|].
  cbn [PyStr.split_max]. destruct (c =? sep)%char eqn:Ec.
  - exists EmptyString, s. destruct s; reflexivity.
  - cbn [PyStr.mem] in H. rewrite Ascii.eqb_sym, Ec in H. cbn [orb] in H.
    destruct (IH H) as (a & rest & E). rewrite E. eauto.
Qed.

Lemma add_item_cases : forall m item,
  add_item (Some m) item = Some m
  \/ exists j t,
       item = (j ++ ":" ++ t)%string /\ PyStr.mem ":" j = false
       /\ add_item (Some m) item
          = Some (Dict.set (PyStr.strip_ws j) (PyStr.strip_ws t) m).
Proof.
  intros m item. unfold add_item.
  destruct (PyStr.mem ":" item) eqn:Em; [|left; reflexivity].
  destruct (split_max1_mem _ _ Em) as (j & t & E). rewrite E.
  apply CommentFacts.split_max1_inv in E as [-> Hj].
  right. exists j, t. auto.
Qed.

Lemma fold_add_item : forall items m,
  exists m',
    fold_left add_item items (Some m) = Some m'
    /\ forall k v,
         In (k, v) m' ->
         In (k, v) m
         \/ exists j t,
              In (j ++ ":" ++ t)%string items /\ PyStr.mem ":" j = false
              /\ k = PyStr.strip_ws j /\ v = PyStr.strip_ws t.
Proof.
  induction items as [|item items IH]; intros m.
  - exists m. split; [reflexivity | auto].
  - cbn [fold_left].
    destruct (add_item_cases m item) as [E|(j & t & Ei & Hj & E)]; rewrite E.
    + destruct (IH m) as (m' & F & H). exists m'. split; [exact F|].
      intros k v Hin. destruct (H k v Hin) as [Hm|(j & t & Hi & R)]; [auto|].
      right. exists j, t. split; [right; exact Hi | exact R].
    + destruct (IH (Dict.set (PyStr.strip_ws j) (PyStr.strip_ws t) m))
        as (m' & F & H).
      exists m'. split; [exact F|].
      intros k v Hin. destruct (H k v Hin) as [Hm|(j' & t' & Hi & R)].
      * apply AssigneeFacts.dict_set_in in Hm as [Hm|Hm]; [|auto].
        inversion Hm; subst. right. exists j, t. split; [left; reflexivity | auto].
      * right. exists j', t'. split; [right; exact Hi | exact R].
Qed.

(** The parsing of USER_MAPPING never raises, whatever the text; every
    entry of the mapping comes from an item of the text that has a colon,
    cut at its first colon, with the two names stripped. *)
Theorem user_mapping_entries : forall value,
  exists m,
    USER_MAPPING value = Some m
    /\ forall k v,
         In (k, v) m ->
         exists j t,
           In (j ++ ":" ++ t)%string (PyStr.split "," (getenv value ""))
           /\ PyStr.mem ":" j = false
           /\ k = PyStr.strip_ws j /\ v = PyStr.strip_ws t.
Proof.
  intros value. unfold USER_MAPPING. cbv zeta.
  destruct (PyStr.truthy (getenv value "")).
  - destruct (fold_add_item (PyStr.split "," (getenv value "")) [])
      as (m & F & H).
    exists m. split; [exact F|].
    intros k v Hin. destruct (H k v Hin) as [[]|R]. exact R.
  - exists []. split; [reflexivity | intros k v []].
Qed.

Lemma append_assoc : forall a b c : string,
  ((a ++ b) ++ c = a ++ b ++ c)%string.
Proof.
  induction a as [|x a IH]; intros b c; cbn [append]; [reflexivity|].
  rewrite IH. reflexivity.
Qed.

Lemma split_mapping_text : forall pairs pre j t,
  PyStr.mem "," pre = false ->
  (forall p, In p ((j, t) :: pairs) ->
     PyStr.mem "," (fst p) = false /\ PyStr.mem "," (snd p) = false) ->
  PyStr.split "," (pre ++ mapping_text ((j, t) :: pairs))
  = (pre ++ j ++ ":" ++ t)%string
    :: map (fun p => (" " ++ fst p ++ ":" ++ snd p)%string) pairs.
Proof.
  induction pairs as [|[j' t'] pairs IH]; intros pre j t Hpre H.
  - cbn [mapping_text map]. rewrite RowFacts.split_plain; [reflexivity|].
    destruct (H (j, t) (or_introl eq_refl)) as [Hj Ht]. cbn [fst snd] in *.
    rewrite !CsvFacts.mem_append, Hpre, Hj, Ht. reflexivity.
  - change (mapping_text ((j, t) :: (j', t') :: pairs))
      with (j ++ ":" ++ t ++ ", " ++ mapping_text ((j', t') :: pairs))%string.
    replace (pre ++ j ++ ":" ++ t ++ ", " ++ mapping_text ((j', t') :: pairs))%string
      with ((pre ++ j ++ ":" ++ t)
            ++ String "," (" " ++ mapping_text ((j', t') :: pairs)))%string.
    2:{ rewrite !append_assoc. reflexivity. }
    rewrite RowFacts.split_cons.
    + rewrite IH; [reflexivity | reflexivity |].
      intros p Hp. apply H. right. exact Hp.
    + destruct (H (j, t) (or_introl eq_refl)) as [Hj Ht]. cbn [fst snd] in *.
      rewrite !CsvFacts.mem_append, Hpre, Hj, Ht. reflexivity.
Qed.

Lemma add_item_pair : forall m pre j t,
  PyStr.mem ":" pre = false -> PyStr.mem ":" j = false ->
  PyStr.strip_ws (pre ++ j) = j -> PyStr.strip_ws t = t ->
  add_item (Some m) (pre ++ j ++ ":" ++ t) = Some (Dict.set j t m).
Proof.
  intros m pre j t Hpre Hj Sj St. unfold add_item.
  replace (pre ++ j ++ ":" ++ t)%string with ((pre ++ j) ++ String ":" t)%string
    by (rewrite append_assoc; reflexivity).
  assert (Hm : PyStr.mem ":" (pre ++ j) = false)
    by (rewrite CsvFacts.mem_append, Hpre, Hj; reflexivity).
  rewrite CsvFacts.mem_append. cbn [PyStr.mem]. rewrite Ascii.eqb_refl.
  cbn [orb]. rewrite orb_true_r.
  rewrite (MigrateFacts.split_max_one ":" _ t Hm), Sj, St. reflexivity.
Qed.

Lemma fold_add_pairs : forall pairs m,
  (forall p, In p pairs ->
     PyStr.mem ":" (fst p) = false
     /\ PyStr.strip_ws (fst p) = fst p /\ PyStr.strip_ws (snd p) = snd p) ->
  fold_left add_item
    (map (fun p => (" " ++ fst p ++ ":" ++ snd p)%string) pairs) (Some m)
  = Some (fold_left (fun d kv => Dict.set (fst kv) (snd kv) d) pairs m).
Proof.
  induction pairs as [|[j t] pairs IH]; intros m H; [reflexivity|].
  cbn [map fold_left fst snd].
  destruct (H (j, t) (or_introl eq_refl)) as (Hj & Sj & St). cbn [fst snd] in *.
  rewrite (add_item_pair m " " j t); [| reflexivity | exact Hj | | exact St].
  - apply IH. intros p Hp. apply H. right. exact Hp.
  - unfold PyStr.strip_ws in *. exact Sj.
Qed.

(** A text in the format that env.py documents, "Jira Name 1:Taiga Name
    1, Jira Name 2:Taiga Name 2", is read back as its pairs, in order:
    for Jira names without comma and colon and Taiga names without comma,
    all without blanks at their ends, and no Jira name twice.  A Taiga
    name may contain colons. *)
Theorem user_mapping_round_trip : forall pairs,
  (forall p, In p pairs ->
     PyStr.mem "," (fst p) = false /\ PyStr.mem "," (snd p) = false
     /\ PyStr.mem ":" (fst p) = false
     /\ PyStr.strip_ws (fst p) = fst p /\ PyStr.strip_ws (snd p) = snd p) ->
  NoDup (map fst pairs) ->
  USER_MAPPING (Some (mapping_text pairs)) = Some pairs.
Proof.
  intros pairs H Hnd. unfold USER_MAPPING, getenv. cbv zeta.
  destruct pairs as [|[j t] pairs]; [reflexivity|].
  assert (Ht : PyStr.truthy (mapping_text ((j, t) :: pairs)) = true).
  { destruct pairs as [|[j' t'] pairs]; cbn [mapping_text];
      destruct j; reflexivity. }
  rewrite Ht.
  change (mapping_text ((j, t) :: pairs))
    with (EmptyString ++ mapping_text ((j, t) :: pairs))%string at 1.
  rewrite split_mapping_text; [| reflexivity |].
  2:{ intros p Hp. destruct (H p Hp) as (A & B & _). auto. }
  cbn [fold_left].
  destruct (H (j, t) (or_introl eq_refl)) as (_ & _ & Hj & Sj & St).
  cbn [fst snd] in *.
  pose proof (add_item_pair [] EmptyString j t eq_refl Hj Sj St) as E.
  cbn [append] in E |- *.
  match goal with |- fold_left _ _ ?x = _ =>
    replace x with (Some (Dict.set j t [])) by (symmetry; exact E)
  end.
  pose proof (fold_add_pairs pairs (Dict.set j t [])) as F. cbn [append] in F.
  rewrite F.
  2:{ intros p Hp. destruct (H p (or_intror Hp)) as (_ & _ & A & B & C). auto. }
  cbn [Dict.set]. inversion Hnd as [|? ? Hk Hnd']; subst.
  rewrite CsvFacts.fold_set_fresh; [reflexivity | exact Hnd' |].
  intros k Hin. cbn [Dict.get].
  destruct (String.eqb_spec j k) as [->|Hne]; [contradiction | reflexivity].
Qed.

(** Witness of [user_mapping_round_trip]: the second Taiga name has a
    colon. *)
Lemma user_mapping_round_trip_witness :
  NoDup (map fst [("A. Smith", "Alice Smith"); ("bob", "Bob: Stone")]%string)
  /\ USER_MAPPING
       (Some (mapping_text [("A. Smith", "Alice Smith"); ("bob", "Bob: Stone")]%string))
     = Some [("A. Smith", "Alice Smith"); ("bob", "Bob: Stone")]%string.
Proof.
  assert (Hnd : NoDup (map fst [("A. Smith", "Alice Smith");
                                ("bob", "Bob: Stone")]%string)).
  { repeat constructor; cbn; intuition discriminate. }
  split; [exact Hnd|].
  apply (user_mapping_round_trip
           [("A. Smith", "Alice Smith"); ("bob", "Bob: Stone")]%string);
    [|exact Hnd].
  intros p [<-|[<-|[]]]; repeat split; reflexivity.
Defined.

Lemma rstrip_char_decomp : forall c s,
  exists n,
    s = (PyStr.rstrip_by (fun d => (d =? c)%char) s ++ PyStr.repeat (String c "") n)%string.
Proof.
  intros c s; induction s as [|a s IH].
  - exists 0. reflexivity.
  - destruct IH as [n IH]. cbn [PyStr.rstrip_by].
    destruct (PyStr.rstrip_by (fun d => (d =? c)%char) s) as [|b t] eqn:E.
    + cbn [append] in IH. destruct (Ascii.eqb_spec a c) as [->|Hne].
      * exists (S n). cbn [PyStr.repeat append]. rewrite <- IH. reflexivity.
      * exists n. cbn [append]. rewrite <- IH. reflexivity.
    + exists n. cbn [append] in *. rewrite <- IH. reflexivity.
Qed.

(** The host of Taiga is the text of the variable without the slashes
    at its end, however many there are: it never ends with a slash, and
    the text is the host followed by slashes only. *)
Theorem taiga_host_has_no_trailing_slash : forall value,
  PyStr.last (TAIGA_HOST value) <> Some "/"%char
  /\ exists n,
       getenv value "" = (TAIGA_HOST value ++ PyStr.repeat "/" n)%string.
Proof.
  intros value. unfold TAIGA_HOST. split.
  - intros H. apply SlugFacts.last_rstrip in H. discriminate.
  - apply rstrip_char_decomp.
Qed.

End EnvFacts.

(** ** The whole run *)

Module MainFacts.

Import Collab Eff EffFacts TaigaService Migrate MigrateFacts.

Lemma stories_app : forall l1 l2 : list (call * option Z),
  filter is_add_user_story (map fst (l1 ++ l2))
  = (filter is_add_user_story (map fst l1)
     ++ filter is_add_user_story (map fst l2))%list.
Proof. intros. rewrite map_app, filter_app. reflexivity. Qed.

Lemma stories_none : forall (P : call -> bool) (l : list (call * option Z)),
  (forall c, P c = true -> is_add_user_story c = false) ->
  forallb (fun en => P (fst en)) l = true ->
  filter is_add_user_story (map fst l) = [].
Proof.
  intros P l HP; induction l as [|[c r] l IH]; intros H; [reflexivity|].
  cbn [forallb fst] in H. apply andb_true_iff in H as [Hc Hl].
  cbn [map filter fst]. rewrite (HP c Hc). apply IH. exact Hl.
Qed.

Lemma stories_none_in : forall l : list (call * option Z),
  (forall en, In en l -> is_add_user_story (fst en) = false) ->
  filter is_add_user_story (map fst l) = [].
Proof.
  induction l as [|en l IH]; intros H; [reflexivity|].
  cbn [map filter]. rewrite (H en (or_introl eq_refl)).
  apply IH. intros en' Hin. apply H. right. exact Hin.
Qed.

Section WithCollaborator.

Context {W : Type} {collab : Collaborator W}.
Variable e : env.
Variable jira_service : JiraService.service.
Variable taiga_service : TaigaService.service.
Variable markdown : string -> string.

Lemma main_row_calls : forall taiga_statuses r s (st : state W),
  DRY_RUN e = false ->
  exists s' st' description_md reply rest,
    main_row e jira_service taiga_service markdown taiga_statuses r s st
    = (Ok s', st')
    /\ JiraService.convert_markup
         (match Dict.get "Description" r with Some v => v | None => EmptyString end)
       = Some description_md
    /\ log st'
       = (log st
          ++ (AddUserStory (summary_of r) (markdown description_md)
                (status_id_of taiga_statuses r)
                (assignee_lookup taiga_service (Dict.get "Assignee" r)), reply)
             :: rest)%list
    /\ filter is_add_user_story (map fst rest) = []
    /\ (success s' + failed s' = success s + failed s + 1)%Z.
Proof.
  intros ts r s st Hdry. unfold main_row.
  destruct (MarkupFacts.convert_markup_total
              (match Dict.get "Description" r with Some v => v | None => EmptyString end))
    as [md Hmd].
  rewrite Hmd, comments_loop_spec. cbn [lift app].
  rewrite !bind_ret_l, Hdry, RowFacts.status_id_inline.
  match goal with |- context [@create_story _ _ _ ?t ?d ?sid ?a ?pv ?cm false] =>
    destruct (create_story_run taiga_service t d sid a pv cm st)
      as (r0 & rest & L & F & C & Hok);
    destruct (create_story taiga_service t d sid a pv cm false st)
      as [[o|] st1] eqn:Ec
  end; cbn [fst snd] in *; unfold try_except, bind at 1; rewrite Ec.
  - destruct (attachments_logged e jira_service o r st1) as (new2 & L2 & F2 & _).
    unfold bind at 1.
    destruct ((if DOWNLOAD_ATTACHMENTS e
               then for_each (attachment_cols r) (handle_attachment jira_service o)
               else ret tt) st1) as [[[]|] st2]; cbn [fst snd] in *;
      eexists _, st2, md, r0, (rest ++ new2)%list;
      (split; [reflexivity|]); (split; [reflexivity|]);
      (split; [rewrite L2, L, <- app_assoc; reflexivity|]);
      (split; [rewrite stories_app,
                 (stories_none _ rest (detail_not_creation _) F),
                 (stories_none _ new2 attachment_not_creation F2); reflexivity|]);
      cbn [success failed]; lia.
  - eexists _, st1, md, r0, rest.
    split; [reflexivity|]. split; [reflexivity|]. split; [exact L|].
    split; [apply (stories_none _ rest (detail_not_creation _) F)|].
    cbn [success failed]. lia.
Qed.

Lemma main_rows_calls : forall taiga_statuses rows s (st : state W),
  DRY_RUN e = false ->
  exists s' st' new,
    main_rows e jira_service taiga_service markdown taiga_statuses rows s st
    = (Ok s', st')
    /\ log st' = (log st ++ new)%list
    /\ Forall2
         (fun c r =>
            exists description_md,
              JiraService.convert_markup
                (match Dict.get "Description" r with
                 | Some v => v | None => EmptyString end)
              = Some description_md
              /\ c = AddUserStory (summary_of r) (markdown description_md)
                       (status_id_of taiga_statuses r)
                       (assignee_lookup taiga_service (Dict.get "Assignee" r)))
         (filter is_add_user_story (map fst new)) rows
    /\ (success s' + failed s'
        = success s + failed s + Z.of_nat (List.length rows))%Z.
Proof.
  intros ts rows; induction rows as [|r rows IH]; intros s st Hdry.
  - exists s, st, []. rewrite app_nil_r. cbn. repeat split; [constructor | lia].
  - destruct (main_row_calls ts r s st Hdry)
      as (s1 & st1 & md & reply & rest & E1 & Hmd & L1 & N1 & S1).
    destruct (IH s1 st1 Hdry) as (s' & st' & new & E2 & L2 & F2 & S2).
    exists s', st', ((AddUserStory (summary_of r) (markdown md)
                        (status_id_of ts r)
                        (assignee_lookup taiga_service (Dict.get "Assignee" r)),
                      reply) :: rest ++ new)%list.
    cbn [main_rows]. unfold bind at 1. rewrite E1, E2.
    split; [reflexivity|].
    split; [rewrite L2, L1, <- app_assoc; reflexivity|].
    split.
    + cbn [map filter fst is_add_user_story]. rewrite stories_app, N1.
      constructor; [exists md; auto | exact F2].
    + cbn [List.length]. lia.
Qed.

Lemma main_rows_dry : forall taiga_statuses rows s (st : state W),
  DRY_RUN e = true ->
  main_rows e jira_service taiga_service markdown taiga_statuses rows s st
  = (Ok s, st).
Proof.
  intros ts rows; induction rows as [|r rows IH]; intros s st Hdry; [reflexivity|].
  cbn [main_rows]. unfold bind at 1.
  assert (Hrow : main_row e jira_service taiga_service markdown ts r s st
                 = (Ok s, st)).
  { unfold main_row.
    destruct (MarkupFacts.convert_markup_total
                (match Dict.get "Description" r with Some v => v | None => EmptyString end))
      as [md Hmd].
    rewrite Hmd, comments_loop_spec. cbn [lift app]. rewrite !bind_ret_l, Hdry.
    reflexivity. }
  rewrite Hrow. apply IH. exact Hdry.
Qed.

(** Under dry run, on a connected project, the whole run from the parsed
    rows on makes no call and leaves the state as it was, whatever the flag
    of the reset says and in whatever order the statuses are taken: no
    status is deleted or created and no story is created.  It returns the
    counters at zero, or nothing when there is no row. *)
Theorem main_dry_run : forall order rows (st : state W),
  DRY_RUN e = true ->
  project_connected taiga_service = true ->
  main e jira_service taiga_service markdown order rows st
  = (Ok (match rows with [] => None | _ => Some (Stats 0 0) end), st).
Proof.
  intros order rows st Hdry Hc. destruct rows as [|r rows]; [reflexivity|].
  unfold main. cbv zeta. unfold bind at 1.
  unfold sync_statuses at 1. rewrite Hc, Hdry. cbn [negb]. unfold ret at 1.
  unfold bind at 1. rewrite main_rows_dry by exact Hdry. reflexivity.
Qed.

(** Without dry run, on a connected project and with rows, the run
    returns the counters, which add up to the number of rows.  Its calls
    are those of [sync_statuses] on the statuses of the rows, none of which
    creates a story, followed by those of the rows; the stories created are one
    per row, in the order of the rows, each with the summary, the
    description, the assignee of its row and the identifier that the map
    returned by that run of [sync_statuses] has for the slug of the status
    of the row.  A row with a status has no
    identifier only if the creation of that status was called and raised.
    The order in which the set of statuses is iterated only has to reach
    every member. *)
Theorem main_creates_one_story_per_row : forall order rows (st : state W),
  DRY_RUN e = false ->
  project_connected taiga_service = true ->
  (forall l x, In x l -> In x (order l)) ->
  rows <> [] ->
  exists status_map st_sync s st' sync_calls row_calls,
    sync_statuses taiga_service (order (statuses_of rows)) (RESET_STATUSES e)
      false st = (Ok status_map, st_sync)
    /\ log st_sync = (log st ++ sync_calls)%list
    /\ main e jira_service taiga_service markdown order rows st = (Ok (Some s), st')
    /\ log st' = (log st ++ sync_calls ++ row_calls)%list
    /\ filter is_add_user_story (map fst sync_calls) = []
    /\ Forall2
         (fun c r =>
            exists description_md,
              JiraService.convert_markup
                (match Dict.get "Description" r with
                 | Some v => v | None => EmptyString end)
              = Some description_md
              /\ c = AddUserStory (summary_of r) (markdown description_md)
                       (status_id_of status_map r)
                       (assignee_lookup taiga_service (Dict.get "Assignee" r)))
         (filter is_add_user_story (map fst row_calls)) rows
    /\ (success s + failed s = Z.of_nat (List.length rows))%Z
    /\ forall r v,
         In r rows -> Dict.get "Status" r = Some v -> v <> EmptyString ->
         status_id_of status_map r <> None
         \/ exists j, In (status_call j v, None) sync_calls.
Proof.
  intros order rows st Hdry Hc Horder Hrows.
  destruct (SyncFacts.sync_statuses_run taiga_service (order (statuses_of rows))
              (RESET_STATUSES e) st Hc)
    as (st1 & dels & m & st2 & _ & Ld & Md & E & R).
  destruct (SyncFacts.sync_loop_log (order (statuses_of rows)) 0 [] st1)
    as (m0 & st0 & adds & E0 & La & Ha & _).
  rewrite E in E0. inversion E0; subst m0 st0. clear E0.
  destruct (SyncMoreFacts.sync_loop_missing _ _ _ _ _ _ E) as (_ & adds' & La' & Hm).
  assert (adds' = adds).
  { rewrite La in La'. apply app_inv_head in La'. congruence. }
  subst adds'.
  destruct (main_rows_calls m rows (Stats 0 0)
              (State (world st2) (log st2) (files st2) m) Hdry)
    as (s & st' & new & Er & Lr & Fr & Sr).
  exists m, (State (world st2) (log st2) (files st2) m), s, st',
    (dels ++ adds)%list, new.
  split; [exact R|].
  split; [cbn [log]; rewrite La, Ld, <- app_assoc; reflexivity|].
  split.
  { destruct rows as [|r rows]; [congruence|].
    unfold main. cbv zeta. unfold bind at 1. rewrite Hdry, R.
    unfold bind at 1. rewrite Er. reflexivity. }
  split.
  { rewrite Lr. cbn [log]. rewrite La, Ld, <- !app_assoc. reflexivity. }
  split.
  { rewrite stories_app. rewrite (stories_none_in adds).
    - rewrite app_nil_r, Md. destruct (RESET_STATUSES e); [|reflexivity].
      generalize (us_statuses (world st)). intros l.
      induction l as [|x l IHl]; [reflexivity | cbn; exact IHl].
    - intros en Hin. destruct (Ha en Hin) as (j & name & _ & ->). reflexivity. }
  split; [exact Fr|].
  split; [cbn [success failed] in Sr; lia|].
  intros r v Hin Hs Hv.
  assert (Ht : PyStr.truthy v = true) by (destruct v; [congruence | reflexivity]).
  assert (Hmem : In v (order (statuses_of rows))).
  { apply Horder. unfold statuses_of. apply nodup_In. apply in_flat_map.
    exists r. split; [exact Hin|]. rewrite Hs, Ht. left. reflexivity. }
  apply In_nth_error in Hmem as (j & Hj).
  unfold status_id_of. rewrite Hs, Ht.
  destruct (Hm j v Hj) as [Hg|Hfail]; [left; exact Hg|].
  right. exists j. apply in_or_app. right. exact Hfail.
Qed.

End WithCollaborator.

End MainFacts.

Module MainExamples.

Import Collab Eff TaigaService Migrate.

(** Witness of [main_dry_run]: the flag of the reset is on. *)
Lemma main_dry_run_witness :
  DRY_RUN (Env true true true) = true
  /\ project_connected Examples.taiga = true
  /\ main (collab := Mock.collaborator false) (Env true true true)
       Examples.jira Examples.taiga Examples.markdown_id (fun l => l)
       [Examples.row_with_attachment; Examples.row_plain]
       (Mock.start Examples.project_with_todo)
     = (Ok (Some (Stats 0 0)), Mock.start Examples.project_with_todo).
Proof.
  split; [reflexivity|]. split; [reflexivity|].
  apply (MainFacts.main_dry_run (collab := Mock.collaborator false)
           (Env true true true) Examples.jira Examples.taiga
           Examples.markdown_id (fun l => l)
           [Examples.row_with_attachment; Examples.row_plain]);
    reflexivity.
Defined.

(** Witness of [main_creates_one_story_per_row] *)
Lemma main_creates_one_story_per_row_witness :
  DRY_RUN Examples.env_run = false
  /\ project_connected Examples.taiga = true
  /\ exists status_map st_sync s st' sync_calls row_calls,
       sync_statuses (collab := Mock.collaborator false) Examples.taiga
         ((fun l => l)
            (statuses_of [Examples.row_with_attachment; Examples.row_plain]))
         (RESET_STATUSES Examples.env_run) false
         (Mock.start Examples.project_with_todo) = (Ok status_map, st_sync)
       /\ log st_sync
          = (log (Mock.start Examples.project_with_todo) ++ sync_calls)%list
       /\ main (collab := Mock.collaborator false) Examples.env_run
            Examples.jira Examples.taiga Examples.markdown_id (fun l => l)
            [Examples.row_with_attachment; Examples.row_plain]
            (Mock.start Examples.project_with_todo) = (Ok (Some s), st')
       /\ log st'
          = (log (Mock.start Examples.project_with_todo)
             ++ sync_calls ++ row_calls)%list
       /\ filter is_add_user_story (map fst sync_calls) = []
       /\ Forall2
            (fun c r =>
               exists description_md,
                 JiraService.convert_markup
                   (match Dict.get "Description" r with
                    | Some v => v | None => EmptyString end)
                 = Some description_md
                 /\ c = AddUserStory (summary_of r)
                          (Examples.markdown_id description_md)
                          (status_id_of status_map r)
                          (assignee_lookup Examples.taiga (Dict.get "Assignee" r)))
            (filter is_add_user_story (map fst row_calls))
            [Examples.row_with_attachment; Examples.row_plain]
       /\ (success s + failed s
           = Z.of_nat (List.length [Examples.row_with_attachment;
                                    Examples.row_plain]))%Z
       /\ forall r v,
            In r [Examples.row_with_attachment; Examples.row_plain] ->
            Dict.get "Status" r = Some v -> v <> EmptyString ->
            status_id_of status_map r <> None
            \/ exists j, In (status_call j v, None) sync_calls.
Proof.
  split; [reflexivity|]. split; [reflexivity|].
  apply (MainFacts.main_creates_one_story_per_row
           (collab := Mock.collaborator false) Examples.env_run Examples.jira
           Examples.taiga Examples.markdown_id (fun l => l)
           [Examples.row_with_attachment; Examples.row_plain]
           (Mock.start Examples.project_with_todo)).
  - reflexivity.
  - reflexivity.
  - intros l x H. exact H.
  - discriminate.
Defined.

End MainExamples.

(** ** The converter never loses a text *)

Module ConverterFacts.

Import JiraService.

(** [convert_markup] never raises, and its result is empty only for the
    empty text. *)
Theorem convert_markup_returns : forall body,
  exists text,
    convert_markup body = Some text
    /\ (text = EmptyString <-> body = EmptyString).
Proof.
  intros body. destruct (MarkupFacts.convert_markup_total body) as [text E].
  exists text. split; [exact E|]. split.
  - intros ->. destruct body as [|c body]; [reflexivity|].
    exfalso. eapply (CommentFacts.convert_markup_nonempty (String c body));
      [discriminate | exact E | reflexivity].
  - intros ->. cbn in E. inversion E. reflexivity.
Qed.

Import Re.

Ltac invert_first :=
  repeat match goal with
  | H : matches (_ @@ _) _ _ |- _ => inversion H; subst; clear H
  | H : matches (Lit _) _ _ |- _ => inversion H; subst; clear H
  | H : matches (Class _) _ _ |- _ => inversion H; subst; clear H
  | H : matches (Group _) _ _ |- _ => inversion H; subst; clear H
  | H : matches Bol _ _ |- _ => inversion H; subst; clear H
  | H : matches (NotBehind _) _ _ |- _ => inversion H; subst; clear H
  end.

(** A pattern that matches nowhere in a text: the substitution leaves the
    text as it is.  [Q] holds of the text and of its suffixes. *)
Lemma scan_no_match : forall r (Q : string -> Prop),
  (forall c s, Q (String c s) -> Q s) ->
  (forall prev s, Q s -> match_at r prev s = None) ->
  forall s prev, Q s ->
    (forall repl, render repl (scan r prev 0 s) = s)
    /\ (forall repl, render_fn repl (scan r prev 0 s) = Some s).
Proof.
  intros r Q Htl Hno s; induction s as [|c s IH]; intros prev Hq;
    cbn [scan]; rewrite (Hno prev _ Hq).
  - split; reflexivity.
  - destruct (IH (Some c) (Htl _ _ Hq)) as [H1 H2].
    split; intros repl; cbn [render render_fn];
      [rewrite H1 | rewrite H2]; reflexivity.
Qed.

Lemma no_first_no_match : forall r c0 (p : ascii -> bool),
  (forall st st', matches r st st' -> exists s', m_rest st = String c0 s') ->
  p c0 = false ->
  forall prev s, PyStr.all p s = true -> match_at r prev s = None.
Proof.
  intros r c0 p Hfirst Hp prev s Hs. unfold match_at.
  destruct (rmatch r (MState prev 0 s None) Some) as [res|] eqn:E; [|reflexivity].
  apply ReFacts.rmatch_sound in E as (st' & Hm & _).
  apply Hfirst in Hm as (s' & Hr). cbn [m_rest] in Hr. subst s.
  cbn [PyStr.all] in Hs. rewrite Hp in Hs. discriminate.
Qed.

Lemma all_tail : forall p c s, PyStr.all p (String c s) = true -> PyStr.all p s = true.
Proof. intros p c s H. cbn in H. apply andb_true_iff in H. tauto. Qed.

Lemma sub_plain : forall r c0 (p : ascii -> bool) s,
  (forall st st', matches r st st' -> exists s', m_rest st = String c0 s') ->
  p c0 = false -> PyStr.all p s = true ->
  (forall repl, sub r repl s = s) /\ (forall repl, sub_fn r repl s = Some s).
Proof.
  intros r c0 p s Hfirst Hp Hs. unfold sub, sub_fn.
  apply (scan_no_match r (fun s => PyStr.all p s = true)).
  - intros c t. apply all_tail.
  - intros prev t Ht. eapply no_first_no_match; eassumption.
  - exact Hs.
Qed.

Lemma replace_plain : forall c0 old' new (p : ascii -> bool) s,
  p c0 = false -> PyStr.all p s = true ->
  PyStr.replace (String c0 old') new s = s.
Proof.
  intros c0 old' new p s Hp. unfold PyStr.replace.
  induction s as [|c s IH]; intros Hs; [reflexivity|].
  cbn [PyStr.replace_from prefix].
  destruct (ascii_dec c0 c) as [->|Hne].
  - cbn [PyStr.all] in Hs. rewrite Hp in Hs. discriminate.
  - rewrite (IH (all_tail _ _ _ Hs)). reflexivity.
Qed.

Lemma first_image : forall st st',
  matches re_image st st' -> exists s', m_rest st = String "!" s'.
Proof. unfold re_image. intros st st' H. invert_first. eauto. Qed.

Lemma first_link : forall st st',
  matches re_link st st' -> exists s', m_rest st = String "[" s'.
Proof. unfold re_link. intros st st' H. invert_first. eauto. Qed.

Lemma first_bullets : forall st st',
  matches re_bullets st st' -> exists s', m_rest st = String "*" s'.
Proof. unfold re_bullets. intros st st' H. invert_first. eauto. Qed.

Lemma first_numbered : forall st st',
  matches re_numbered st st' -> exists s', m_rest st = String "#" s'.
Proof. unfold re_numbered. intros st st' H. invert_first. eauto. Qed.

Lemma first_bold : forall st st',
  matches re_bold st st' -> exists s', m_rest st = String "*" s'.
Proof. unfold re_bold. intros st st' H. invert_first. eauto. Qed.

Lemma first_mono : forall st st',
  matches re_mono st st' -> exists s', m_rest st = String "{" s'.
Proof. unfold re_mono. cbn [Word]. intros st st' H. invert_first. eauto. Qed.

Lemma first_code : forall st st',
  matches re_code st st' -> exists s', m_rest st = String "{" s'.
Proof. unfold re_code. cbn [Word]. intros st st' H. invert_first. eauto. Qed.

Lemma first_noformat : forall st st',
  matches re_noformat st st' -> exists s', m_rest st = String "{" s'.
Proof. unfold re_noformat. cbn [Word]. intros st st' H. invert_first. eauto. Qed.

Lemma matches_cat_inv : forall r1 r2 st st',
  matches (r1 @@ r2) st st' ->
  exists st2, matches r1 st st2 /\ matches r2 st2 st'.
Proof. intros r1 r2 st st' H. inversion H; subst. eauto. Qed.

Lemma matches_lit_inv : forall c st st',
  matches (Lit c) st st' ->
  exists s', m_rest st = String c s' /\ st' = advance st c s'.
Proof. intros c st st' H. inversion H; subst. eauto. Qed.

Lemma matches_class_inv : forall p st st',
  matches (Class p) st st' ->
  exists d s', m_rest st = String d s' /\ p d = true /\ st' = advance st d s'.
Proof. intros p st st' H. inversion H; subst. eauto. Qed.

Lemma matches_group_inv : forall r st st',
  matches (Group r) st st' ->
  exists st1, matches r st st1 /\ m_rest st' = m_rest st1.
Proof. intros r st st' H. inversion H; subst. eauto. Qed.

Lemma heading_start : forall st st',
  matches re_heading st st' ->
  exists d s', PyStr.mem d "123456" = true
               /\ m_rest st = String "h" (String d (String "." s')).
Proof.
  unfold re_heading. intros st st' H.
  apply matches_cat_inv in H as (a & Hb & H). inversion Hb; subst.
  apply matches_cat_inv in H as (b & Hl & H).
  apply matches_lit_inv in Hl as (s1 & R1 & ->).
  apply matches_cat_inv in H as (c & Hg & H).
  apply matches_group_inv in Hg as (c1 & Hc & Rc).
  apply matches_class_inv in Hc as (d & s2 & R2 & Pd & ->).
  apply matches_cat_inv in H as (e & Hdot & _).
  apply matches_lit_inv in Hdot as (s3 & R3 & _).
  unfold advance in *. cbn [m_rest] in *.
  exists d, s3. split; [exact Pd|]. rewrite R1, R2, <- Rc, R3. reflexivity.
Qed.

(** A text without the characters "!", "[", "*", "#", "{" and "(", and
    without a heading marker "h1." to "h6.", is converted to itself. *)
Theorem convert_markup_plain : forall body,
  PyStr.all (none_of "![*#{(") body = true ->
  (forall d, PyStr.mem d "123456" = true ->
     PyStr.contains (String "h" (String d ".")) body = false) ->
  convert_markup body = Some body.
Proof.
  intros body Hp Hh. unfold convert_markup.
  destruct body as [|c0 body0]; [reflexivity|].
  cbn [PyStr.truthy negb]. remember (String c0 body0) as body eqn:Hb. clear Hb.
  destruct (sub_plain re_image "!" _ body first_image eq_refl Hp) as [E1 _].
  destruct (sub_plain re_link "[" _ body first_link eq_refl Hp) as [_ E2].
  destruct (sub_plain re_bullets "*" _ body first_bullets eq_refl Hp) as [_ E3].
  destruct (sub_plain re_numbered "#" _ body first_numbered eq_refl Hp) as [E4 _].
  destruct (sub_plain re_bold "*" _ body first_bold eq_refl Hp) as [E6 _].
  destruct (sub_plain re_mono "{" _ body first_mono eq_refl Hp) as [E7 _].
  destruct (sub_plain re_code "{" _ body first_code eq_refl Hp) as [E8 _].
  destruct (sub_plain re_noformat "{" _ body first_noformat eq_refl Hp) as [E9 _].
  assert (E5 : forall repl, sub_fn re_heading repl body = Some body).
  { unfold sub_fn.
    apply (scan_no_match re_heading
             (fun s => forall d, PyStr.mem d "123456" = true ->
                PyStr.contains (String "h" (String d ".")) s = false)).
    - intros c s H d Hd. specialize (H d Hd). cbn [PyStr.contains] in H.
      apply orb_false_iff in H. tauto.
    - intros prev s H. unfold match_at.
      destruct (rmatch re_heading (MState prev 0 s None) Some) as [res|] eqn:E;
        [|reflexivity].
      apply ReFacts.rmatch_sound in E as (st' & Hm & _).
      apply heading_start in Hm as (d & s' & Hd & Hr). cbn [m_rest] in Hr.
      subst s. specialize (H d Hd). cbn in H.
      destruct (ascii_dec d d); [|congruence].
      destruct s'; discriminate.
    - exact Hh. }
  rewrite E1, E2. cbn [bind]. rewrite E3. cbn [bind].
  rewrite E4, E5. cbn [bind]. rewrite E6, E7.
  unfold icons, code_blocks. cbv zeta.
  rewrite !(replace_plain "(" _ _ _ body eq_refl Hp).
  rewrite E8, (replace_plain "{" _ _ _ body eq_refl Hp), E9. reflexivity.
Qed.

(** Witness of [convert_markup_plain] *)
Lemma convert_markup_plain_witness :
  PyStr.all (none_of "![*#{(") "Login fails on h1 page." = true
  /\ convert_markup "Login fails on h1 page." = Some "Login fails on h1 page."%string.
Proof.
  split; [reflexivity|].
  apply (convert_markup_plain "Login fails on h1 page."); [reflexivity|].
  intros d Hd. cbn in Hd.
  repeat match type of Hd with
  | (?x || ?y) = true =>
      apply orb_true_iff in Hd; destruct Hd as [Hd|Hd];
        [apply Ascii.eqb_eq in Hd; subst d; reflexivity|]
  end.
  discriminate.
Defined.

End ConverterFacts.
